(** * llm-desktop: the tool-call grammar parser, the stream consumer and the
      turn orchestrator

    A shallow embedding of [src/ui/ui_text.py] and of the streaming and
    agent loops of [src/ui/chat_controller.py], together with the file
    write endpoint of [src/search/search.py] that the dispatcher talks to.

    Python values are modelled as follows.
    - [str] is a list of Unicode code points ([list N]); literals are
      written with [Py.lit] and contain ASCII only.
    - [int] is [Z]; [float] is a dyadic rational, an infinity or NaN.
    - clock readings ([time.perf_counter()]) are rationals ([Q]).
    - dictionaries with a fixed set of keys (messages, statistics) are
      records; JSON objects are association lists in parse order. *)

From Stdlib Require Import List NArith ZArith Lia Bool String Ascii QArith Qminmax.
From stdpp Require Import gmap.
Import ListNotations.
#[local] Open Scope Z_scope.

(* ===================================================================== *)
(** ** Python strings *)
(* ===================================================================== *)

Module Py.

Definition str := list N.

(** An ASCII literal as a Python string. *)
Definition lit (s : string) : str := map N_of_ascii (list_ascii_of_string s).

(** A literal in which every apostrophe stands for a quotation mark. *)
Definition qlit (s : string) : str :=
  map (fun c => if N.eqb c 39 then 34%N else c) (lit s).

Definition len (s : str) : Z := Z.of_nat (length s).

(** Code points for which [str.isspace] holds; [str.strip()] removes
    exactly these. *)
Definition whitespace : list N :=
  [9; 10; 11; 12; 13; 28; 29; 30; 31; 32; 133; 160; 5760;
   8192; 8193; 8194; 8195; 8196; 8197; 8198; 8199; 8200; 8201; 8202;
   8232; 8233; 8239; 8287; 12288]%N.

Definition isspace (c : N) : bool := existsb (N.eqb c) whitespace.

Fixpoint lstrip (s : str) : str :=
  match s with
  | [] => []
  | c :: s' => if isspace c then lstrip s' else s
  end.

Definition rstrip (s : str) : str := rev (lstrip (rev s)).

Definition strip (s : str) : str := rstrip (lstrip s).

Fixpoint startswith (p s : str) : bool :=
  match p, s with
  | [], _ => true
  | _ :: _, [] => false
  | a :: p', b :: s' => N.eqb a b && startswith p' s'
  end.

Definition endswith (p s : str) : bool := startswith (rev p) (rev s).

(** [s.find(sub)]: the lowest index of an occurrence, or [-1]. *)
Fixpoint find_at (sub s : str) (i : Z) : Z :=
  if startswith sub s then i
  else match s with
       | [] => -1
       | _ :: s' => find_at sub s' (i + 1)
       end.

Definition find (sub s : str) : Z := find_at sub s 0.

(** [s.find(sub, start)] for [0 <= start]. *)
Definition find_from (sub s : str) (start : Z) : Z :=
  if len s <? start then -1
  else find_at sub (skipn (Z.to_nat start) s) start.

(** [s[i:]] and [s[:j]] for non-negative [i], [j]. *)
Definition slice_from (s : str) (i : Z) : str := skipn (Z.to_nat i) s.
Definition slice_to (s : str) (j : Z) : str := firstn (Z.to_nat j) s.

(** Line boundaries recognised by [str.splitlines]. *)
Definition linebreaks : list N :=
  [10; 11; 12; 13; 28; 29; 30; 133; 8232; 8233]%N.

Definition is_linebreak (c : N) : bool := existsb (N.eqb c) linebreaks.

Fixpoint splitlines_aux (s : str) (cur : str) : list str :=
  match s with
  | [] => match cur with [] => [] | _ => [rev cur] end
  | c :: s' =>
      if N.eqb c 13 then
        match s' with
        | d :: s'' =>
            if N.eqb d 10 then rev cur :: splitlines_aux s'' []
            else rev cur :: splitlines_aux s' []
        | [] => rev cur :: splitlines_aux s' []
        end
      else if is_linebreak c then rev cur :: splitlines_aux s' []
      else splitlines_aux s' (c :: cur)
  end.

Definition splitlines (s : str) : list str := splitlines_aux s [].

(** [sep.join(parts)]. *)
Fixpoint join (sep : str) (parts : list str) : str :=
  match parts with
  | [] => []
  | [p] => p
  | p :: rest => p ++ sep ++ join sep rest
  end.

(** [lines[1:-1]]. *)
Definition drop_first_last {A} (l : list A) : list A := removelast (tl l).

(** Truthiness of a string. *)
Definition truthy (s : str) : bool :=
  match s with [] => false | _ => true end.

(** [sub in s]. *)
Definition contains (sub s : str) : bool := negb (find sub s =? -1).

Definition is_digit (c : N) : bool := (48 <=? c)%N && (c <=? 57)%N.

Definition digit_val (c : N) : Z := Z.of_N c - 48.

Definition digits_val (ds : list N) : Z :=
  fold_left (fun acc d => 10 * acc + digit_val d) ds 0.

(** The interpreter refuses to convert more than this many digits
    ([sys.get_int_max_str_digits()]). *)
Definition int_max_str_digits : Z := 4300.

(** Digits of the literal grammar of [int(str)]: groups of digits
    separated by single underscores. *)
Fixpoint int_digits (s : str) (prev_digit : bool) (acc : list N) : option (list N) :=
  match s with
  | [] => if prev_digit then Some (rev acc) else None
  | c :: s' =>
      if is_digit c then int_digits s' true (c :: acc)
      else if N.eqb c 95 && prev_digit then int_digits s' false acc
      else None
  end.

(** [int(s)] for a string [s]: [None] stands for [ValueError].  Only
    ASCII digits are modelled; CPython also accepts the other decimal
    digits of Unicode, which no statement below depends on. *)
Definition int_of_str (s : str) : option Z :=
  let t := strip s in
  let '(neg, body) :=
    match t with
    | c :: r => if N.eqb c 45 then (true, r)
                else if N.eqb c 43 then (false, r) else (false, t)
    | [] => (false, t)
    end in
  match int_digits body false [] with
  | Some ds =>
      if int_max_str_digits <? Z.of_nat (length ds) then None
      else Some (if neg then - digits_val ds else digits_val ds)
  | None => None
  end.

(** Decimal rendering of a non-negative integer, as in an f-string. *)
Fixpoint digits_of_pos (fuel : nat) (n : Z) (acc : str) : str :=
  match fuel with
  | O => acc
  | S fuel' =>
      let acc' := Z.to_N (48 + n mod 10) :: acc in
      if n <? 10 then acc' else digits_of_pos fuel' (n / 10) acc'
  end.

Definition str_of_nat (n : nat) : str :=
  digits_of_pos (S n) (Z.of_nat n) [].

End Py.

Notation "s 'py'" := (Py.lit s) (at level 1, only parsing).

(** JSON text is written with an apostrophe wherever the text has a
    quotation mark (U+0022). *)
Notation "s 'js'" := (Py.qlit s) (at level 1, only parsing).

(* ===================================================================== *)
(** ** JSON values and [json.loads] *)
(* ===================================================================== *)

Module Json.

(** A Python float: [FFin m e] is the number [m * 2^e]. *)
Inductive pyfloat :=
| FFin (m e : Z)
| FInf
| FNegInf
| FNan.

(** What [json.loads] returns. A [JDict] keeps the members in the
    order they were read; a later duplicate key wins on lookup, as it
    does in the [dict] the decoder builds. *)
#[warnings="-register-all"]
Inductive value :=
| JNull
| JBool (b : bool)
| JInt (n : Z)
| JFloat (f : pyfloat)
| JStr (s : Py.str)
| JList (l : list value)
| JDict (kv : list (Py.str * value)).

(** [d.get(k)]. *)
Fixpoint dict_get (k : Py.str) (kv : list (Py.str * value)) : option value :=
  match kv with
  | [] => None
  | (k', v) :: rest =>
      match dict_get k rest with
      | Some v' => Some v'
      | None => if decide (k = k') then Some v else None
      end
  end.

(** [d.get(k, default)]. *)
Definition dict_get_default (k : Py.str) (kv : list (Py.str * value))
    (default : value) : value :=
  match dict_get k kv with Some v => v | None => default end.

(** [d.get(k)] with a missing key read as [None]. *)
Definition dict_get_none (k : Py.str) (kv : list (Py.str * value)) : value :=
  dict_get_default k kv JNull.

(** [int(f)]: truncation towards zero. *)
Definition float_trunc (m e : Z) : Z :=
  if 0 <=? e then m * 2 ^ e else Z.quot m (2 ^ (- e)).

(** [int(x)]; [None] stands for the exception ([TypeError],
    [ValueError] or [OverflowError]) that the callers catch. *)
Definition py_int (x : value) : option Z :=
  match x with
  | JInt n => Some n
  | JBool b => Some (if b then 1 else 0)
  | JFloat (FFin m e) => Some (float_trunc m e)
  | JFloat _ => None
  | JStr s => Py.int_of_str s
  | JNull | JList _ | JDict _ => None
  end.

(** [bool(x)]. *)
Definition py_bool (x : value) : bool :=
  match x with
  | JNull => false
  | JBool b => b
  | JInt n => negb (n =? 0)
  | JFloat (FFin m _) => negb (m =? 0)
  | JFloat _ => true
  | JStr s => Py.truthy s
  | JList l => match l with [] => false | _ => true end
  | JDict kv => match kv with [] => false | _ => true end
  end.

(** *** Decimal to binary64 *)

Definition round_half_even (num den : Z) : Z :=
  let q := num / den in
  let r := num mod den in
  if 2 * r <? den then q
  else if den <? 2 * r then q + 1
  else if Z.even q then q else q + 1.

(** The binary64 nearest to [num / den] (both positive), ties to even. *)
Definition binary64_of_ratio (num den : Z) : pyfloat :=
  let scaled e := if 0 <=? e then (num, den * 2 ^ e) else (num * 2 ^ (- e), den) in
  let e0 := Z.log2 num - Z.log2 den - 52 in
  let e1 := let '(n, d) := scaled e0 in if n <? d * 2 ^ 52 then e0 - 1 else e0 in
  let e := Z.max e1 (-1074) in
  let '(n, d) := scaled e in
  let m := round_half_even n d in
  let '(m', e') := if m =? 2 ^ 53 then (2 ^ 52, e + 1) else (m, e) in
  if 971 <? e' then FInf else FFin m' e'.

Definition float_neg (f : pyfloat) : pyfloat :=
  match f with
  | FFin m e => FFin (- m) e
  | FInf => FNegInf
  | FNegInf => FInf
  | FNan => FNan
  end.

(** The digits without their leading zeros. *)
Fixpoint significant (ds : list N) : list N :=
  match ds with
  | d :: r => if N.eqb d 48 then significant r else ds
  | [] => []
  end.

(** [float(text)] for the digits [ds] scaled by [10^e10].  A value of
    [nd] significant digits lies between [10^(e10+nd-1)] and
    [10^(e10+nd)], so that the two tests on [e10 + nd] only cut short
    results that are infinite or zero anyway. *)
Definition float_of_decimal (neg : bool) (ds : list N) (e10 : Z) : pyfloat :=
  let m := Py.digits_val ds in
  let nd := Z.of_nat (length (significant ds)) in
  let mag :=
    if m =? 0 then FFin 0 0
    else if 400 <? e10 + nd then FInf
    else if e10 + nd <? -400 then FFin 0 0
    else if 0 <=? e10 then binary64_of_ratio (m * 10 ^ e10) 1
    else binary64_of_ratio m (10 ^ (- e10)) in
  if neg then float_neg mag else mag.

(** *** The scanner *)

(** [WHITESPACE] of the decoder: space, tab, line feed, carriage return. *)
Definition is_ws (c : N) : bool :=
  N.eqb c 32 || N.eqb c 9 || N.eqb c 10 || N.eqb c 13.

Fixpoint skip_ws (s : Py.str) : Py.str :=
  match s with
  | c :: s' => if is_ws c then skip_ws s' else s
  | [] => []
  end.

Fixpoint strip_prefix (p s : Py.str) : option Py.str :=
  match p, s with
  | [], _ => Some s
  | _ :: _, [] => None
  | a :: p', b :: s' => if N.eqb a b then strip_prefix p' s' else None
  end.

Definition hexval (c : N) : option N :=
  if Py.is_digit c then Some (c - 48)%N
  else if (97 <=? c)%N && (c <=? 102)%N then Some (c - 87)%N
  else if (65 <=? c)%N && (c <=? 70)%N then Some (c - 55)%N
  else None.

Definition hex4 (a b c d : N) : option N :=
  match hexval a, hexval b, hexval c, hexval d with
  | Some x, Some y, Some z, Some w => Some (((x * 16 + y) * 16 + z) * 16 + w)%N
  | _, _, _, _ => None
  end.

(** The one-letter escapes: quotation mark, reverse solidus, solidus,
    b, f, n, r and t. *)
Definition simple_escape (c : N) : option N :=
  if N.eqb c 34 then Some 34%N
  else if N.eqb c 92 then Some 92%N
  else if N.eqb c 47 then Some 47%N
  else if N.eqb c 98 then Some 8%N
  else if N.eqb c 102 then Some 12%N
  else if N.eqb c 110 then Some 10%N
  else if N.eqb c 114 then Some 13%N
  else if N.eqb c 116 then Some 9%N
  else None.

(** The body of a string after its opening quote, in strict mode: a
    control character (below U+0020) is an error.  Returns the decoded
    string and the text after the closing quote. *)
Fixpoint scanstring (s : Py.str) (acc : Py.str) : option (Py.str * Py.str) :=
  match s with
  | [] => None
  | c :: r =>
      if N.eqb c 34 then Some (rev acc, r)
      else if N.eqb c 92 then
        match r with
        | [] => None
        | e :: r1 =>
            if N.eqb e 117 then
              match r1 with
              | h1 :: h2 :: h3 :: h4 :: r2 =>
                  match hex4 h1 h2 h3 h4 with
                  | None => None
                  | Some uni =>
                      let single := scanstring r2 (uni :: acc) in
                      if (55296 <=? uni)%N && (uni <=? 56319)%N then
                        match r2 with
                        | b :: u :: g1 :: g2 :: g3 :: g4 :: r3 =>
                            if N.eqb b 92 && N.eqb u 117 then
                              match hex4 g1 g2 g3 g4 with
                              | None => None
                              | Some lo =>
                                  if (56320 <=? lo)%N && (lo <=? 57343)%N then
                                    scanstring r3
                                      ((65536 + (uni - 55296) * 1024 + (lo - 56320))%N :: acc)
                                  else single
                              end
                            else single
                        | _ => single
                        end
                      else single
                  end
              | _ => None
              end
            else
              match simple_escape e with
              | Some d => scanstring r1 (d :: acc)
              | None => None
              end
        end
      else if (c <? 32)%N then None
      else scanstring r (c :: acc)
  end.

Fixpoint take_digits (s : Py.str) (acc : list N) : list N * Py.str :=
  match s with
  | c :: s' => if Py.is_digit c then take_digits s' (c :: acc) else (rev acc, s)
  | [] => (rev acc, [])
  end.

(** [NUMBER_RE]: an optional minus sign, then zero or a digit string
    without a leading zero, an optional fraction (a dot and at least
    one digit) and an optional exponent ([e] or [E], an optional sign
    and at least one digit).  Without fraction and exponent the number
    is an [int], otherwise a [float]. *)
Definition scan_number (s : Py.str) : option (value * Py.str) :=
  let '(neg, s1) :=
    match s with
    | c :: r => if N.eqb c 45 then (true, r) else (false, s)
    | [] => (false, s)
    end in
  match s1 with
  | d :: r =>
      if Py.is_digit d then
        let '(ip, s2) := if N.eqb d 48 then ([d], r) else take_digits s1 [] in
        let '(fp, s3) :=
          match s2 with
          | dot :: r2 =>
              if N.eqb dot 46 then
                match take_digits r2 [] with
                | ([], _) => (None, s2)
                | (ds, r3) => (Some ds, r3)
                end
              else (None, s2)
          | [] => (None, s2)
          end in
        let '(ep, s4) :=
          match s3 with
          | e :: r3 =>
              if N.eqb e 101 || N.eqb e 69 then
                let '(sgn, r4) :=
                  match r3 with
                  | sc :: t => if N.eqb sc 43 then (1, t)
                               else if N.eqb sc 45 then (-1, t) else (1, r3)
                  | [] => (1, r3)
                  end in
                match take_digits r4 [] with
                | ([], _) => (None, s3)
                | (ds, r5) => (Some (sgn * Py.digits_val ds), r5)
                end
              else (None, s3)
          | [] => (None, s3)
          end in
        match fp, ep with
        | None, None =>
            if Py.int_max_str_digits <? Z.of_nat (length ip) then None
            else Some (JInt (if neg then - Py.digits_val ip else Py.digits_val ip), s4)
        | _, _ =>
            let fd := match fp with Some ds => ds | None => [] end in
            let ex := match ep with Some x => x | None => 0 end in
            Some (JFloat (float_of_decimal neg (ip ++ fd) (ex - Z.of_nat (length fd))), s4)
        end
      else None
  | [] => None
  end.

Definition scan_constant (s : Py.str) : option (value * Py.str) :=
  match strip_prefix ("null"py) s with
  | Some r => Some (JNull, r)
  | None =>
  match strip_prefix ("true"py) s with
  | Some r => Some (JBool true, r)
  | None =>
  match strip_prefix ("false"py) s with
  | Some r => Some (JBool false, r)
  | None =>
  match scan_number s with
  | Some x => Some x
  | None =>
  match strip_prefix ("NaN"py) s with
  | Some r => Some (JFloat FNan, r)
  | None =>
  match strip_prefix ("Infinity"py) s with
  | Some r => Some (JFloat FInf, r)
  | None =>
  match strip_prefix ("-Infinity"py) s with
  | Some r => Some (JFloat FNegInf, r)
  | None => None
  end end end end end end end.

(** [scan_once]: one JSON term at the head of [s].  The fuel bounds
    the nesting of calls; [loads] supplies more than the text can use. *)
Fixpoint scan_once (fuel : nat) (s : Py.str) {struct fuel} : option (value * Py.str) :=
  match fuel with
  | O => None
  | S fuel' =>
      match s with
      | [] => None
      | c :: r =>
          if N.eqb c 34 then
            match scanstring r [] with
            | Some (k, r') => Some (JStr k, r')
            | None => None
            end
          else if N.eqb c 123 then
            match skip_ws r with
            | c1 :: r1 =>
                if N.eqb c1 125 then Some (JDict [], r1)
                else parse_members fuel' (c1 :: r1) []
            | [] => None
            end
          else if N.eqb c 91 then
            match skip_ws r with
            | c1 :: r1 =>
                if N.eqb c1 93 then Some (JList [], r1)
                else parse_elems fuel' (c1 :: r1) []
            | [] => None
            end
          else scan_constant s
      end
  end
with parse_members (fuel : nat) (s : Py.str) (acc : list (Py.str * value))
    {struct fuel} : option (value * Py.str) :=
  match fuel with
  | O => None
  | S fuel' =>
      match s with
      | q :: r =>
          if N.eqb q 34 then
            match scanstring r [] with
            | None => None
            | Some (k, r1) =>
                match skip_ws r1 with
                | colon :: r2 =>
                    if N.eqb colon 58 then
                      match scan_once fuel' (skip_ws r2) with
                      | None => None
                      | Some (v, r3) =>
                          match skip_ws r3 with
                          | d :: r4 =>
                              if N.eqb d 125 then Some (JDict (rev ((k, v) :: acc)), r4)
                              else if N.eqb d 44 then
                                parse_members fuel' (skip_ws r4) ((k, v) :: acc)
                              else None
                          | [] => None
                          end
                      end
                    else None
                | [] => None
                end
            end
          else None
      | [] => None
      end
  end
with parse_elems (fuel : nat) (s : Py.str) (acc : list value)
    {struct fuel} : option (value * Py.str) :=
  match fuel with
  | O => None
  | S fuel' =>
      match scan_once fuel' s with
      | None => None
      | Some (v, r1) =>
          match skip_ws r1 with
          | d :: r2 =>
              if N.eqb d 93 then Some (JList (rev (v :: acc)), r2)
              else if N.eqb d 44 then parse_elems fuel' (skip_ws r2) (v :: acc)
              else None
          | [] => None
          end
      end
  end.

(** [json.loads(s)]; [None] stands for any exception it raises.  The
    fuel is more than the scanner can use ([JsonFacts.loads_fuel_enough]);
    the recursion limit of the interpreter is not modelled. *)
Definition loads (s : Py.str) : option value :=
  match scan_once (2 * length s + 2) (skip_ws s) with
  | Some (v, r) => match skip_ws r with [] => Some v | _ => None end
  | None => None
  end.

End Json.

(* ===================================================================== *)
(** ** [src/ui/ui_text.py]: the tool-call grammar parser *)
(* ===================================================================== *)

Module UiText.

Import Json.

Definition quote : N := 34.
Definition backslash : N := 92.
Definition lbrace : N := 123.
Definition rbrace : N := 125.
Definition LF : N := 10.
Definition CR : N := 13.

Definition fence : Py.str := "```"py.
Definition fence_json : Py.str := "```json"py.

Definition is_emoji (code : N) : bool :=
  ((127744 <=? code) && (code <=? 129791)
   || (127462 <=? code) && (code <=? 127487)
   || (9728 <=? code) && (code <=? 9983)
   || (9984 <=? code) && (code <=? 10175)
   || (126976 <=? code) && (code <=? 127023))%N.

Definition strip_emoji (text : Py.str) : Py.str :=
  filter (fun ch =>
            negb (N.eqb ch 8205 || N.eqb ch 65039 || N.eqb ch 8419)
            && negb (is_emoji ch)) text.

Definition _strip_code_fences (text : Py.str) : Py.str :=
  let raw := Py.strip text in
  if Py.startswith fence raw && Py.endswith fence raw then
    let lines := Py.splitlines raw in
    if 3 <=? Z.of_nat (length lines) then
      Py.strip (Py.join [LF] (Py.drop_first_last lines))
    else raw
  else raw.

(** The loop of [_extract_first_json_object] over [s[start:]]: [n]
    characters have been read; the result is the length of the
    balanced prefix. *)
Fixpoint scan_balanced (s : Py.str) (in_str esc : bool) (depth : Z) (n : nat)
    : option nat :=
  match s with
  | [] => None
  | ch :: s' =>
      if in_str then
        if esc then scan_balanced s' true false depth (S n)
        else if N.eqb ch backslash then scan_balanced s' true true depth (S n)
        else if N.eqb ch quote then scan_balanced s' false esc depth (S n)
        else scan_balanced s' true esc depth (S n)
      else
        if N.eqb ch quote then scan_balanced s' true esc depth (S n)
        else if N.eqb ch lbrace then scan_balanced s' false esc (depth + 1) (S n)
        else if N.eqb ch rbrace then
          if depth - 1 =? 0 then Some (S n)
          else scan_balanced s' false esc (depth - 1) (S n)
        else scan_balanced s' false esc depth (S n)
  end.

(** [fence_idx]: where the first fence tagged [json] starts or, when
    there is none, where the first fence starts. *)
Definition fence_index (raw : Py.str) : Z :=
  let i := Py.find fence_json raw in
  if i =? -1 then Py.find fence raw else i.

(** The fenced-block branch of [_extract_first_json_object]. *)
Definition fenced_object (raw : Py.str) : option Py.str :=
  let fence_idx := fence_index raw in
  if negb (fence_idx =? -1) then
    let tail := Py.slice_from raw fence_idx in
    let end_ := Py.find_from fence tail 3 in
    if negb (end_ =? -1) then
      let block := Py.slice_to tail (end_ + 3) in
      let inner := _strip_code_fences block in
      if Py.startswith [lbrace] inner && Py.endswith [rbrace] inner
      then Some inner else None
    else None
  else None.

(** The brace-scanning branch of [_extract_first_json_object]. *)
Definition first_balanced (s : Py.str) : option Py.str :=
  let start := Py.find [lbrace] s in
  if start =? -1 then None
  else
    let from := Py.slice_from s start in
    match scan_balanced from false false 0 0 with
    | Some n => Some (firstn n from)
    | None => None
    end.

Definition _extract_first_json_object (text : Py.str) : option Py.str :=
  if negb (Py.truthy text) then None
  else
    match fenced_object text with
    | Some inner => Some inner
    | None => first_balanced text
    end.

Fixpoint escape_loop (raw : Py.str) (in_str esc : bool) : Py.str :=
  match raw with
  | [] => []
  | ch :: r =>
      if in_str then
        if esc then ch :: escape_loop r true false
        else if N.eqb ch backslash then ch :: escape_loop r true true
        else if N.eqb ch quote then ch :: escape_loop r false esc
        else if N.eqb ch CR || N.eqb ch LF then
          backslash :: 110%N :: escape_loop r true esc
        else ch :: escape_loop r true esc
      else
        if N.eqb ch quote then ch :: escape_loop r true esc
        else ch :: escape_loop r false esc
  end.

Definition _escape_raw_newlines_in_json_strings (raw : Py.str) : Py.str :=
  if negb (Py.truthy raw) then raw else escape_loop raw false false.

(** A validated tool call: one variant per tool of the closed set,
    carrying the checked and clamped arguments. *)
Inductive ToolCall :=
| WebSearch (query : Py.str) (count : Z)
| FsList (path : Py.str) (recursive : bool) (limit : Z)
| FsRead (path : Py.str) (max_bytes : Z)
| FsWrite (path : Py.str) (content : Py.str) (overwrite : bool)
| FsSearch (query path : Py.str) (limit : Z) (regex case_sensitive : bool).

(** The [tool] entry of the returned dictionary. *)
Definition tc_tool (tc : ToolCall) : Py.str :=
  match tc with
  | WebSearch _ _ => "web_search"py
  | FsList _ _ _ => "fs_list"py
  | FsRead _ _ => "fs_read"py
  | FsWrite _ _ _ => "fs_write"py
  | FsSearch _ _ _ _ _ => "fs_search"py
  end.

(** [max(lo, min(hi, int(x)))] with [default] when [int(x)] raises. *)
Definition clamp_int (lo hi default : Z) (x : value) : Z :=
  let n := match py_int x with Some n => n | None => default end in
  Z.max lo (Z.min hi n).

(** [isinstance(x, str) and x.strip()]: the string, when it is one
    and is not blank. *)
Definition nonblank_str (x : value) : option Py.str :=
  match x with
  | JStr s => if Py.truthy (Py.strip s) then Some s else None
  | _ => None
  end.

(** [isinstance(x, list) and all(isinstance(e, str) for e in x)]. *)
Fixpoint all_str (l : list value) : option (list Py.str) :=
  match l with
  | [] => Some []
  | JStr s :: l' =>
      match all_str l' with Some r => Some (s :: r) | None => None end
  | _ :: _ => None
  end.

Definition str_list (x : value) : option (list Py.str) :=
  match x with JList l => all_str l | _ => None end.

(** [path = args.get(key, "."); if not a non-blank str: path = "."]. *)
Definition path_or_dot (x : value) : Py.str :=
  match nonblank_str x with Some s => s | None => "."py end.

(** [x == s] for a string literal [s]. *)
Definition str_eq (x : value) (s : Py.str) : bool :=
  match x with JStr t => bool_decide (t = s) | _ => false end.

(** The part of [parse_tool_call] after [json.loads]. *)
Definition tool_call_of_value (obj : value) : option ToolCall :=
  match obj with
  | JDict o =>
      let tool := dict_get_none ("tool"py) o in
      match dict_get_none ("args"py) o with
      | JDict args =>
          if str_eq tool ("web_search"py) then
            match nonblank_str (dict_get_none ("query"py) args) with
            | None => None
            | Some query =>
                let count := clamp_int 1 10 5 (dict_get_default ("count"py) args (JInt 5)) in
                Some (WebSearch (Py.strip query) count)
            end
          else if str_eq tool ("fs_list"py) then
            let path := path_or_dot (dict_get_default ("path"py) args (JStr ("."py))) in
            let recursive := py_bool (dict_get_default ("recursive"py) args (JBool false)) in
            let limit := clamp_int 1 1000 200 (dict_get_default ("limit"py) args (JInt 200)) in
            Some (FsList (Py.strip path) recursive limit)
          else if str_eq tool ("fs_read"py) then
            match nonblank_str (dict_get_none ("path"py) args) with
            | None => None
            | Some path =>
                let max_bytes :=
                  clamp_int 1 5000000 200000
                    (dict_get_default ("max_bytes"py) args (JInt 200000)) in
                Some (FsRead (Py.strip path) max_bytes)
            end
          else if str_eq tool ("fs_write"py) then
            let content := dict_get_none ("content"py) args in
            let content_lines := dict_get_none ("content_lines"py) args in
            match nonblank_str (dict_get_none ("path"py) args) with
            | None => None
            | Some path =>
                let content' :=
                  match str_list content with
                  | Some ls => JStr (Py.join [LF] ls)
                  | None =>
                      match content, str_list content_lines with
                      | JNull, Some ls => JStr (Py.join [LF] ls)
                      | _, _ => content
                      end
                  end in
                match content' with
                | JStr c =>
                    let overwrite :=
                      py_bool (dict_get_default ("overwrite"py) args (JBool true)) in
                    Some (FsWrite (Py.strip path) c overwrite)
                | _ => None
                end
            end
          else if str_eq tool ("fs_search"py) then
            match nonblank_str (dict_get_none ("query"py) args) with
            | None => None
            | Some query =>
                let path := path_or_dot (dict_get_default ("path"py) args (JStr ("."py))) in
                let limit := clamp_int 1 500 50 (dict_get_default ("limit"py) args (JInt 50)) in
                let regex := py_bool (dict_get_default ("regex"py) args (JBool false)) in
                let case_sensitive :=
                  py_bool (dict_get_default ("case_sensitive"py) args (JBool false)) in
                Some (FsSearch (Py.strip query) (Py.strip path) limit regex case_sensitive)
            end
          else None
      | _ => None
      end
  | _ => None
  end.

(** The strict parse of [parse_tool_call] with its single repair pass. *)
Definition loads_with_repair (raw : Py.str) : option value :=
  match loads raw with
  | Some obj => Some obj
  | None =>
      let fixed := _escape_raw_newlines_in_json_strings raw in
      if decide (fixed = raw) then None else loads fixed
  end.

Definition parse_tool_call (text : Py.str) : option ToolCall :=
  match _extract_first_json_object (Py.strip text) with
  | None => None
  | Some raw =>
      if negb (Py.truthy raw) then None
      else
        match loads_with_repair raw with
        | None => None
        | Some obj => tool_call_of_value obj
        end
  end.

End UiText.

(* ===================================================================== *)
(** ** [src/ui/ui_markdown.py] and [src/ui/ui_prompt.py] *)
(* ===================================================================== *)

Module UiMarkdown.

(** [str.splitlines(keepends=True)]. *)
Fixpoint splitlines_keep (s : Py.str) (cur : Py.str) : list Py.str :=
  match s with
  | [] => match cur with [] => [] | _ => [rev cur] end
  | c :: s' =>
      if N.eqb c 13 then
        match s' with
        | d :: s'' =>
            if N.eqb d 10 then rev (d :: c :: cur) :: splitlines_keep s'' []
            else rev (c :: cur) :: splitlines_keep s' []
        | [] => rev (c :: cur) :: splitlines_keep s' []
        end
      else if Py.is_linebreak c then rev (c :: cur) :: splitlines_keep s' []
      else splitlines_keep s' (c :: cur)
  end.

Definition markers : list Py.str :=
  ["SYSTEM:"py; "TOOL["py; "TOOL ["py; "USER ["py; "ASSISTANT ["py].

Fixpoint echo_loop (lines : list Py.str) (skipping : bool) : Py.str :=
  match lines with
  | [] => []
  | ln :: rest =>
      let s := Py.strip ln in
      if skipping then
        echo_loop rest (Py.truthy s)
      else if existsb (fun m => Py.startswith m s) markers then
        echo_loop rest true
      else ln ++ echo_loop rest skipping
  end.

Definition strip_prompt_echo (text : Py.str) : Py.str :=
  if negb (Py.truthy text) then []
  else if negb (existsb (fun m => Py.contains m text) markers) then text
  else echo_loop (splitlines_keep text []) false.

End UiMarkdown.

Module UiPrompt.

Inductive Role := RUser | RModel | RSearch | RTool | RToolCall.

(** One entry of [state["messages"]], as [add_message] builds it; the
    widget handles are left out except for the text shown by the
    message's control. *)
Record Message := mkMessage {
  role : Role;
  content : Py.str;
  display_content : option Py.str;
  display_raw : option Py.str;
  tool_call_raw : option Py.str;
  llm_content : option Py.str;
  control_value : Py.str;
  timestamp : Py.str;
  tool_name : option Py.str
}.

(** [x or ""] for an optional string. *)
Definition or_empty (x : option Py.str) : Py.str :=
  match x with Some s => s | None => [] end.

(** [a or b] for strings. *)
Definition py_or (a b : Py.str) : Py.str := if Py.truthy a then a else b.

Definition estimate_tokens (text : Py.str) (chars_per_token : Z) : Z :=
  if negb (Py.truthy text) then 0
  else
    let cpt := if chars_per_token <=? 0 then 4 else chars_per_token in
    Z.max 0 (Z.quot (Py.len text) cpt).

(** The transcript line of one message, if it has one. *)
Definition render_message (msg : Message) : option Py.str :=
  match role msg with
  | RUser =>
      let text := match llm_content msg with Some t => t | None => content msg end in
      Some ("USER ["py ++ timestamp msg ++ "]: "py ++ text)
  | RSearch | RTool =>
      let payload := match llm_content msg with Some t => t | None => content msg end in
      let fallback := match role msg with RSearch => "web_search"py | _ => "tool"py end in
      let name := py_or (or_empty (tool_name msg)) fallback in
      Some ("TOOL["py ++ name ++ "]: "py ++ payload)
  | RToolCall => None
  | RModel =>
      let text := match display_content msg with Some t => t | None => content msg end in
      Some ("ASSISTANT ["py ++ timestamp msg ++ "]: "py ++ text)
  end.

Definition assistant_marker : Py.str := [10%N] ++ "ASSISTANT:"py.

(** [format_prompt(state, messages)]; [preamble] stands for the SYSTEM
    parts built from the persona, the clock and the tool toggles. *)
Definition format_prompt (preamble : list Py.str) (messages : list Message) : Py.str :=
  Py.join [10%N] (preamble ++ omap render_message messages) ++ assistant_marker.

End UiPrompt.

(* ===================================================================== *)
(** ** The tool backend: [/files/write] of [src/search/search.py] and its
       client in [src/ui/ui_backend_tools.py] *)
(* ===================================================================== *)

Module Backend.

(** An exception as the dispatcher sees it: whether it is a
    [requests.exceptions.RequestException], and [str(exc)]. *)
Record exn := mkExn { transient : bool; text : Py.str }.

Definition RuntimeError (msg : Py.str) : exn := mkExn false msg.

(** What a tool method returns: the Markdown block and the context block. *)
Definition tool_output : Type := Py.str * Py.str.

Definition result : Type := exn + tool_output.

(** [ctx.backend_tools]: the five tool methods over a backend state [W].
    Only [fs_write] is given a concrete model below. *)
Record BackendTools (W : Type) := mkBackendTools {
  web_search : W -> Py.str -> Z -> result * W;
  fs_list : W -> Py.str -> bool -> Z -> result * W;
  fs_read : W -> Py.str -> Z -> result * W;
  fs_write : W -> Py.str -> Py.str -> bool -> result * W;
  fs_search : W -> Py.str -> Py.str -> Z -> bool -> bool -> result * W
}.
Arguments web_search {W}.
Arguments fs_list {W}.
Arguments fs_read {W}.
Arguments fs_write {W}.
Arguments fs_search {W}.

(** *** The file store behind [/files/write] *)

Inductive node :=
| File (data : Py.str)
| Dir.

(** Files and directories under the tool root, keyed by resolved path. *)
Definition store : Type := gmap Py.str node.

(** [HTTPException(status_code, detail)]. *)
Record http_error := mkHttpError { status_code : Z; detail : Py.str }.

Record FilesWriteResponse := mkFilesWriteResponse {
  resp_path : Py.str;
  bytes_written : Z;
  message : Py.str;
  backup_path : option Py.str
}.

(** [len(ch.encode("utf-8", errors="replace"))] for one code point. *)
Definition utf8_len1 (c : N) : Z :=
  if (c <? 128)%N then 1
  else if (c <? 2048)%N then 2
  else if (55296 <=? c)%N && (c <=? 57343)%N then 1
  else if (c <? 65536)%N then 3
  else 4.

Definition utf8_len (s : Py.str) : Z :=
  fold_right (fun c acc => utf8_len1 c + acc) 0 s.

(** The backup names [files_write] tries, in order. *)
Definition backup_name (key : Py.str) (i : nat) : Py.str :=
  match i with
  | O => key ++ ".bak"py
  | S _ => key ++ ".bak."py ++ Py.str_of_nat i
  end.

(** The backup name chosen by [files_write]: [name.bak], then
    [name.bak.1], [name.bak.2], ... until one does not exist.  The
    fuel stands for the termination of the [while] loop; with as much
    fuel as the store has entries the search always succeeds
    ([BackendFacts.backup_search_finds]). *)
Fixpoint backup_search (fs : store) (key : Py.str) (fuel : nat) (n : nat)
    (backup : Py.str) : option Py.str :=
  match fs !! backup with
  | None => Some backup
  | Some _ =>
      match fuel with
      | O => None
      | S fuel' =>
          backup_search fs key fuel' (S n) (key ++ ".bak."py ++ Py.str_of_nat n)
      end
  end.

Section FilesWrite.

(** [_safe_join(_files_root(), rel_path)]: the resolved path, or the
    error raised for a missing root, an absolute path or one that
    escapes the root.  Path resolution belongs to the operating system
    and is a parameter. *)
Variable safe_join : Py.str -> http_error + Py.str.

(** [files_write(request)] with [mkdirs=True], as the client sends it.
    Failures of the operating system ([OSError]) are not modelled. *)
Definition files_write (fs : store) (rel_path content : Py.str) (overwrite : bool)
    : (http_error + FilesWriteResponse) * store :=
  match safe_join rel_path with
  | inl e => (inl e, fs)
  | inr path =>
      match fs !! path with
      | Some Dir => (inl (mkHttpError 400 ("Path is a directory"py)), fs)
      | Some (File old) =>
          if negb overwrite then
            (inl (mkHttpError 409 ("File exists and overwrite=false"py)), fs)
          else
            match backup_search fs path (size fs) 1 (path ++ ".bak"py) with
            | None => (inl (mkHttpError 500 ("Unable to create backup"py)), fs)
            | Some backup =>
                let fs1 := <[backup := File old]> fs in
                if 5000000 <? utf8_len content then
                  (inl (mkHttpError 400 ("Content too large"py)), fs1)
                else
                  (inr (mkFilesWriteResponse path (utf8_len content) ("OK"py) (Some backup)),
                   <[path := File content]> fs1)
            end
      | None =>
          if 5000000 <? utf8_len content then
            (inl (mkHttpError 400 ("Content too large"py)), fs)
          else
            (inr (mkFilesWriteResponse path (utf8_len content) ("OK"py) None),
             <[path := File content]> fs)
      end
  end.

(** [BackendTools.fs_write]: posts the request and renders the answer.
    [elapsed_ms] is the measured round-trip time. *)
Definition client_fs_write (elapsed_ms : nat) (fs : store)
    (path content : Py.str) (overwrite : bool) : result * store :=
  match files_write fs path content overwrite with
  | (inl e, fs') =>
      let d := if Py.truthy (detail e) then detail e else "File write failed"py in
      (inl (RuntimeError (Py.strip d)), fs')
  | (inr r, fs') =>
      let rel := if Py.truthy (resp_path r) then resp_path r else path in
      let n := Py.str_of_nat (Z.to_nat (bytes_written r)) in
      let lines :=
        [ "## Wrote: `"py ++ rel ++ "`"py; [];
          "*Bytes written:* "py ++ n;
          "*Elapsed:* "py ++ Py.str_of_nat elapsed_ms ++ " ms"py ]
        ++ match backup_path r with
           | Some b => if Py.truthy b then ["*Backup:* `"py ++ b ++ "`"py] else []
           | None => []
           end
        ++ (let m := Py.strip (message r) in
            if Py.truthy m && negb (bool_decide (m = "OK"py))
            then ["*Message:* "py ++ m] else []) in
      let ctx :=
        "FILE WROTE: "py ++ rel ++ " ("py ++ n ++ " bytes)"py
        ++ match backup_path r with
           | Some b => if Py.truthy b then [10%N] ++ "BACKUP: "py ++ b else []
           | None => []
           end in
      (inr (Py.join [10%N] lines, ctx), fs')
  end.

End FilesWrite.

End Backend.

(* ===================================================================== *)
(** ** [src/ui/chat_controller.py]: the stream consumer *)
(* ===================================================================== *)

Module ChatController.

Import UiPrompt Backend.
Export UiText.

(** [ChatContext]: the callables and settings injected by [app.py]. *)
Record ChatContext (W : Type) := mkChatContext {
  format_prompt : list Message -> Py.str;
  strip_prompt_echo : Py.str -> Py.str;
  parse_tool_call : Py.str -> option ToolCall;
  extract_first_json_object : option (Py.str -> option Py.str);
  strip_emoji : Py.str -> Py.str;
  backend_tools : BackendTools W;
  chars_per_token : Z
}.
Arguments format_prompt {W}.
Arguments strip_prompt_echo {W}.
Arguments parse_tool_call {W}.
Arguments extract_first_json_object {W}.
Arguments strip_emoji {W}.
Arguments backend_tools {W}.
Arguments chars_per_token {W}.

(** The context as [app.py] builds it: the parser and the extractor are
    those of [ui_text.py], the prompt is that of [ui_prompt.py]. *)
Definition app_context {W} (preamble : list Py.str) (tools : BackendTools W)
    : ChatContext W :=
  {| format_prompt := UiPrompt.format_prompt preamble;
     strip_prompt_echo := UiMarkdown.strip_prompt_echo;
     parse_tool_call := UiText.parse_tool_call;
     extract_first_json_object := Some UiText._extract_first_json_object;
     strip_emoji := UiText.strip_emoji;
     backend_tools := tools;
     chars_per_token := 4 |}.

(** The entries of the [state] dictionary that the controller uses.
    [messages] holds the transcript before the message being written. *)
Record State := mkState {
  strip_emoji_enabled : bool;
  session_tokens : Z;
  session_gen_time_ms : Q;
  tool_web_search_enabled : bool;
  tool_fs_enabled : bool;
  tool_files_max_bytes : option Z;
  messages : list Message
}.

(** What the worker asks of the presentation layer and of the transport,
    in program order. *)
Inductive event :=
| EvSnack (msg : Py.str)
| EvPost (attempt : Z) (prompt : Py.str)
| EvClose
| EvSleep
| EvFlushTail (to_add_display : Py.str)
| EvMarkToolCallEarly (status : Py.str).

(** The local variables of [stream_completion_into], the target
    message, and three ghost fields: the log of events, everything read
    from the stream so far, and its display form. *)
Record Locals := mkLocals {
  first_token_time : option Q;
  chars : Z;
  was_cancelled : bool;
  pending_display : Py.str;
  pending_raw : Py.str;
  last_flush : Q;
  saw_tool_call : bool;
  tool_call_detected : bool;
  attempt : Z;
  last_err : option exn;
  loading_notified : bool;
  msg : Message;
  log : list event;
  received : Py.str;
  shown : Py.str
}.

Definition max_retries : Z := 2.

Definition loading_wait_s : Q := 180%Q.

Definition flush_interval_s : Q := (5 # 100)%Q.

Definition reconnect_directive : Py.str :=
  [10%N]
  ++ "SYSTEM: Previous stream disconnected. Continue from where you left off without repeating."py
  ++ [10%N] ++ "ASSISTANT:"py.

Definition init_locals (m : Message) : Locals :=
  {| first_token_time := None; chars := 0; was_cancelled := false;
     pending_display := []; pending_raw := []; last_flush := 0%Q;
     saw_tool_call := false; tool_call_detected := false;
     attempt := 0; last_err := None; loading_notified := false;
     msg := m; log := []; received := []; shown := [] |}.

Definition set_msg (l : Locals) (m : Message) : Locals :=
  {| first_token_time := first_token_time l; chars := chars l;
     was_cancelled := was_cancelled l;
     pending_display := pending_display l; pending_raw := pending_raw l;
     last_flush := last_flush l; saw_tool_call := saw_tool_call l;
     tool_call_detected := tool_call_detected l; attempt := attempt l;
     last_err := last_err l; loading_notified := loading_notified l;
     msg := m; log := log l; received := received l; shown := shown l |}.

Definition emit (l : Locals) (e : event) : Locals :=
  {| first_token_time := first_token_time l; chars := chars l;
     was_cancelled := was_cancelled l;
     pending_display := pending_display l; pending_raw := pending_raw l;
     last_flush := last_flush l; saw_tool_call := saw_tool_call l;
     tool_call_detected := tool_call_detected l; attempt := attempt l;
     last_err := last_err l; loading_notified := loading_notified l;
     msg := msg l; log := log l ++ [e]; received := received l; shown := shown l |}.

Definition set_cancelled (l : Locals) : Locals :=
  {| first_token_time := first_token_time l; chars := chars l;
     was_cancelled := true;
     pending_display := pending_display l; pending_raw := pending_raw l;
     last_flush := last_flush l; saw_tool_call := saw_tool_call l;
     tool_call_detected := tool_call_detected l; attempt := attempt l;
     last_err := last_err l; loading_notified := loading_notified l;
     msg := msg l; log := log l; received := received l; shown := shown l |}.

Definition set_pending (l : Locals) (pd pr : Py.str) : Locals :=
  {| first_token_time := first_token_time l; chars := chars l;
     was_cancelled := was_cancelled l;
     pending_display := pd; pending_raw := pr;
     last_flush := last_flush l; saw_tool_call := saw_tool_call l;
     tool_call_detected := tool_call_detected l; attempt := attempt l;
     last_err := last_err l; loading_notified := loading_notified l;
     msg := msg l; log := log l; received := received l; shown := shown l |}.

Definition tool_status_text_for (name : Py.str) : Py.str :=
  if bool_decide (name = "web_search"py) then "Searching the web..."py
  else if bool_decide (name = "fs_list"py) then "Listing files..."py
  else if bool_decide (name = "fs_search"py) then "Searching files..."py
  else if bool_decide (name = "fs_read"py) then "Reading file..."py
  else if bool_decide (name = "fs_write"py) then "Writing file..."py
  else "Running tool..."py.

Section Stream.

Context {W : Type}.
Variable ctx : ChatContext W.
Variable state : State.

(** [flush_tail]: the display text reaches the message and its control. *)
Definition flush_tail (m : Message) (to_add_display : Py.str) : Message :=
  let raw := or_empty (display_raw m) ++ to_add_display in
  let sanitized := strip_prompt_echo ctx raw in
  {| role := role m; content := content m;
     display_content := Some sanitized; display_raw := Some raw;
     tool_call_raw := tool_call_raw m; llm_content := llm_content m;
     control_value := sanitized; timestamp := timestamp m;
     tool_name := tool_name m |}.

Definition append_content (m : Message) (raw : Py.str) : Message :=
  {| role := role m; content := content m ++ raw;
     display_content := display_content m; display_raw := display_raw m;
     tool_call_raw := tool_call_raw m; llm_content := llm_content m;
     control_value := control_value m; timestamp := timestamp m;
     tool_name := tool_name m |}.

Definition flush_pending (l : Locals) : Locals :=
  let l1 :=
    if Py.truthy (pending_display l) then
      let to_add_display := pending_display l in
      emit (set_msg (set_pending l [] (pending_raw l))
                    (flush_tail (msg l) to_add_display))
           (EvFlushTail to_add_display)
    else l in
  if Py.truthy (pending_raw l1) then
    set_pending (set_msg l1 (append_content (msg l1) (pending_raw l1)))
                (pending_display l1) []
  else l1.

(** [mark_tool_call_early], together with the assignment to
    [tool_call_raw] that precedes it. *)
Definition mark_tool_call_early (m : Message) (tool_json status : Py.str) : Message :=
  {| role := RToolCall; content := status;
     display_content := Some status; display_raw := Some status;
     tool_call_raw := Some tool_json; llm_content := llm_content m;
     control_value := status; timestamp := timestamp m;
     tool_name := tool_name m |}.

(** The prompt of one attempt. *)
Definition attempt_prompt (l : Locals) : Py.str :=
  let prompt := format_prompt ctx (messages state ++ [msg l]) in
  if (0 <? attempt l) && Py.endswith assistant_marker prompt then
    firstn (length prompt - length assistant_marker) prompt ++ reconnect_directive
  else prompt.

(** *** What the transport delivers *)

(** A line of the response body after decoding: empty, without the
    [data: ] prefix, one whose payload makes [json.loads] or
    [chunk.get] raise, or a chunk with its [content] string (possibly
    empty). *)
Inductive line_payload :=
| LEmpty
| LNotData
| LBadJson
| LChunk (content : Py.str).

(** One iteration of the read loop: the value of the cancellation flag
    when the line arrives, the line, and the two clock readings taken
    while it is handled. *)
Record line_ev := mkLine {
  cancel_seen : bool;
  payload : line_payload;
  t_token : Q;
  t_now : Q
}.

(** How the line iterator ends. *)
Inductive stream_end :=
| EndOfStream
| ReadError (e : exn).

(** The answer to one request. *)
Inductive attempt_ev :=
| ConnectError (e : exn)
| Loading (cancel_after : bool) (wall_now : Q)
| HttpError (status : Z) (detail : Py.str)
| Streaming (lines : list line_ev) (fin : stream_end).

(** One iteration of the retry loop: the cancellation flag at the top of
    the loop, the answer to the request, and the flag as the exception
    handler reads it. *)
Record iteration := mkIteration {
  top_cancel : bool;
  answer : attempt_ev;
  handler_cancel : bool
}.

Inductive loop_exit :=
| Exhausted
| BreakCancelled
| BreakToolCall
| Raised (e : exn).

Definition json_error : exn := mkExn false ("Expecting value"py).

(** The tool-call interception that follows every buffered append. *)
Definition intercept (l : Locals) : option Locals :=
  if saw_tool_call l then None
  else
    let combined := content (msg l) ++ pending_raw l in
    match parse_tool_call ctx (Py.strip combined) with
    | None => None
    | Some tool_call =>
        let tool_json :=
          match extract_first_json_object ctx with
          | Some extractor => extractor (Py.strip combined)
          | None => None
          end in
        match tool_json with
        | None => None
        | Some j =>
            if Py.truthy j then
              let status := tool_status_text_for (py_or (tc_tool tool_call) ("tool"py)) in
              let l1 := set_msg l (mark_tool_call_early (msg l) j status) in
              let l2 := emit l1 (EvMarkToolCallEarly status) in
              Some (emit
                {| first_token_time := first_token_time l2; chars := chars l2;
                   was_cancelled := was_cancelled l2;
                   pending_display := []; pending_raw := [];
                   last_flush := last_flush l2; saw_tool_call := true;
                   tool_call_detected := true; attempt := attempt l2;
                   last_err := last_err l2; loading_notified := loading_notified l2;
                   msg := msg l2; log := log l2; received := received l2; shown := shown l2 |}
                EvClose)
            else None
        end
    end.

(** The buffered append of one content chunk. *)
Definition append_chunk (l : Locals) (ev : line_ev) (raw_content : Py.str) : Locals :=
  let display_chunk :=
    if strip_emoji_enabled state then strip_emoji ctx raw_content else raw_content in
  {| first_token_time :=
       match first_token_time l with
       | None => Some (t_token ev)
       | Some t => Some t
       end;
     chars := chars l + Py.len raw_content;
     was_cancelled := was_cancelled l;
     pending_display := pending_display l ++ display_chunk;
     pending_raw := pending_raw l ++ raw_content;
     last_flush := last_flush l; saw_tool_call := saw_tool_call l;
     tool_call_detected := tool_call_detected l; attempt := attempt l;
     last_err := last_err l; loading_notified := loading_notified l;
     msg := msg l; log := log l; received := received l ++ raw_content;
     shown := shown l ++ display_chunk |}.

(** The debounced flush at the end of an iteration. *)
Definition debounce (l : Locals) (now : Q) : Locals :=
  if Qle_bool flush_interval_s (now - last_flush l)%Q then
    flush_pending
      {| first_token_time := first_token_time l; chars := chars l;
         was_cancelled := was_cancelled l;
         pending_display := pending_display l; pending_raw := pending_raw l;
         last_flush := now; saw_tool_call := saw_tool_call l;
         tool_call_detected := tool_call_detected l; attempt := attempt l;
         last_err := last_err l; loading_notified := loading_notified l;
         msg := msg l; log := log l; received := received l; shown := shown l |}
  else l.

(** [for raw_line in response.iter_lines(...)]. *)
Fixpoint read_lines (lines : list line_ev) (l : Locals) : loop_exit * Locals :=
  match lines with
  | [] => (Exhausted, l)
  | ev :: rest =>
      if cancel_seen ev then (BreakCancelled, set_cancelled l)
      else
        match payload ev with
        | LEmpty | LNotData => read_lines rest l
        | LBadJson => (Raised json_error, l)
        | LChunk raw_content =>
            if negb (Py.truthy raw_content) then read_lines rest l
            else
              let l1 := append_chunk l ev raw_content in
              match intercept l1 with
              | Some l2 => (BreakToolCall, l2)
              | None => read_lines rest (debounce l1 (t_now ev))
              end
        end
  end.

Inductive control := Continue | Break.

Definition set_attempt_err (l : Locals) (a : Z) (e : option exn) : Locals :=
  {| first_token_time := first_token_time l; chars := chars l;
     was_cancelled := was_cancelled l;
     pending_display := pending_display l; pending_raw := pending_raw l;
     last_flush := last_flush l; saw_tool_call := saw_tool_call l;
     tool_call_detected := tool_call_detected l; attempt := a;
     last_err := e; loading_notified := loading_notified l;
     msg := msg l; log := log l; received := received l; shown := shown l |}.

Definition set_loading_notified (l : Locals) : Locals :=
  {| first_token_time := first_token_time l; chars := chars l;
     was_cancelled := was_cancelled l;
     pending_display := pending_display l; pending_raw := pending_raw l;
     last_flush := last_flush l; saw_tool_call := saw_tool_call l;
     tool_call_detected := tool_call_detected l; attempt := attempt l;
     last_err := last_err l; loading_notified := true;
     msg := msg l; log := log l; received := received l; shown := shown l |}.

(** How the [try] block of one iteration ends: by [break], by
    [continue], or with an exception; [opened] tells whether the request
    had produced a response by then. *)
Inductive try_exit :=
| TryBreak (l : Locals)
| TryContinue (l : Locals)
| TryRaise (exc : exn) (opened : bool) (l : Locals).

Definition reconnect_notice (a : Z) : Py.str :=
  "Stream interrupted; reconnecting (attempt "py ++ Py.str_of_nat (Z.to_nat a)
  ++ "/"py ++ Py.str_of_nat (Z.to_nat max_retries) ++ ")..."py.

(** The reconnect notice, when this is a retry, and the request. *)
Definition posted (l : Locals) : Locals :=
  let l0 := if 0 <? attempt l then emit l (EvSnack (reconnect_notice (attempt l))) else l in
  emit l0 (EvPost (attempt l0) (attempt_prompt l0)).

(** The request and the [try] block.  In [HttpError], [detail] is the
    body of the answer or, when that is empty, its reason phrase. *)
Definition try_body (wall_start : Q) (it : iteration) (l : Locals) : try_exit :=
  let l1 := posted l in
  match answer it with
  | ConnectError e => TryRaise e false l1
  | Loading cancel_after wall_now =>
      let l2 :=
        if loading_notified l1 then l1
        else emit (set_loading_notified l1) (EvSnack ("Model is loading... waiting."py)) in
      let l3 := emit l2 EvClose in
      if cancel_after then TryBreak (set_cancelled l3)
      else if negb (Qle_bool wall_now (wall_start + loading_wait_s)%Q) then
        TryRaise (RuntimeError ("Model is still loading (timeout)."py)) true l3
      else TryContinue (emit l3 EvSleep)
  | HttpError status detail =>
      TryRaise
        (RuntimeError ("Completion error "py ++ Py.str_of_nat (Z.to_nat status)
                       ++ ": "py ++ detail)) true l1
  | Streaming lines fin =>
      match read_lines lines l1 with
      | (Exhausted, l2) =>
          match fin with
          | EndOfStream => TryBreak (flush_pending l2)
          | ReadError e => TryRaise e true l2
          end
      | (BreakCancelled, l2) | (BreakToolCall, l2) => TryBreak (flush_pending l2)
      | (Raised e, l2) => TryRaise e true l2
      end
  end.

(** The [except Exception as exc] clause. *)
Definition handle_exception (it : iteration) (opened : bool) (exc : exn) (l : Locals)
    : control * Locals :=
  let l1 := flush_pending l in
  if handler_cancel it then (Break, set_cancelled l1)
  else
    let l2 := set_attempt_err l1 (attempt l1) (Some exc) in
    if transient exc && (attempt l2 <? max_retries) then
      let l3 := set_attempt_err l2 (attempt l2 + 1) (Some exc) in
      (Continue, if opened then emit l3 EvClose else l3)
    else (Break, l2).

(** The [finally] clause: the response, if there is one, is closed. *)
Definition finally (opened : bool) (r : control * Locals) : control * Locals :=
  (fst r, if opened then emit (snd r) EvClose else snd r).

(** The body of [while attempt <= max_retries].  The request is taken
    as built: a settings field that holds no number makes the
    conversions before the [try] raise, which ends the whole run with
    that exception and gives no outcome (see [TurnSpec.run_result]). *)
Definition attempt_body (wall_start : Q) (it : iteration) (l : Locals)
    : control * Locals :=
  if top_cancel it then (Break, set_cancelled l)
  else
    match try_body wall_start it l with
    | TryBreak l' => finally true (Break, l')
    | TryContinue l' => finally true (Continue, l')
    | TryRaise exc opened l' => finally opened (handle_exception it opened exc l')
    end.

(** The retry loop over the iterations the environment offers:
    [Finished] when the loop has been left, [Running] when the script
    ends first. *)
Inductive run := Finished (l : Locals) | Running (l : Locals).

Fixpoint attempts (wall_start : Q) (script : list iteration) (l : Locals) : run :=
  if negb (attempt l <=? max_retries) then Finished l
  else
    match script with
    | [] => Running l
    | it :: rest =>
        match attempt_body wall_start it l with
        | (Continue, l') => attempts wall_start rest l'
        | (Break, l') => Finished l'
        end
    end.

(** The dictionary returned by [stream_completion_into]. *)
Record StreamOutcome := mkStreamOutcome {
  out_was_cancelled : bool;
  out_error : option Py.str;
  out_ttft : option Q;
  out_gen_seconds : Q;
  out_chars : Z;
  out_tokens : Z
}.

(** [x or y] for a clock reading that may be [None]. *)
Definition time_or (x : option Q) (y : Q) : Q :=
  match x with
  | Some t => if Qeq_bool t 0%Q then y else t
  | None => y
  end.

Definition gen_ms (start_time end_time : Q) (l : Locals) : Q :=
  Qmax 0 ((end_time - time_or (first_token_time l) start_time) * 1000)%Q.

Definition token_count (l : Locals) : Z :=
  if chars l =? 0 then 0
  else
    let cpt := if chars_per_token ctx =? 0 then 4 else chars_per_token ctx in
    Z.max 1 (Z.quot (chars l) cpt).

(** The statements after the retry loop. *)
Definition finish (start_time end_time : Q) (l : Locals)
    : StreamOutcome * Locals * State :=
  let tokens := token_count l in
  let state' :=
    {| strip_emoji_enabled := strip_emoji_enabled state;
       session_tokens := (session_tokens state + tokens)%Z;
       session_gen_time_ms := (session_gen_time_ms state + gen_ms start_time end_time l)%Q;
       tool_web_search_enabled := tool_web_search_enabled state;
       tool_fs_enabled := tool_fs_enabled state;
       tool_files_max_bytes := tool_files_max_bytes state;
       messages := messages state |} in
  let l' := flush_pending l in
  ({| out_was_cancelled := was_cancelled l;
      out_error :=
        match last_err l with
        | Some e => if was_cancelled l then None else Some (text e)
        | None => None
        end;
      out_ttft :=
        match first_token_time l with
        | Some t => if Qeq_bool t 0%Q then None else Some (t - start_time)%Q
        | None => None
        end;
      out_gen_seconds := (end_time - start_time)%Q;
      out_chars := chars l;
      out_tokens := tokens |}, l', state').

(** The three clock readings a run takes outside the loop. *)
Record clock := mkClock { start_time : Q; wall_start : Q; end_time : Q }.

(** [stream_completion_into(model_msg_)]: [None] when the script ends
    while the retry loop is still running. *)
Definition stream_completion_into (clk : clock) (script : list iteration)
    (model_msg_ : Message) : option (StreamOutcome * Locals * State) :=
  match attempts (wall_start clk) script (init_locals model_msg_) with
  | Finished l => Some (finish (start_time clk) (end_time clk) l)
  | Running _ => None
  end.

End Stream.

(* --------------------------------------------------------------------- *)
(** *** The tool dispatcher and the agent loop *)
(* --------------------------------------------------------------------- *)

(** The buttons of the write-conflict dialog. *)
Inductive Choice := ChooseCancel | ChooseBak | ChooseOverwrite.

(** The value [choose] stores for each button. *)
Definition choice_value (c : Choice) : Py.str :=
  match c with
  | ChooseCancel => "cancel"py
  | ChooseBak => "bak"py
  | ChooseOverwrite => "overwrite"py
  end.

(** A dialog shown by [_prompt_write_conflict]: the path, the note on
    what the model requested, and the seconds the worker waits. *)
Record prompt := mkPrompt {
  prompt_path : Py.str;
  prompt_note : Py.str;
  prompt_timeout : Z
}.

(** A call of [ctx.backend_tools.fs_write]. *)
Record write_call := mkWriteCall {
  wc_path : Py.str;
  wc_content : Py.str;
  wc_overwrite : bool
}.

(** What the dispatcher does to the outside, in program order: a
    backend write, or a conflict dialog together with what the wait for
    it returned ([None]: the wait ran into its timeout). *)
Inductive io_event :=
| IoWrite (c : write_call)
| IoPrompt (p : prompt) (answer : option Choice).

(** What the dispatcher acts on: the backend, the answers the user will
    give to the conflict dialogs in order ([None]: the wait runs into
    its timeout; so does a dialog that finds no answer left), and the
    ghost log of the writes issued and the dialogs shown. *)
Record World (W : Type) := mkWorld {
  backend : W;
  answers : list (option Choice);
  io : list io_event
}.
Arguments backend {W}.
Arguments answers {W}.
Arguments io {W}.

(** The backend writes of a log, in order. *)
Definition writes_of (evs : list io_event) : list write_call :=
  omap (fun e => match e with IoWrite c => Some c | IoPrompt _ _ => None end) evs.

(** The dialogs of a log, in order. *)
Definition prompts_of (evs : list io_event) : list prompt :=
  omap (fun e => match e with IoPrompt p _ => Some p | IoWrite _ => None end) evs.

Definition conflict_timeout_s : Z := 180.

Definition bak_attempts : nat := 50.

(** What the agent loop does, in program order.  [AgDispatch] is a
    ghost mark for entering the dispatch branch. *)
Inductive agent_event :=
| AgStreamError (err : Py.str)
| AgCancelled
| AgBudgetExceeded (notice : Py.str)
| AgDispatch (tc : ToolCall)
| AgMarkToolCall (status : Py.str)
| AgToolMessage (name md llm_content : Py.str) (show_in_chat : bool)
| AgToolError (name md : Py.str)
| AgNewAssistantMessage
| AgFinalize.

Definition budget_notice : Py.str :=
  "Tool budget exceeded for this message. Send a new message to continue."py.

Definition tool_budget_init : Z := 8.

Section Agent.

Context {W : Type}.
Variable ctx : ChatContext W.
Variable state : State.

(** [ctx.backend_tools.fs_write(path, content, overwrite=...)], logged. *)
Definition call_fs_write (w : World W) (path content : Py.str) (overwrite : bool)
    : result * World W :=
  let '(r, b) := fs_write (backend_tools ctx) (backend w) path content overwrite in
  (r, {| backend := b; answers := answers w;
         io := io w ++ [IoWrite (mkWriteCall path content overwrite)] |}).

Definition _prompt_write_conflict (overwrite_requested : bool) (rel_path : Py.str)
    (w : World W) : Py.str * World W :=
  let note :=
    if overwrite_requested then "The model requested overwrite=true."py
    else "The model requested overwrite=false."py in
  let decision := match answers w with a :: _ => a | [] => None end in
  (match decision with
   | Some c => py_or (choice_value c) ("cancel"py)
   | None => "cancel"py
   end,
   {| backend := backend w; answers := tl (answers w);
      io := io w ++ [IoPrompt (mkPrompt rel_path note conflict_timeout_s) decision] |}).

Definition is_conflict (msg : Py.str) : bool :=
  Py.contains ("overwrite=false"py) msg || Py.contains ("File exists"py) msg.

Definition bak_suffix (n : nat) : Py.str :=
  match n with
  | O => ".bak"py
  | _ => ".bak."py ++ Py.str_of_nat n
  end.

(** [for n in range(n, n + remaining)] of [_write_unique_bak]. *)
Fixpoint write_unique_bak_from (remaining n : nat) (rel_path content : Py.str)
    (w : World W) : result * World W :=
  match remaining with
  | O =>
      (inl (RuntimeError
              ("Unable to find an available .bak filename after 50 attempts."py)), w)
  | S remaining' =>
      let candidate := rel_path ++ bak_suffix n in
      match call_fs_write w candidate content false with
      | (inr out, w') => (inr out, w')
      | (inl exc, w') =>
          if is_conflict (text exc) then
            write_unique_bak_from remaining' (S n) rel_path content w'
          else (inl exc, w')
      end
  end.

Definition _write_unique_bak (rel_path content : Py.str) (w : World W)
    : result * World W :=
  write_unique_bak_from bak_attempts 0 rel_path content w.

Definition fs_disabled : exn :=
  RuntimeError ("Tool disabled: file tools (enable them in the Tools tab)."py).

(** The [fs_write] branch of the dispatcher. *)
Definition dispatch_fs_write (req_path req_content : Py.str) (overwrite_requested : bool)
    (w : World W) : result * World W :=
  if negb (tool_fs_enabled state) then (inl fs_disabled, w)
  else
    match call_fs_write w req_path req_content false with
    | (inr out, w1) => (inr out, w1)
    | (inl exc, w1) =>
        if negb (is_conflict (text exc)) then (inl exc, w1)
        else
          let '(choice, w2) := _prompt_write_conflict overwrite_requested req_path w1 in
          if bool_decide (choice = "overwrite"py) then
            call_fs_write w2 req_path req_content true
          else if bool_decide (choice = "bak"py) then
            _write_unique_bak req_path req_content w2
          else
            (inr ("## Write cancelled"py ++ [10%N] ++ "Did not write `"py
                    ++ req_path ++ "`."py,
                  "FILE WRITE CANCELLED: "py ++ req_path), w2)
    end.

Definition lift (w : World W) (r : result * W) : result * World W :=
  (fst r, {| backend := snd r; answers := answers w; io := io w |}).

(** The [try] block of the dispatcher: one backend operation per tool. *)
Definition dispatch (tc : ToolCall) (w : World W) : result * World W :=
  match tc with
  | WebSearch query count =>
      if negb (tool_web_search_enabled state) then
        (inl (RuntimeError
                ("Tool disabled: web_search (enable it in the Tools tab)."py)), w)
      else lift w (web_search (backend_tools ctx) (backend w) query count)
  | FsList path recursive limit =>
      if negb (tool_fs_enabled state) then (inl fs_disabled, w)
      else lift w (fs_list (backend_tools ctx) (backend w) path recursive limit)
  | FsSearch query path limit regex case_sensitive =>
      if negb (tool_fs_enabled state) then (inl fs_disabled, w)
      else lift w (fs_search (backend_tools ctx) (backend w)
                     query path limit regex case_sensitive)
  | FsRead path max_bytes =>
      if negb (tool_fs_enabled state) then (inl fs_disabled, w)
      else
        let cap0 :=
          match tool_files_max_bytes state with
          | Some n => if n =? 0 then 200000 else n
          | None => 200000
          end in
        let cap_bytes := Z.max 10000 (Z.min 10000000 cap0) in
        let requested := Z.max 1000 (Z.min cap_bytes max_bytes) in
        lift w (fs_read (backend_tools ctx) (backend w) path requested)
  | FsWrite path content overwrite => dispatch_fs_write path content overwrite w
  end.

Definition tool_status_text (tool_name : Py.str) : Py.str :=
  if bool_decide (tool_name = "web_search"py) then "Searching the web..."py
  else if bool_decide (tool_name = "fs_list"py) then "Listing files..."py
  else if bool_decide (tool_name = "fs_read"py) then "Reading file..."py
  else if bool_decide (tool_name = "fs_write"py) then "Writing file..."py
  else if bool_decide (tool_name = "fs_search"py) then "Searching files..."py
  else "Running tool..."py.

(** One call of [stream_completion_into(current_model_msg)] as the loop
    sees it: the statistics returned and the message as the run left it. *)
Record round := mkRound {
  stats : StreamOutcome;
  current_model_msg : Message
}.

Definition raw_out_of (m : Message) : Py.str :=
  Py.strip (py_or (or_empty (tool_call_raw m)) (content m)).

(** The events of one dispatched tool call, from the status mark to the
    fresh assistant message. *)
Definition tool_round (tc : ToolCall) (w : World W) : list agent_event * World W :=
  let tool_name := py_or (tc_tool tc) ("tool"py) in
  let '(r, w') := dispatch tc w in
  ([AgDispatch tc; AgMarkToolCall (tool_status_text tool_name)]
   ++ [match r with
       | inr (md, tool_ctx) =>
           AgToolMessage tool_name md (py_or tool_ctx md)
             (negb (bool_decide (tool_name = "fs_list"py)))
       | inl exc =>
           AgToolError tool_name ("## Tool error"py ++ [10%N] ++ text exc)
       end]
   ++ [AgNewAssistantMessage], w').

(** [while True] of [agent_worker]: [None] when the rounds run out
    while the loop is still going.  The rounds are stream runs that
    returned; a turn in which a stream run raises is the subject of
    [TurnSpec.agent_loop_exc]. *)
Fixpoint agent_loop (tool_budget : Z) (rounds : list round) (w : World W)
    : option (list agent_event * World W) :=
  match rounds with
  | [] => None
  | r :: rest =>
      if Py.truthy (or_empty (out_error (stats r))) then
        Some ([AgStreamError (or_empty (out_error (stats r)))], w)
      else if out_was_cancelled (stats r) then Some ([AgCancelled], w)
      else
        let raw_out := raw_out_of (current_model_msg r) in
        match parse_tool_call ctx raw_out with
        | Some tool_call =>
            if tool_budget <=? 0 then Some ([AgBudgetExceeded budget_notice], w)
            else
              let '(evs, w') := tool_round tool_call w in
              match agent_loop (tool_budget - 1) rest w' with
              | Some (evs', w'') => Some (evs ++ evs', w'')
              | None => None
              end
        | None => Some ([AgFinalize], w)
        end
  end.

Definition agent_worker (rounds : list round) (w : World W)
    : option (list agent_event * World W) :=
  agent_loop tool_budget_init rounds w.

End Agent.

(** The dispatched calls of a run, in order. *)
Definition dispatched (evs : list agent_event) : list ToolCall :=
  omap (fun e => match e with AgDispatch tc => Some tc | _ => None end) evs.

End ChatController.

(* ===================================================================== *)
(** ** Invariants of the stream consumer *)
(* ===================================================================== *)

Module StreamSpec.

Import UiPrompt Backend ChatController.

Section Spec.

Context {W : Type}.
Variable ctx : ChatContext W.
Variable state : State.

(** What holds of the locals throughout a run into the message [m0]:
    the character count is the length of what was read; the retry
    counter stays within its budget; a first-token time is recorded
    exactly when something was read; and, until a tool call is
    intercepted, the message together with the pending buffers holds
    everything read, in raw and in display form. *)
Definition Inv (m0 : Message) (l : Locals) : Prop :=
  chars l = Py.len (received l)
  /\ 0 <= attempt l <= max_retries
  /\ (first_token_time l = None <-> received l = [])
  /\ saw_tool_call l = tool_call_detected l
  /\ (tool_call_detected l = false ->
      content (msg l) ++ pending_raw l = content m0 ++ received l
      /\ or_empty (display_raw (msg l)) ++ pending_display l
         = or_empty (display_raw m0) ++ shown l)
  /\ (tool_call_detected l = true ->
      pending_raw l = [] /\ pending_display l = [] /\ was_cancelled l = false).

(** Neither cancelled nor interrupted by a tool call. *)
Definition Live (l : Locals) : Prop :=
  was_cancelled l = false /\ tool_call_detected l = false.

(** What a loop exit says about the state it leaves. *)
Definition exit_ok (ex : loop_exit) (l : Locals) : Prop :=
  match ex with
  | Exhausted | Raised _ => Live l
  | BreakCancelled => was_cancelled l = true /\ tool_call_detected l = false
  | BreakToolCall =>
      was_cancelled l = false /\ tool_call_detected l = true
      /\ pending_raw l = [] /\ pending_display l = []
  end.

(** What the [try] block guarantees about the state it leaves. *)
Definition try_ok (m0 : Message) (l : Locals) (r : try_exit) : Prop :=
  match r with
  | TryBreak l' => Inv m0 l' /\ attempt l' = attempt l /\ last_err l' = last_err l
  | TryContinue l' =>
      Inv m0 l' /\ Live l' /\ attempt l' = attempt l /\ last_err l' = last_err l
  | TryRaise _ _ l' =>
      Inv m0 l' /\ Live l' /\ attempt l' = attempt l /\ last_err l' = last_err l
  end.

(** What the exception handler guarantees. *)
Definition handled_ok (m0 : Message) (it : iteration) (exc : exn) (l : Locals)
    (r : control * Locals) : Prop :=
  match fst r with
  | Continue =>
      Inv m0 (snd r) /\ Live (snd r)
      /\ attempt (snd r) = attempt l + 1 /\ attempt l < max_retries
      /\ transient exc = true /\ handler_cancel it = false
  | Break =>
      Inv m0 (snd r) /\ attempt (snd r) = attempt l
      /\ (was_cancelled (snd r) = true <-> handler_cancel it = true)
  end.

(** The iteration [it], entered with locals [l], reads the cancellation
    flag as set: at the top of the loop, in the loading wait, on the
    arrival of a line that the read loop reaches, or in the exception
    handler. *)
Definition cancel_at (wall_start : Q) (it : iteration) (l : Locals) : Prop :=
  top_cancel it = true
  \/ (top_cancel it = false
      /\ ((exists wall_now, answer it = Loading true wall_now)
          \/ (exists lines1 ev lines2 fin la,
                answer it = Streaming (lines1 ++ ev :: lines2) fin
                /\ read_lines ctx state lines1 (posted ctx state l) = (Exhausted, la)
                /\ cancel_seen ev = true)
          \/ (exists exc opened l0,
                try_body ctx state wall_start it l = TryRaise exc opened l0
                /\ handler_cancel it = true))).

End Spec.

(** A backend that fails every call, for runs that dispatch nothing. *)
Definition no_tools : BackendTools unit :=
  {| web_search := fun w _ _ => (inl (RuntimeError []), w);
     fs_list := fun w _ _ _ => (inl (RuntimeError []), w);
     fs_read := fun w _ _ => (inl (RuntimeError []), w);
     fs_write := fun w _ _ _ => (inl (RuntimeError []), w);
     fs_search := fun w _ _ _ _ _ => (inl (RuntimeError []), w) |}.

Definition demo_context : ChatContext unit :=
  app_context ["SYSTEM: You are Assistant."py] no_tools.

Definition demo_state : State :=
  {| strip_emoji_enabled := false; session_tokens := 0; session_gen_time_ms := 0%Q;
     tool_web_search_enabled := true; tool_fs_enabled := true;
     tool_files_max_bytes := None;
     messages :=
       [mkMessage RUser ("Say hello"py) None None None None [] ("10:00"py) None] |}.

(** A message as [add_message("model", "")] creates it. *)
Definition fresh_model_msg : Message :=
  mkMessage RModel [] (Some []) (Some []) None None [] ("10:00"py) None.

Definition chunk (c : Py.str) (t : Q) : line_ev := mkLine false (LChunk c) t t.

(** The transport breaks after [Hello, wo]; the second request delivers
    the rest. *)
Definition reconnect_script : list iteration :=
  [ mkIteration false
      (Streaming [chunk ("Hello, "py) 11; chunk ("wo"py) 12]
         (ReadError (mkExn true ("Connection broken"py)))) false;
    mkIteration false (Streaming [chunk ("rld"py) 13] EndOfStream) false ].

(** A chunk is buffered, then a line arrives with the flag set. *)
Definition cancelled_iteration : iteration :=
  mkIteration false
    (Streaming [chunk ("Hel"py) 11; mkLine true (LChunk ("lo"py)) 12 12] EndOfStream)
    false.

(** A chunk that is a whole tool call. *)
Definition call_chunk : Py.str :=
  "{'tool':'fs_list','args':{'path':'.'}}"js.

(** The run starts at 10, the first token arrives at 12 and the run
    ends at 15. *)
Definition late_token_script : list iteration :=
  [ mkIteration false (Streaming [chunk ("Hi"py) 12] EndOfStream) false ].

End StreamSpec.

(* ===================================================================== *)
(** ** Vocabulary of the agent loop and the dispatcher *)
(* ===================================================================== *)

Module AgentSpec.

Import UiPrompt Backend ChatController.

(** The round [r] asks for the tool call [tc]: its stream run ended
    without error or cancellation and what it wrote parses as [tc]. *)
Definition requests {W} (ctx : ChatContext W) (r : round) (tc : ToolCall) : Prop :=
  Py.truthy (or_empty (out_error (stats r))) = false
  /\ out_was_cancelled (stats r) = false
  /\ parse_tool_call ctx (raw_out_of (current_model_msg r)) = Some tc.

(** The answer the next conflict dialog will get. *)
Definition first_answer {W} (w : World W) : option Choice :=
  match answers w with a :: _ => a | [] => None end.

(** The backup write number [i] for [rel_path]. *)
Definition bak_call (rel_path content : Py.str) (i : nat) : io_event :=
  IoWrite (mkWriteCall (rel_path ++ bak_suffix i) content false).

(** The note of the conflict dialog. *)
Definition conflict_note (overwrite_requested : bool) : Py.str :=
  if overwrite_requested then "The model requested overwrite=true."py
  else "The model requested overwrite=false."py.

(** The conflict dialog for [path]. *)
Definition conflict_prompt (ow : bool) (path : Py.str) : prompt :=
  mkPrompt path (conflict_note ow) conflict_timeout_s.

(** The world after the conflict dialog for [path]: the first pending
    answer is used up and the dialog is logged with what it returned. *)
Definition after_prompt {W} (ow : bool) (path : Py.str) (w : World W) : World W :=
  {| backend := backend w; answers := tl (answers w);
     io := io w ++ [IoPrompt (conflict_prompt ow path) (first_answer w)] |}.

(** The world after the backend write [c] that left the backend in [b]. *)
Definition after_write {W} (w : World W) (b : W) (c : write_call) : World W :=
  {| backend := b; answers := answers w; io := io w ++ [IoWrite c] |}.

(** What the dispatcher returns when the write is cancelled. *)
Definition cancelled_output (req_path : Py.str) : tool_output :=
  ("## Write cancelled"py ++ [10%N] ++ "Did not write `"py ++ req_path ++ "`."py,
   "FILE WRITE CANCELLED: "py ++ req_path).

(** The events a dispatched [fs_write] for [path] may add to the log
    when the next dialog would be answered by [answer]: nothing with
    the file tools switched off; else a first write that does not
    overwrite, followed in case of a conflict by the dialog and by what
    its answer asks for. *)
Inductive write_log (path content : Py.str) (ow : bool) (answer : option Choice)
    : list io_event -> Prop :=
| LogDisabled : write_log path content ow answer []
| LogDirect :
    write_log path content ow answer [IoWrite (mkWriteCall path content false)]
| LogCancel :
    answer = None \/ answer = Some ChooseCancel ->
    write_log path content ow answer
      [IoWrite (mkWriteCall path content false);
       IoPrompt (conflict_prompt ow path) answer]
| LogBak k :
    answer = Some ChooseBak -> (k <= bak_attempts)%nat ->
    write_log path content ow answer
      (IoWrite (mkWriteCall path content false)
       :: IoPrompt (conflict_prompt ow path) answer
       :: map (bak_call path content) (seq 0 k))
| LogOverwrite :
    answer = Some ChooseOverwrite ->
    write_log path content ow answer
      [IoWrite (mkWriteCall path content false);
       IoPrompt (conflict_prompt ow path) answer;
       IoWrite (mkWriteCall path content true)].

(** What the client raises for the refusal of [/files/write]. *)
Definition exists_error : exn := RuntimeError ("File exists and overwrite=false"py).

(** What the backup scan raises when it runs out of attempts. *)
Definition exhausted_error : exn :=
  RuntimeError ("Unable to find an available .bak filename after 50 attempts."py).

(** The backup name number [i] is taken: it resolves to a file. *)
Definition taken (safe_join : Py.str -> http_error + Py.str) (fs : store)
    (rel_path : Py.str) (i : nat) : Prop :=
  exists key old, safe_join (rel_path ++ bak_suffix i) = inr key
                  /\ fs !! key = Some (File old).

(** A path resolution that accepts every path as it is. *)
Definition plain_join (p : Py.str) : http_error + Py.str := inr p.

(** A backend whose file tool is [/files/write]; the other tools are
    switched off. *)
Definition files_tools (safe_join : Py.str -> http_error + Py.str) (elapsed_ms : nat)
    : BackendTools store :=
  {| web_search := fun w _ _ => (inl (RuntimeError ("Web search unavailable."py)), w);
     fs_list := fun w _ _ _ => (inl (RuntimeError ("File listing failed"py)), w);
     fs_read := fun w _ _ => (inl (RuntimeError ("File read failed"py)), w);
     fs_write := client_fs_write safe_join elapsed_ms;
     fs_search := fun w _ _ _ _ _ => (inl (RuntimeError ("File search failed"py)), w) |}.

Definition files_context : ChatContext store :=
  app_context ["SYSTEM: You are Assistant."py] (files_tools plain_join 3).

Definition files_state : State :=
  {| strip_emoji_enabled := false; session_tokens := 0; session_gen_time_ms := 0%Q;
     tool_web_search_enabled := true; tool_fs_enabled := true;
     tool_files_max_bytes := None; messages := [] |}.

(** A store in which [todo.txt] and its first two backup names exist. *)
Definition demo_store : store :=
  <["todo.txt"py := File ("old"py)]>
    (<["todo.txt.bak"py := File ("b0"py)]>
       (<["todo.txt.bak.1"py := File ("b1"py)]> ∅)).

Definition demo_world (ans : list (option Choice)) : World store :=
  {| backend := demo_store; answers := ans; io := [] |}.

(** A round whose stream run wrote the given tool call. *)
Definition tool_round_of (json : Py.str) : round :=
  {| stats := mkStreamOutcome false None None 1 (Py.len json) 1;
     current_model_msg :=
       mkMessage RModel json (Some json) (Some json) None None json ("10:00"py) None |}.

Definition list_call : Py.str := "{'tool':'fs_list','args':{'path':'.'}}"js.

(** Nine rounds in a row that ask for a tool call. *)
Definition nine_requests : list round := repeat (tool_round_of list_call) 9.

(** A write call that does not say whether to overwrite. *)
Definition write_call_text : Py.str :=
  "{'tool':'fs_write','args':{'path':'todo.txt','content':'new'}}"js.

End AgentSpec.

(* ===================================================================== *)
(** ** Vocabulary of the statements *)
(* ===================================================================== *)

Module Grammar.
Import UiText.

(** [sub] occurs in [s]. *)
Definition occurs (sub s : Py.str) : Prop := exists a b, s = a ++ sub ++ b.

(** The text of a JSON object as the brace scanner reads it: characters
    outside strings, string literals made of plain characters and
    escape pairs, and nested braces. *)

Inductive sitem :=
| SPlain (c : N)
| SEsc (c : N).

Inductive toks :=
| TEnd
| TChar (c : N) (rest : toks)
| TStr (body : list sitem) (rest : toks)
| TObj (inner rest : toks).

Definition render_item (i : sitem) : Py.str :=
  match i with
  | SPlain c => [c]
  | SEsc c => [backslash; c]
  end.

Definition render_body (b : list sitem) : Py.str := flat_map render_item b.

Fixpoint render (t : toks) : Py.str :=
  match t with
  | TEnd => []
  | TChar c r => c :: render r
  | TStr b r => quote :: render_body b ++ quote :: render r
  | TObj i r => lbrace :: render i ++ rbrace :: render r
  end.

Definition item_ok (i : sitem) : bool :=
  match i with
  | SPlain c => negb (N.eqb c quote) && negb (N.eqb c backslash)
  | SEsc _ => true
  end.

Fixpoint toks_ok (t : toks) : bool :=
  match t with
  | TEnd => true
  | TChar c r =>
      negb (N.eqb c quote) && negb (N.eqb c lbrace) && negb (N.eqb c rbrace)
      && toks_ok r
  | TStr b r => forallb item_ok b && toks_ok r
  | TObj i r => toks_ok i && toks_ok r
  end.

Definition object_text (t : toks) : Py.str := lbrace :: render t ++ [rbrace].

Definition backtick : N := 96.

(** A line of a fenced block: no line boundary in it. *)
Definition line_ok (ln : Py.str) : bool :=
  forallb (fun c => negb (Py.is_linebreak c)) ln.

(** No character of [a] is a line boundary. *)
Definition no_lb (a : Py.str) : Prop := forall c, In c a -> Py.is_linebreak c = false.

(** The tag after the opening fence. *)
Definition tagrest (tagged : bool) : Py.str := if tagged then "json"py else [].

(** The opening fence, with or without the [json] tag. *)
Definition opening (tagged : bool) : Py.str := if tagged then fence_json else fence.

(** A fenced block around [body]: the opening fence line, the body on
    lines of its own, the closing fence on the next line. *)
Definition fenced_block (tagged : bool) (body : Py.str) : Py.str :=
  opening tagged ++ [LF] ++ body ++ [LF] ++ fence.

(** The repair of one string item, in the words of the specification:
    a carriage return or a line feed becomes the escape [\n]; an escape
    pair is kept whatever its second character is. *)
Definition repair_item (i : sitem) : sitem :=
  match i with
  | SPlain c => if N.eqb c CR || N.eqb c LF then SEsc 110 else SPlain c
  | SEsc c => SEsc c
  end.

Fixpoint repair (t : toks) : toks :=
  match t with
  | TEnd => TEnd
  | TChar c r => TChar c (repair r)
  | TStr b r => TStr (map repair_item b) (repair r)
  | TObj i r => TObj (repair i) (repair r)
  end.

(** The bound nearest to [n]. *)
Definition nearest (lo hi n : Z) : Z :=
  if n <? lo then lo else if hi <? n then hi else n.

(** A bounded numeric argument: the default when it is absent or when
    [int()] rejects it, the nearest bound otherwise. *)
Definition bounded_arg (lo hi default : Z) (x : option Json.value) : Z :=
  match x with
  | None => default
  | Some v =>
      match Json.py_int v with
      | Some n => nearest lo hi n
      | None => default
      end
  end.

(** The content of an [fs_write] call: a string, a list of strings
    joined with line feeds or, when [content] is absent or null, the
    list of strings [content_lines] joined in the same way. *)
Definition write_content (content content_lines : Json.value) : option Py.str :=
  match content with
  | Json.JStr s => Some s
  | Json.JList l => option_map (Py.join [LF]) (all_str l)
  | Json.JNull =>
      match content_lines with
      | Json.JList l => option_map (Py.join [LF]) (all_str l)
      | _ => None
      end
  | _ => None
  end.

(** The validation of section 4.2, step 4, with [content_lines]. *)
Definition validate (tool : Json.value) (args : list (Py.str * Json.value))
    : option ToolCall :=
  let arg k := Json.dict_get_none k args in
  let flag k d := Json.py_bool (Json.dict_get_default k args (Json.JBool d)) in
  if str_eq tool ("web_search"py) then
    match nonblank_str (arg ("query"py)) with
    | Some q =>
        Some (WebSearch (Py.strip q)
                (bounded_arg 1 10 5 (Json.dict_get ("count"py) args)))
    | None => None
    end
  else if str_eq tool ("fs_list"py) then
    Some (FsList (Py.strip (path_or_dot (arg ("path"py))))
            (flag ("recursive"py) false)
            (bounded_arg 1 1000 200 (Json.dict_get ("limit"py) args)))
  else if str_eq tool ("fs_read"py) then
    match nonblank_str (arg ("path"py)) with
    | Some p =>
        Some (FsRead (Py.strip p)
                (bounded_arg 1 5000000 200000 (Json.dict_get ("max_bytes"py) args)))
    | None => None
    end
  else if str_eq tool ("fs_write"py) then
    match nonblank_str (arg ("path"py)),
          write_content (arg ("content"py)) (arg ("content_lines"py)) with
    | Some p, Some c => Some (FsWrite (Py.strip p) c (flag ("overwrite"py) true))
    | _, _ => None
    end
  else if str_eq tool ("fs_search"py) then
    match nonblank_str (arg ("query"py)) with
    | Some q =>
        Some (FsSearch (Py.strip q) (Py.strip (path_or_dot (arg ("path"py))))
                (bounded_arg 1 500 50 (Json.dict_get ("limit"py) args))
                (flag ("regex"py) false) (flag ("case_sensitive"py) false))
    | None => None
    end
  else None.

(** *** Sample texts *)

(** The scenario of the specification: a call in the middle of a
    sentence. *)
Definition scenario_text : Py.str :=
  "I will search now: {'tool':'web_search','args':{'query':'rust vs go','count':3}} and then report."js.

(** A string literal that holds both braces, between two sentences. *)
Definition braces_in_string_toks : toks :=
  TStr [SPlain 107] (TChar 58 (TStr [SPlain 125; SEsc 34; SPlain 123] TEnd)).

(** The tokens of [{"k":"a`b"}]: a backtick inside a string. *)
Definition backtick_in_string_toks : toks :=
  TStr [SPlain 107] (TChar 58 (TStr [SPlain 97; SPlain 96; SPlain 98] TEnd)).

(** A read call whose [max_bytes] is below its bounds. *)
Definition read_call_value : list (Py.str * Json.value) :=
  [("tool"py, Json.JStr ("fs_read"py));
   ("args"py, Json.JDict [("path"py, Json.JStr (" notes.txt "py)); ("max_bytes"py, Json.JInt 0)])].

(** A write call whose content holds a raw line feed. *)
Definition raw_newline_call : Py.str :=
  "{'tool':'fs_write','args':{'path':'notes.txt','content':'line one"js
  ++ [LF] ++ "line two'}}"js.

(** A literal with a line feed, a carriage return and an escaped quote,
    followed by a line feed outside any literal. *)
Definition newline_literal_toks : toks :=
  TStr [SPlain 97; SPlain LF; SPlain CR; SEsc 34; SPlain 98] (TChar LF TEnd).

(** A write call whose content has a line feed right after a
    backslash. *)
Definition backslash_newline_toks : toks :=
  TStr (map SPlain ("tool"py))
    (TChar 58 (TStr (map SPlain ("fs_write"py))
    (TChar 44 (TStr (map SPlain ("args"py))
    (TChar 58 (TObj
       (TStr (map SPlain ("path"py))
       (TChar 58 (TStr (map SPlain ("a.txt"py))
       (TChar 44 (TStr (map SPlain ("content"py))
       (TChar 58 (TStr [SPlain 120; SEsc LF; SPlain 121] TEnd)))))))
       TEnd)))))).

End Grammar.
(* ===================================================================== *)
(** ** Vocabulary for further properties of [src/ui/ui_text.py] *)
(* ===================================================================== *)

Module TextSpec.
Import UiText.

(** The code points [strip_emoji] drops: the zero-width joiner, the
    variation selector 16, the enclosing keycap, and the five ranges of
    pictographs and symbols. *)
Definition dropped (ch : N) : bool :=
  N.eqb ch 8205 || N.eqb ch 65039 || N.eqb ch 8419 || is_emoji ch.

(** What the dispatcher may rely on in a parsed call: numeric arguments
    within their bounds, paths and queries stripped and not empty. *)
Definition trimmed (s : Py.str) : Prop := Py.strip s = s /\ s <> [].

Definition call_ok (tc : ToolCall) : Prop :=
  match tc with
  | WebSearch query count => trimmed query /\ 1 <= count <= 10
  | FsList path _ limit => trimmed path /\ 1 <= limit <= 1000
  | FsRead path max_bytes => trimmed path /\ 1 <= max_bytes <= 5000000
  | FsWrite path _ _ => trimmed path
  | FsSearch query path limit _ _ =>
      trimmed query /\ trimmed path /\ 1 <= limit <= 500
  end.

(** A sentence between two emoji, with a joiner sequence in it. *)
Definition emoji_text : Py.str :=
  [128512%N] ++ "ok "py ++ [128104; 8205; 128187]%N ++ " done"py ++ [9989%N].

End TextSpec.

(* ===================================================================== *)
(** ** [src/ui/ui_markdown.py]: splitting Markdown at code fences *)
(* ===================================================================== *)

Module MarkdownFences.
Import UiText.

(** A segment: [("md", "", text)] or [("code", lang, text)]. *)
Inductive segment :=
| Md (text : Py.str)
| Code (lang text : Py.str).

(** [flush_md]: the buffered lines become a segment unless they are
    blank; the buffer is emptied either way. *)
Definition flush_md (md_buf : list Py.str) (segments : list segment) : list segment :=
  match md_buf with
  | [] => segments
  | _ =>
      let text := Py.join [LF] md_buf in
      if Py.truthy (Py.strip text) then segments ++ [Md text] else segments
  end.

(** [flush_code]. *)
Definition flush_code (code_buf : list Py.str) (code_lang : Py.str)
    (segments : list segment) : list segment :=
  segments ++ [Code code_lang (Py.join [LF] code_buf)].

(** A line that opens or closes a fence. *)
Definition is_fence_line (ln : Py.str) : bool := Py.startswith fence (Py.strip ln).

(** [for ln in lines] and the statements after the loop. *)
Fixpoint split_loop (lines md_buf code_buf : list Py.str) (in_code : bool)
    (code_lang : Py.str) (segments : list segment) : list segment :=
  match lines with
  | ln :: rest =>
      let s := Py.strip ln in
      if Py.startswith fence s then
        if negb in_code then
          split_loop rest [] code_buf true (Py.strip (Py.slice_from s 3))
            (flush_md md_buf segments)
        else
          split_loop rest md_buf [] false [] (flush_code code_buf code_lang segments)
      else if in_code then
        split_loop rest md_buf (code_buf ++ [ln]) in_code code_lang segments
      else
        split_loop rest (md_buf ++ [ln]) code_buf in_code code_lang segments
  | [] =>
      let md_buf' :=
        if in_code then
          (md_buf ++ [if Py.truthy code_lang then fence ++ code_lang else fence])
          ++ code_buf
        else md_buf in
      flush_md md_buf' segments
  end.

Definition split_markdown_fences (md_text : Py.str) : list segment :=
  split_loop (Py.splitlines md_text) [] [] false [] [].

Definition is_code (sg : segment) : bool :=
  match sg with Code _ _ => true | Md _ => false end.

(** The number of fence lines. *)
Definition fence_lines (lines : list Py.str) : nat :=
  length (List.filter is_fence_line lines).

(** The number of code segments. *)
Definition code_count (segs : list segment) : nat :=
  length (List.filter is_code segs).

(** A Markdown segment is not blank. *)
Definition md_ok (sg : segment) : Prop :=
  match sg with Md text => Py.truthy (Py.strip text) = true | Code _ _ => True end.

End MarkdownFences.

(* ===================================================================== *)
(** ** Vocabulary for [strip_prompt_echo] *)
(* ===================================================================== *)

Module EchoSpec.
Import UiMarkdown.

(** The line starts, after stripping, with a marker of the prompt
    scaffolding. *)
Definition marker_line (ln : Py.str) : bool :=
  existsb (fun m => Py.startswith m (Py.strip ln)) markers.

(** The line is blank. *)
Definition blank_line (ln : Py.str) : bool := negb (Py.truthy (Py.strip ln)).

(** An answer that echoes a scaffolding line in its second line. *)
Definition echoed_answer : Py.str :=
  "Hello"py ++ [10%N] ++ "SYSTEM: You are Assistant."py ++ [10%N]
  ++ "TOOL[fs_read]: secret"py ++ [10%N] ++ [10%N] ++ "Bye"py.

End EchoSpec.

(* ===================================================================== *)
(** ** Vocabulary for further properties of the stream consumer *)
(* ===================================================================== *)

Module RunSpec.
Import UiPrompt Backend ChatController StreamSpec.

(** The message is one that [format_prompt] skips. *)
Definition is_tool_call (m : Message) : bool :=
  match role m with RToolCall => true | _ => false end.

(** A line that the read loop passes over: no cancellation seen, and
    the line is empty, lacks the [data: ] prefix or carries an empty
    content. *)
Definition idle_line (ev : line_ev) : bool :=
  negb (cancel_seen ev)
  && match payload ev with
     | LEmpty | LNotData => true
     | LChunk c => negb (Py.truthy c)
     | LBadJson => false
     end.

(** Events of the read loop and of the flushes. *)
Definition quiet (e : event) : bool :=
  match e with
  | EvFlushTail _ | EvMarkToolCallEarly _ | EvClose => true
  | EvSnack _ | EvPost _ _ | EvSleep => false
  end.

Definition is_post (e : event) : bool :=
  match e with EvPost _ _ => true | _ => false end.

Definition is_sleep (e : event) : bool :=
  match e with EvSleep => true | _ => false end.

Definition loading_notice : Py.str := "Model is loading... waiting."py.

Definition is_loading_notice (e : event) : bool :=
  match e with EvSnack s => bool_decide (s = loading_notice) | _ => false end.

(** How often events of one kind occur in a log. *)
Definition count_ev (p : event -> bool) (lg : list event) : Z :=
  Z.of_nat (length (List.filter p lg)).

(** A step that neither posts, sleeps, notifies nor counts a retry. *)
Definition quiet_step (l l' : Locals) : Prop :=
  attempt l' = attempt l
  /\ loading_notified l' = loading_notified l
  /\ exists more, log l' = log l ++ more /\ forallb quiet more = true.

(** What a run counts: requests, sleeps of the loading wait, loading
    notices. *)
Definition posts (l : Locals) : Z := count_ev is_post (log l).
Definition sleeps (l : Locals) : Z := count_ev is_sleep (log l).
Definition notices (l : Locals) : Z := count_ev is_loading_notice (log l).

(** The loading notice has been shown exactly when the flag says so. *)
Definition notified_once (l : Locals) : Prop :=
  notices l = if loading_notified l then 1 else 0.

(** The counts of a run so far: as many requests as retries and sleeps. *)
Definition balanced (l : Locals) : Prop :=
  posts l = attempt l + sleeps l /\ notified_once l.

Section Evolution.

Context {W : Type}.
Variable ctx : ChatContext W.
Variable state : State.

(** The display form of a chunk. *)
Definition display_chunk (c : Py.str) : Py.str :=
  if strip_emoji_enabled state then strip_emoji ctx c else c.

(** How the retry counter, the last error and the text read can change
    in the course of a run: a non-empty chunk is read, or an exception
    is caught, with or without counting a retry. *)
Inductive evolves (l : Locals) : Locals -> Prop :=
| EvolveSame l' :
    attempt l' = attempt l -> last_err l' = last_err l ->
    received l' = received l -> shown l' = shown l ->
    evolves l l'
| EvolveChunk l1 c l' :
    evolves l l1 -> Py.truthy c = true ->
    attempt l' = attempt l1 -> last_err l' = last_err l1 ->
    received l' = received l1 ++ c -> shown l' = shown l1 ++ display_chunk c ->
    evolves l l'
| EvolveCaught l1 exc l' :
    evolves l l1 ->
    last_err l' = Some exc ->
    attempt l' = attempt l1 \/ attempt l' = attempt l1 + 1 ->
    received l' = received l1 -> shown l' = shown l1 ->
    evolves l l'.

End Evolution.

(** A stream that only sends heartbeats. *)
Definition heartbeat_lines : list line_ev :=
  [ mkLine false LEmpty 11 11; mkLine false LNotData 12 12;
    mkLine false (LChunk []) 13 13 ].

(** The server answers with an error status. *)
Definition http_error_script : list iteration :=
  [ mkIteration false (HttpError 500 ("boom"py)) false ].

(** Three transport failures in a row. *)
Definition failing_script : list iteration :=
  let broken := mkIteration false (ConnectError (mkExn true ("refused"py))) false in
  [broken; broken; broken].

(** The model is loading twice, then answers. *)
Definition loading_script : list iteration :=
  [ mkIteration false (Loading false 1001) false;
    mkIteration false (Loading false 1002) false;
    mkIteration false (Streaming [chunk ("Hi"py) 12] EndOfStream) false ].

(** A state with emoji stripping switched on. *)
Definition plain_display_state : State :=
  {| strip_emoji_enabled := true; session_tokens := 0; session_gen_time_ms := 0%Q;
     tool_web_search_enabled := true; tool_fs_enabled := true;
     tool_files_max_bytes := None; messages := [] |}.

End RunSpec.

(* ===================================================================== *)
(** ** Vocabulary for the turns of the agent loop *)
(* ===================================================================== *)

Module TurnSpec.

Import UiText UiPrompt Backend ChatController AgentSpec.

(** The events after which [agent_worker] leaves its loop. *)
Definition terminal (e : agent_event) : bool :=
  match e with
  | AgStreamError _ | AgCancelled | AgBudgetExceeded _ | AgFinalize => true
  | _ => false
  end.

(** The tool message or the tool error added for the tool [name]. *)
Definition is_answer_for (name : Py.str) (e : agent_event) : bool :=
  match e with
  | AgToolMessage n _ _ _ | AgToolError n _ => bool_decide (n = name)
  | _ => false
  end.

Definition is_tool_message (e : agent_event) : bool :=
  match e with AgToolMessage _ _ _ _ => true | _ => false end.

(** The events of a turn: for each dispatched call the status mark, one
    answer and a fresh assistant message; then one terminal event. *)
Inductive turn : list agent_event -> Prop :=
| TurnEnd e : terminal e = true -> turn [e]
| TurnRound tc res rest :
    is_answer_for (tc_tool tc) res = true ->
    turn rest ->
    turn (AgDispatch tc :: AgMarkToolCall (tool_status_text (tc_tool tc))
          :: res :: AgNewAssistantMessage :: rest).

(** A sequence of complete tool rounds. *)
Inductive tool_rounds : list agent_event -> Prop :=
| RoundsNil : tool_rounds []
| RoundsCons tc res rest :
    is_answer_for (tc_tool tc) res = true ->
    tool_rounds rest ->
    tool_rounds (AgDispatch tc :: AgMarkToolCall (tool_status_text (tc_tool tc))
                 :: res :: AgNewAssistantMessage :: rest).

(** What a call of [stream_completion_into] gives the loop: the
    statistics it returns, or the exception it raises. *)
Inductive run_result := RunReturned (r : round) | RunRaised (exc : exn).

(** How [agent_worker] leaves its [try] block: by a [break] of the
    loop, or by an exception, which [fail] shows in a notice. *)
Inductive turn_end := LoopLeft | Failed (notice : Py.str).

(** The notice of [fail]. *)
Definition fail_notice (exc : exn) : Py.str := "Error: "py ++ text exc.

(** [agent_worker] with its handler [except Exception]: the loop of
    [agent_loop] over stream runs that may raise.  Calls into the UI
    are taken not to raise. *)
Fixpoint agent_loop_exc {W} (ctx : ChatContext W) (state : State) (tool_budget : Z)
    (runs : list run_result) (w : World W)
    : option (list agent_event * turn_end * World W) :=
  match runs with
  | [] => None
  | RunRaised exc :: _ => Some ([], Failed (fail_notice exc), w)
  | RunReturned r :: rest =>
      if Py.truthy (or_empty (out_error (stats r))) then
        Some ([AgStreamError (or_empty (out_error (stats r)))], LoopLeft, w)
      else if out_was_cancelled (stats r) then Some ([AgCancelled], LoopLeft, w)
      else
        let raw_out := raw_out_of (current_model_msg r) in
        match parse_tool_call ctx raw_out with
        | Some tool_call =>
            if tool_budget <=? 0 then
              Some ([AgBudgetExceeded budget_notice], LoopLeft, w)
            else
              let '(evs, w') := tool_round ctx state tool_call w in
              match agent_loop_exc ctx state (tool_budget - 1) rest w' with
              | Some (evs', e, w'') => Some (evs ++ evs', e, w'')
              | None => None
              end
        | None => Some ([AgFinalize], LoopLeft, w)
        end
  end.

Definition agent_worker_exc {W} (ctx : ChatContext W) (state : State)
    (runs : list run_result) (w : World W)
    : option (list agent_event * turn_end * World W) :=
  agent_loop_exc ctx state tool_budget_init runs w.

(** What [float] raises for a Max Tokens field that holds no number. *)
Definition field_error : exn :=
  mkExn false ("could not convert string to float: 'many'"py).

(** Both tool switches of the Tools tab are off. *)
Definition tools_off (state : State) : Prop :=
  tool_web_search_enabled state = false /\ tool_fs_enabled state = false.

(** A state with both tool switches off. *)
Definition tools_off_state : State :=
  {| strip_emoji_enabled := false; session_tokens := 0; session_gen_time_ms := 0%Q;
     tool_web_search_enabled := false; tool_fs_enabled := false;
     tool_files_max_bytes := None; messages := [] |}.

(** A round whose stream run wrote plain text. *)
Definition final_round : round := tool_round_of ("Done."py).

End TurnSpec.

(* ===================================================================== *)
(** * Facts about the parser *)
(* ===================================================================== *)

Module JsonFacts.
Import Json.
#[local] Arguments N.eqb : simpl never.

Lemma skip_ws_length s : (length (skip_ws s) <= length s)%nat.
Proof.
  induction s as [|c s IH]; simpl; [lia|].
  destruct (is_ws c); simpl; lia.
Qed.

Lemma strip_prefix_length p : forall s r,
  strip_prefix p s = Some r -> (length r <= length s)%nat.
Proof.
  induction p as [|a p IH]; intros s r H; simpl in H.
  - injection H as <-. lia.
  - destruct s as [|b s]; [discriminate|].
    destruct (N.eqb a b); [|discriminate].
    apply IH in H. simpl. lia.
Qed.

Lemma take_digits_length s : forall acc ds r,
  take_digits s acc = (ds, r) -> (length r <= length s)%nat.
Proof.
  induction s as [|c s IH]; intros acc ds r H; simpl in H.
  - injection H as _ <-. simpl. lia.
  - destruct (Py.is_digit c).
    + apply IH in H. simpl. lia.
    + injection H as _ <-. lia.
Qed.

(** The scanner of string bodies only moves forward. *)
Lemma scanstring_length n : forall s acc k r,
  (length s <= n)%nat ->
  scanstring s acc = Some (k, r) -> (length r <= length s)%nat.
Proof.
  induction n as [|n IH]; intros s acc k r Hn H.
  - destruct s; [discriminate H|simpl in Hn; lia].
  - destruct s as [|c s]; [discriminate H|]. simpl in H. simpl in Hn.
    destruct (N.eqb c 34); [injection H as _ <-; simpl; lia|].
    destruct (N.eqb c 92).
    + destruct s as [|e r1]; [discriminate H|]. simpl in Hn.
      destruct (N.eqb e 117).
      * destruct r1 as [|h1 [|h2 [|h3 [|h4 r2]]]]; try discriminate H.
        simpl in Hn.
        destruct (hex4 h1 h2 h3 h4) as [uni|]; [|discriminate H].
        assert (Hsingle : forall x, scanstring r2 x = Some (k, r) ->
                            (length r <= length r2)%nat).
        { intros x Hx. apply (IH r2 x k r); [lia|exact Hx]. }
        destruct ((55296 <=? uni)%N && (uni <=? 56319)%N).
        -- destruct r2 as [|b [|u [|g1 [|g2 [|g3 [|g4 r3]]]]]];
             try (apply Hsingle in H; simpl in *; lia).
           destruct (N.eqb b 92 && N.eqb u 117);
             [|apply Hsingle in H; simpl in *; lia].
           destruct (hex4 g1 g2 g3 g4) as [lo|]; [|discriminate H].
           destruct ((56320 <=? lo)%N && (lo <=? 57343)%N);
             [|apply Hsingle in H; simpl in *; lia].
           apply IH in H; simpl in *; lia.
        -- apply Hsingle in H. simpl in *. lia.
      * destruct (simple_escape e); [|discriminate H].
        apply IH in H; simpl in *; lia.
    + destruct (c <? 32)%N; [discriminate H|].
      apply IH in H; simpl in *; lia.
Qed.

Lemma scan_number_length s v r :
  scan_number s = Some (v, r) -> (length r <= length s)%nat.
Proof.
  unfold scan_number. intros H.
  set (p := match s with
            | c :: r0 => if N.eqb c 45 then (true, r0) else (false, s)
            | [] => (false, s)
            end) in H.
  assert (Hp : (length (snd p) <= length s)%nat).
  { unfold p. destruct s as [|c r0]; simpl; [lia|].
    destruct (N.eqb c 45); simpl; lia. }
  destruct p as [neg s1]. simpl in Hp.
  destruct s1 as [|d r0]; [discriminate H|].
  destruct (Py.is_digit d); [|discriminate H].
  set (q := if N.eqb d 48 then ([d], r0) else take_digits (d :: r0) []) in H.
  assert (Hq : (length (snd q) <= length (d :: r0))%nat).
  { unfold q. destruct (N.eqb d 48); [simpl; lia|].
    destruct (take_digits (d :: r0) []) as [a b] eqn:E.
    apply take_digits_length in E. exact E. }
  destruct q as [ip s2]. simpl in Hq.
  set (f := match s2 with
            | dot :: r2 =>
                if N.eqb dot 46 then
                  match take_digits r2 [] with
                  | ([], _) => (None, s2)
                  | (ds, r3) => (Some ds, r3)
                  end
                else (None, s2)
            | [] => (None, s2)
            end) in H.
  assert (Hf : (length (snd f) <= length s2)%nat).
  { unfold f. destruct s2 as [|dot r2]; [simpl; lia|].
    destruct (N.eqb dot 46); [|simpl; lia].
    destruct (take_digits r2 []) as [a b] eqn:E.
    apply take_digits_length in E. destruct a; simpl; lia. }
  destruct f as [fp s3]. simpl in Hf.
  set (e := match s3 with
            | e :: r3 =>
                if N.eqb e 101 || N.eqb e 69 then
                  let '(sgn, r4) :=
                    match r3 with
                    | sc :: t => if N.eqb sc 43 then (1, t)
                                 else if N.eqb sc 45 then (-1, t) else (1, r3)
                    | [] => (1, r3)
                    end in
                  match take_digits r4 [] with
                  | ([], _) => (None, s3)
                  | (ds, r5) => (Some (sgn * Py.digits_val ds), r5)
                  end
                else (None, s3)
            | [] => (None, s3)
            end) in H.
  assert (He : (length (snd e) <= length s3)%nat).
  { unfold e. destruct s3 as [|e0 r3]; [simpl; lia|].
    destruct (N.eqb e0 101 || N.eqb e0 69); [|simpl; lia].
    set (g := match r3 with
              | sc :: t => if N.eqb sc 43 then (1, t)
                           else if N.eqb sc 45 then (-1, t) else (1, r3)
              | [] => (1, r3)
              end).
    assert (Hg : (length (snd g) <= length r3)%nat).
    { unfold g. destruct r3 as [|sc t]; [simpl; lia|].
      destruct (N.eqb sc 43); [simpl; lia|].
      destruct (N.eqb sc 45); simpl; lia. }
    destruct g as [sgn r4]. simpl in Hg.
    destruct (take_digits r4 []) as [a b] eqn:E.
    apply take_digits_length in E. destruct a; simpl; lia. }
  destruct e as [ep s4]. simpl in He.
  assert (Hr : r = s4).
  { destruct fp, ep; try (injection H as _ <-; reflexivity).
    destruct (Py.int_max_str_digits <? _); [discriminate H|].
    injection H as _ <-. reflexivity. }
  subst r. simpl in *. lia.
Qed.

Lemma scan_constant_length s v r :
  scan_constant s = Some (v, r) -> (length r <= length s)%nat.
Proof.
  unfold scan_constant. intros H.
  repeat match type of H with
  | match strip_prefix ?p s with _ => _ end = _ =>
      let E := fresh "E" in
      destruct (strip_prefix p s) eqn:E;
        [injection H as _ <-; now apply strip_prefix_length in E|]
  | match scan_number s with _ => _ end = _ =>
      let E := fresh "E" in
      destruct (scan_number s) as [[? ?]|] eqn:E;
        [injection H as _ <-; now apply scan_number_length in E|]
  end.
  discriminate H.
Qed.

Lemma skip_ws_cons_length s c r :
  skip_ws s = c :: r -> (S (length r) <= length s)%nat.
Proof.
  intros H. pose proof (skip_ws_length s) as Hl. rewrite H in Hl. exact Hl.
Qed.

Lemma scanstring_shorter s acc k r :
  scanstring s acc = Some (k, r) -> (length r <= length s)%nat.
Proof. apply (scanstring_length (length s)). lia. Qed.

(** The three scanners only move forward. *)
Lemma scanners_length fuel :
  (forall s v r, scan_once fuel s = Some (v, r) -> (length r <= length s)%nat)
  /\ (forall s acc v r,
        parse_members fuel s acc = Some (v, r) -> (length r <= length s)%nat)
  /\ (forall s acc v r,
        parse_elems fuel s acc = Some (v, r) -> (length r <= length s)%nat).
Proof.
  induction fuel as [|fuel (IHo & IHm & IHe)].
  - repeat split; intros; discriminate.
  - split; [|split].
    + intros s v r H. cbn [scan_once] in H.
      destruct s as [|c s0]; [discriminate H|].
      destruct (N.eqb c 34).
      { destruct (scanstring s0 []) as [[k r']|] eqn:E; [|discriminate H].
        injection H as _ <-. apply scanstring_shorter in E. simpl. lia. }
      destruct (N.eqb c 123).
      { destruct (skip_ws s0) as [|c1 r1] eqn:E; [discriminate H|].
        apply skip_ws_cons_length in E.
        destruct (N.eqb c1 125); [injection H as _ <-; simpl; lia|].
        apply IHm in H. simpl in *. lia. }
      destruct (N.eqb c 91).
      { destruct (skip_ws s0) as [|c1 r1] eqn:E; [discriminate H|].
        apply skip_ws_cons_length in E.
        destruct (N.eqb c1 93); [injection H as _ <-; simpl; lia|].
        apply IHe in H. simpl in *. lia. }
      now apply scan_constant_length in H.
    + intros s acc v r H. cbn [parse_members] in H.
      destruct s as [|q s0]; [discriminate H|].
      destruct (N.eqb q 34); [|discriminate H].
      destruct (scanstring s0 []) as [[k r1]|] eqn:E1; [|discriminate H].
      apply scanstring_shorter in E1.
      destruct (skip_ws r1) as [|colon r2] eqn:E2; [discriminate H|].
      apply skip_ws_cons_length in E2.
      destruct (N.eqb colon 58); [|discriminate H].
      destruct (scan_once fuel (skip_ws r2)) as [[v1 r3]|] eqn:E3; [|discriminate H].
      apply IHo in E3. pose proof (skip_ws_length r2) as L2.
      destruct (skip_ws r3) as [|d r4] eqn:E4; [discriminate H|].
      apply skip_ws_cons_length in E4.
      destruct (N.eqb d 125); [injection H as _ <-; simpl; lia|].
      destruct (N.eqb d 44); [|discriminate H].
      apply IHm in H. pose proof (skip_ws_length r4). simpl. lia.
    + intros s acc v r H. cbn [parse_elems] in H.
      destruct (scan_once fuel s) as [[v1 r1]|] eqn:E1; [|discriminate H].
      apply IHo in E1.
      destruct (skip_ws r1) as [|d r2] eqn:E2; [discriminate H|].
      apply skip_ws_cons_length in E2.
      destruct (N.eqb d 93); [injection H as _ <-; lia|].
      destruct (N.eqb d 44); [|discriminate H].
      apply IHm in H || apply IHe in H. pose proof (skip_ws_length r2). lia.
Qed.

(** Above a bound given by the length of the text, the result of the
    scanners does not depend on the fuel: the fuel never runs out. *)
Lemma scanners_fuel fuel :
  (forall fuel' s,
      (2 * length s + 1 <= fuel)%nat -> (2 * length s + 1 <= fuel')%nat ->
      scan_once fuel s = scan_once fuel' s)
  /\ (forall fuel' s acc,
        (2 * length s <= fuel)%nat -> (2 * length s <= fuel')%nat ->
        parse_members fuel s acc = parse_members fuel' s acc)
  /\ (forall fuel' s acc,
        (2 * length s + 2 <= fuel)%nat -> (2 * length s + 2 <= fuel')%nat ->
        parse_elems fuel s acc = parse_elems fuel' s acc).
Proof.
  induction fuel as [|fuel (IHo & IHm & IHe)].
  - split; [|split]; intros fuel' s; intros; try lia.
    destruct s; [|simpl in *; lia]. destruct fuel'; reflexivity.
  - split; [|split].
    + intros fuel' s Hf Hf'. destruct fuel' as [|fuel']; [lia|].
      cbn [scan_once].
      destruct s as [|c s0]; [reflexivity|]. simpl in Hf, Hf'.
      destruct (N.eqb c 34); [reflexivity|].
      destruct (N.eqb c 123).
      { destruct (skip_ws s0) as [|c1 r1] eqn:E; [reflexivity|].
        apply skip_ws_cons_length in E.
        destruct (N.eqb c1 125); [reflexivity|].
        apply IHm; simpl; lia. }
      destruct (N.eqb c 91); [|reflexivity].
      destruct (skip_ws s0) as [|c1 r1] eqn:E; [reflexivity|].
      apply skip_ws_cons_length in E.
      destruct (N.eqb c1 93); [reflexivity|].
      apply IHe; simpl; lia.
    + intros fuel' s acc Hf Hf'.
      destruct s as [|q s0]; [destruct fuel'; reflexivity|].
      simpl in Hf, Hf'. destruct fuel' as [|fuel']; [lia|].
      cbn [parse_members].
      destruct (N.eqb q 34); [|reflexivity].
      destruct (scanstring s0 []) as [[k r1]|] eqn:E1; [|reflexivity].
      apply scanstring_shorter in E1.
      destruct (skip_ws r1) as [|colon r2] eqn:E2; [reflexivity|].
      apply skip_ws_cons_length in E2.
      destruct (N.eqb colon 58); [|reflexivity].
      pose proof (skip_ws_length r2) as L2.
      rewrite (IHo fuel' (skip_ws r2)) by lia.
      destruct (scan_once fuel' (skip_ws r2)) as [[v1 r3]|] eqn:E3; [|reflexivity].
      apply (proj1 (scanners_length fuel')) in E3.
      destruct (skip_ws r3) as [|d r4] eqn:E4; [reflexivity|].
      apply skip_ws_cons_length in E4.
      destruct (N.eqb d 125); [reflexivity|].
      destruct (N.eqb d 44); [|reflexivity].
      pose proof (skip_ws_length r4).
      apply IHm; lia.
    + intros fuel' s acc Hf Hf'. destruct fuel' as [|fuel']; [lia|].
      cbn [parse_elems].
      rewrite (IHo fuel' s) by lia.
      destruct (scan_once fuel' s) as [[v1 r1]|] eqn:E1; [|reflexivity].
      apply (proj1 (scanners_length fuel')) in E1.
      destruct (skip_ws r1) as [|d r2] eqn:E2; [reflexivity|].
      apply skip_ws_cons_length in E2.
      destruct (N.eqb d 93); [reflexivity|].
      destruct (N.eqb d 44); [|reflexivity].
      pose proof (skip_ws_length r2).
      apply IHe; lia.
Qed.

(** [loads] gives its scanner enough fuel: more fuel changes nothing. *)
Lemma loads_fuel_enough s fuel :
  (2 * length s + 2 <= fuel)%nat ->
  scan_once fuel (skip_ws s) = scan_once (2 * length s + 2) (skip_ws s).
Proof.
  intros Hf. pose proof (skip_ws_length s).
  apply (proj1 (scanners_fuel fuel)); lia.
Qed.

End JsonFacts.

Module BackendFacts.
Import Backend.

(** *** Decimal rendering *)

Lemma digit_val_render d : 0 <= d < 10 -> Py.digit_val (Z.to_N (48 + d)) = d.
Proof. intros Hd. unfold Py.digit_val. rewrite Z2N.id by lia. lia. Qed.

Lemma digits_of_pos_val fuel : forall n acc,
  0 <= n < Z.of_nat fuel ->
  fold_left (fun a d => 10 * a + Py.digit_val d) (Py.digits_of_pos fuel n acc) 0
  = fold_left (fun a d => 10 * a + Py.digit_val d) acc n.
Proof.
  induction fuel as [|fuel IH]; intros n acc Hn; [lia|].
  cbn [Py.digits_of_pos].
  destruct (Z.ltb_spec n 10) as [Hlt|Hge].
  - cbn [fold_left]. rewrite Z.mod_small by lia. rewrite digit_val_render by lia.
    reflexivity.
  - rewrite IH.
    + cbn [fold_left]. rewrite digit_val_render by (apply Z.mod_pos_bound; lia).
      f_equal. pose proof (Z.div_mod n 10). lia.
    + split; [apply Z.div_pos; lia|].
      assert (n / 10 < n) by (apply Z.div_lt; lia). lia.
Qed.

(** Reading the rendering back gives the number. *)
Lemma str_of_nat_val n : Py.digits_val (Py.str_of_nat n) = Z.of_nat n.
Proof.
  unfold Py.str_of_nat, Py.digits_val. rewrite digits_of_pos_val by lia. reflexivity.
Qed.

Lemma str_of_nat_inj n m : Py.str_of_nat n = Py.str_of_nat m -> n = m.
Proof.
  intros H. apply (f_equal Py.digits_val) in H. rewrite !str_of_nat_val in H. lia.
Qed.

(** *** The backup name of an overwriting write *)

Lemma backup_name_inj key i j : backup_name key i = backup_name key j -> i = j.
Proof.
  destruct i as [|i], j as [|j]; cbn [backup_name]; intros H.
  - reflexivity.
  - apply app_inv_head in H. discriminate H.
  - apply app_inv_head in H. discriminate H.
  - apply app_inv_head in H. apply (app_inv_head (".bak."py)) in H.
    now apply str_of_nat_inj in H.
Qed.

(** A map holds at least as many entries as a duplicate-free list of
    its keys is long. *)
Lemma keys_bound (l : list Py.str) : forall fs : store,
  List.NoDup l -> (forall k, In k l -> is_Some (fs !! k)) ->
  (length l <= size fs)%nat.
Proof.
  induction l as [|k l IH]; intros fs Hnd Hin; [simpl; lia|].
  inversion Hnd as [|? ? Hk Hnd']; subst.
  assert (Hs : is_Some (fs !! k)) by (apply Hin; now left).
  pose proof (map_size_delete_Some k fs Hs) as Hsz.
  assert (size fs <> 0)%nat.
  { intros E. apply map_size_empty_inv in E. subst fs.
    destruct Hs as [x Hx]. now apply lookup_empty_Some in Hx. }
  assert (length l <= size (delete k fs))%nat.
  { apply IH; [exact Hnd'|]. intros k' Hk'.
    apply lookup_delete_is_Some. split; [|apply Hin; now right].
    intros ->. contradiction. }
  cbn [length]. unfold store in *. lia.
Qed.

(** When the search gives up, every name it tried is taken. *)
Lemma backup_search_none fs key fuel : forall n backup,
  backup_search fs key fuel n backup = None ->
  is_Some (fs !! backup)
  /\ forall i, (n <= i < n + fuel)%nat ->
               is_Some (fs !! (key ++ ".bak."py ++ Py.str_of_nat i)).
Proof.
  induction fuel as [|fuel IH]; intros n backup H; cbn [backup_search] in H.
  - destruct (fs !! backup) eqn:E; [|discriminate H].
    split; [eauto|]. intros i Hi. lia.
  - destruct (fs !! backup) eqn:E; [|discriminate H].
    apply IH in H as [H0 Hrest]. split; [eauto|].
    intros i Hi. destruct (Nat.eq_dec i n) as [->|Hne]; [exact H0|].
    apply Hrest. lia.
Qed.

(** What the search returns is free. *)
Lemma backup_search_some (fs : store) key fuel : forall n (backup b : Py.str),
  backup_search fs key fuel n backup = Some b -> fs !! b = None.
Proof.
  induction fuel as [|fuel IH]; intros n backup b H; cbn [backup_search] in H.
  - destruct (fs !! backup) eqn:Eb; [discriminate H|]. now injection H as <-.
  - destruct (fs !! backup) eqn:Eb; [now apply IH in H|]. now injection H as <-.
Qed.

(** The search for a backup name always finds one: it tries more names
    than the store has entries. *)
Lemma backup_search_finds (fs : store) key :
  exists backup,
    backup_search fs key (size fs) 1 (key ++ ".bak"py) = Some backup
    /\ fs !! backup = None.
Proof.
  destruct (backup_search fs key (size fs) 1 (key ++ ".bak"py)) as [b|] eqn:E.
  - exists b. split; [reflexivity|]. exact (backup_search_some _ _ _ _ _ _ E).
  - exfalso. apply backup_search_none in E as [H0 Hrest].
    assert (Hb : (length (map (backup_name key) (seq 0 (S (size fs)))) <= size fs)%nat).
    { apply keys_bound.
      - apply Finite.Injective_map_NoDup; [|apply List.seq_NoDup].
        intros i j. apply backup_name_inj.
      - intros k Hk. apply in_map_iff in Hk as (i & <- & Hi). apply in_seq in Hi.
        destruct i as [|i]; [exact H0|]. apply Hrest. lia. }
    rewrite length_map, length_seq in Hb. lia.
Qed.

Section FilesWrite.
Variable safe_join : Py.str -> http_error + Py.str.

(** An overwriting write to an existing file saves the old content
    under a free backup name and then replaces the file. *)
Lemma files_write_overwrite (fs : store) p c key old :
  safe_join p = inr key ->
  fs !! key = Some (File old) ->
  utf8_len c <= 5000000 ->
  exists backup,
    fs !! backup = None
    /\ files_write safe_join fs p c true
       = (inr (mkFilesWriteResponse key (utf8_len c) ("OK"py) (Some backup)),
          <[key := File c]> (<[backup := File old]> fs)).
Proof.
  intros Hj Hf Hc. unfold files_write. rewrite Hj, Hf. cbn [negb].
  destruct (backup_search_finds fs key) as (backup & -> & Hfree).
  exists backup. split; [exact Hfree|].
  destruct (Z.ltb_spec 5000000 (utf8_len c)); [lia|reflexivity].
Qed.

End FilesWrite.

End BackendFacts.

Module ScanFacts.
Import UiText Grammar.
#[local] Arguments N.eqb : simpl never.
#[local] Arguments Z.eqb : simpl never.
#[local] Arguments Z.add : simpl never.
#[local] Arguments Z.sub : simpl never.

Lemma scan_body b : forallb item_ok b = true ->
  forall rest depth n,
    scan_balanced (render_body b ++ quote :: rest) true false depth n
    = scan_balanced rest false false depth (n + length (render_body b) + 1).
Proof.
  induction b as [|i b IH]; intros Hok rest depth n; simpl in *.
  - replace (n + 0 + 1)%nat with (S n) by lia. reflexivity.
  - apply andb_prop in Hok. destruct Hok as [Hi Hb].
    destruct i as [c|c]; simpl in *.
    + apply andb_prop in Hi. destruct Hi as [Hq Hs].
      apply negb_true_iff in Hq, Hs. rewrite Hs, Hq.
      rewrite (IH Hb). f_equal. lia.
    + rewrite ?N.eqb_refl. rewrite (IH Hb). f_equal. lia.
Qed.

Lemma scan_toks t : toks_ok t = true ->
  forall rest depth n, 1 <= depth ->
    scan_balanced (render t ++ rest) false false depth n
    = scan_balanced rest false false depth (n + length (render t)).
Proof.
  induction t as [|c r IH|b r IH|i IHi r IHr]; intros Hok rest depth n Hd; simpl in *.
  - f_equal. lia.
  - repeat (apply andb_prop in Hok; destruct Hok as [Hok ?]).
    apply negb_true_iff in Hok. rewrite Hok.
    match goal with H : negb (N.eqb c lbrace) = true |- _ => apply negb_true_iff in H; rewrite H end.
    match goal with H : negb (N.eqb c rbrace) = true |- _ => apply negb_true_iff in H; rewrite H end.
    rewrite IH by assumption. f_equal. lia.
  - apply andb_prop in Hok. destruct Hok as [Hb Hr].
    rewrite <- app_assoc. simpl. rewrite (scan_body b Hb).
    rewrite IH by assumption. f_equal. rewrite length_app. simpl. lia.
  - apply andb_prop in Hok. destruct Hok as [Hi Hr].
    rewrite <- app_assoc. rewrite IHi by (assumption || lia). simpl.
    replace (depth + 1 - 1) with depth by lia.
    destruct (Z.eqb_spec depth 0) as [->|_]; [lia|].
    rewrite IHr by assumption. f_equal. rewrite length_app. simpl. lia.
Qed.

Lemma scan_object t post : toks_ok t = true ->
  scan_balanced (object_text t ++ post) false false 0 0 = Some (length (object_text t)).
Proof.
  intros Hok. unfold object_text. simpl.
  rewrite <- app_assoc. rewrite (scan_toks t Hok) by lia. simpl.
  f_equal. rewrite length_app. simpl. lia.
Qed.
End ScanFacts.

Module PyFacts.
Import Grammar.
#[local] Arguments N.eqb : simpl never.

Lemma startswith_app p r : Py.startswith p (p ++ r) = true.
Proof. induction p as [|a p IH]; simpl; [reflexivity|]. now rewrite N.eqb_refl. Qed.

Lemma startswith_inv p s : Py.startswith p s = true -> exists r, s = p ++ r.
Proof.
  revert s. induction p as [|a p IH]; intros s H; simpl in *.
  - now exists s.
  - destruct s as [|b s]; [discriminate|].
    apply andb_prop in H. destruct H as [Hab Hp].
    apply N.eqb_eq in Hab. subst b.
    destruct (IH _ Hp) as [r ->]. now exists r.
Qed.

Lemma occurs_cons sub x s : occurs sub s -> occurs sub (x :: s).
Proof. intros (a & b & ->). now exists (x :: a), b. Qed.

Lemma occurs_app_mid sub a s b : occurs sub s -> occurs sub (a ++ s ++ b).
Proof.
  intros (a' & b' & ->). exists (a ++ a'), (b' ++ b).
  now rewrite <- !app_assoc.
Qed.

Lemma occurs_longer sub ext s : occurs (sub ++ ext) s -> occurs sub s.
Proof.
  intros (a & b & ->). exists a, (ext ++ b). now rewrite <- app_assoc.
Qed.

Lemma find_at_none sub s i : ~ occurs sub s -> Py.find_at sub s i = -1.
Proof.
  revert i. induction s as [|x s IH]; intros i Hno; simpl.
  - destruct (Py.startswith sub []) eqn:E; [|reflexivity].
    exfalso. apply Hno. apply startswith_inv in E. destruct E as [r E].
    exists [], r. exact E.
  - destruct (Py.startswith sub (x :: s)) eqn:E.
    + exfalso. apply Hno. apply startswith_inv in E. destruct E as [r E].
      exists [], r. exact E.
    + apply IH. intros Ho. apply Hno. now apply occurs_cons.
Qed.

Lemma find_none sub s : ~ occurs sub s -> Py.find sub s = -1.
Proof. apply find_at_none. Qed.

Lemma find_at_unfold sub s i :
  Py.find_at sub s i
  = if Py.startswith sub s then i
    else match s with [] => -1 | _ :: s' => Py.find_at sub s' (i + 1) end.
Proof. destruct s; reflexivity. Qed.

Lemma find_at_lower sub s i : 0 <= i -> Py.find_at sub s i = -1 \/ i <= Py.find_at sub s i.
Proof.
  revert i. induction s as [|x s IH]; intros i Hi; simpl.
  - destruct (Py.startswith sub []); [right; lia | now left].
  - destruct (Py.startswith sub (x :: s)); [right; lia|].
    destruct (IH (i + 1)) as [E|E]; [lia | now left | right; lia].
Qed.

Lemma find_at_occurs sub s i : 0 <= i -> occurs sub s -> Py.find_at sub s i <> -1.
Proof.
  intros Hi (a & b & ->). revert i Hi.
  induction a as [|x a IH]; intros i Hi.
  - rewrite app_nil_l, find_at_unfold, startswith_app. lia.
  - rewrite find_at_unfold.
    destruct (Py.startswith sub ((x :: a) ++ sub ++ b)); [lia|].
    simpl. apply IH. lia.
Qed.

Lemma find_absent sub s : Py.find sub s = -1 -> ~ occurs sub s.
Proof. intros H Ho. now apply (find_at_occurs sub s 0) in Ho. Qed.

Lemma find_char_absent c s : Py.find [c] s = -1 -> ~ In c s.
Proof.
  intros H Hin. apply (find_absent _ _ H).
  apply in_split in Hin. destruct Hin as (a & b & ->). now exists a, b.
Qed.

Lemma find_at_char c pre rest i :
  ~ In c pre -> Py.find_at [c] (pre ++ c :: rest) i = i + Z.of_nat (length pre).
Proof.
  revert i. induction pre as [|x pre IH]; intros i Hno; simpl.
  - rewrite N.eqb_refl. simpl. lia.
  - destruct (N.eqb_spec c x) as [->|Hne].
    + exfalso. apply Hno. now left.
    + simpl. rewrite IH by (intros H; apply Hno; now right). lia.
Qed.

Lemma lstrip_suffix s : exists a, s = a ++ Py.lstrip s.
Proof.
  induction s as [|c s [a IH]]; simpl.
  - now exists [].
  - destruct (Py.isspace c).
    + exists (c :: a). simpl. now f_equal.
    + now exists [].
Qed.

Lemma rstrip_prefix s : exists b, s = Py.rstrip s ++ b.
Proof.
  unfold Py.rstrip. destruct (lstrip_suffix (rev s)) as [a E].
  exists (rev a). rewrite <- rev_app_distr, <- E. now rewrite rev_involutive.
Qed.

Lemma lstrip_app_nonspace pre x t :
  Py.isspace x = false -> Py.lstrip (pre ++ x :: t) = Py.lstrip pre ++ x :: t.
Proof.
  intros Hx. induction pre as [|c pre IH]; simpl.
  - now rewrite Hx.
  - destruct (Py.isspace c); [exact IH | reflexivity].
Qed.

Lemma rstrip_app_nonspace t x post :
  Py.isspace x = false -> Py.rstrip (t ++ x :: post) = t ++ x :: Py.rstrip post.
Proof.
  intros Hx. unfold Py.rstrip.
  rewrite rev_app_distr. simpl. rewrite <- app_assoc. simpl.
  rewrite lstrip_app_nonspace by assumption.
  rewrite rev_app_distr. simpl. rewrite rev_involutive.
  now rewrite <- app_assoc.
Qed.

Lemma strip_embedded pre x mid y post :
  Py.isspace x = false -> Py.isspace y = false ->
  Py.strip (pre ++ (x :: mid ++ [y]) ++ post)
  = Py.lstrip pre ++ (x :: mid ++ [y]) ++ Py.rstrip post.
Proof.
  intros Hx Hy. unfold Py.strip. simpl.
  rewrite lstrip_app_nonspace by assumption.
  replace (Py.lstrip pre ++ x :: (mid ++ [y]) ++ post)
    with ((Py.lstrip pre ++ x :: mid) ++ y :: post)
    by (rewrite <- !app_assoc; reflexivity).
  rewrite rstrip_app_nonspace by assumption.
  rewrite <- !app_assoc. reflexivity.
Qed.

Lemma strip_nonspace_ends x mid y :
  Py.isspace x = false -> Py.isspace y = false ->
  Py.strip (x :: mid ++ [y]) = x :: mid ++ [y].
Proof.
  intros Hx Hy.
  pose proof (strip_embedded [] x mid y [] Hx Hy) as H.
  simpl in H. rewrite app_nil_r in H.
  replace (Py.rstrip []) with (@nil N) in H by reflexivity.
  rewrite app_nil_r in H. exact H.
Qed.

End PyFacts.

Module ParserFacts.
Import UiText Grammar PyFacts ScanFacts.
#[local] Arguments N.eqb : simpl never.

Lemma fenced_none text : ~ occurs fence text -> fenced_object text = None.
Proof.
  intros Hno. unfold fenced_object, fence_index.
  rewrite (find_none fence_json).
  2:{ intros H. apply Hno. apply (occurs_longer fence ("json"py)). exact H. }
  simpl. rewrite (find_none fence) by assumption. reflexivity.
Qed.

Lemma first_balanced_embedded pre t post :
  toks_ok t = true -> ~ In lbrace pre ->
  first_balanced (pre ++ object_text t ++ post) = Some (object_text t).
Proof.
  intros Hok Hpre. unfold first_balanced, Py.find.
  change (object_text t ++ post) with (lbrace :: (render t ++ [rbrace]) ++ post).
  cbv zeta. rewrite find_at_char by assumption. rewrite Z.add_0_l.
  destruct (Z.eqb_spec (Z.of_nat (length pre)) (-1)) as [E|_]; [lia|].
  unfold Py.slice_from. rewrite Nat2Z.id.
  rewrite skipn_app, Nat.sub_diag, skipn_all. simpl skipn. simpl app.
  change (lbrace :: (render t ++ [rbrace]) ++ post) with (object_text t ++ post).
  rewrite scan_object by assumption.
  rewrite firstn_app, Nat.sub_diag, firstn_all. simpl. now rewrite app_nil_r.
Qed.

Lemma extract_embedded pre t post :
  toks_ok t = true -> ~ In lbrace pre ->
  ~ occurs fence (pre ++ object_text t ++ post) ->
  _extract_first_json_object (pre ++ object_text t ++ post) = Some (object_text t).
Proof.
  intros Hok Hpre Hno. unfold _extract_first_json_object.
  replace (Py.truthy (pre ++ object_text t ++ post)) with true
    by (destruct pre; reflexivity).
  simpl. rewrite fenced_none by assumption.
  now apply first_balanced_embedded.
Qed.

Lemma isspace_lbrace : Py.isspace lbrace = false.
Proof. reflexivity. Qed.

Lemma isspace_rbrace : Py.isspace rbrace = false.
Proof. reflexivity. Qed.

Lemma strip_object t : Py.strip (object_text t) = object_text t.
Proof. apply strip_nonspace_ends; reflexivity. Qed.

Lemma extract_strip_embedded pre t post :
  toks_ok t = true -> ~ In lbrace pre ->
  ~ occurs fence (pre ++ object_text t ++ post) ->
  _extract_first_json_object (Py.strip (pre ++ object_text t ++ post))
  = Some (object_text t).
Proof.
  intros Hok Hpre Hno.
  unfold object_text at 1.
  rewrite (strip_embedded pre lbrace (render t) rbrace post) by reflexivity.
  destruct (lstrip_suffix pre) as [a Ea].
  destruct (rstrip_prefix post) as [b Eb].
  apply extract_embedded; [assumption | |].
  - intros Hin. apply Hpre. rewrite Ea. apply in_or_app. now right.
  - intros Ho. apply Hno.
    apply (occurs_app_mid fence a _ b) in Ho.
    replace (pre ++ object_text t ++ post)
      with (a ++ (Py.lstrip pre ++ (lbrace :: render t ++ [rbrace]) ++ Py.rstrip post) ++ b).
    + exact Ho.
    + rewrite Ea at 2. rewrite Eb at 2. unfold object_text.
      now rewrite <- !app_assoc.
Qed.

Lemma parse_embedded pre t post :
  toks_ok t = true -> ~ In lbrace pre ->
  ~ occurs fence (pre ++ object_text t ++ post) ->
  parse_tool_call (pre ++ object_text t ++ post) = parse_tool_call (object_text t).
Proof.
  intros Hok Hpre Hno. unfold parse_tool_call.
  rewrite extract_strip_embedded by assumption.
  rewrite strip_object.
  assert (H : _extract_first_json_object (object_text t) = Some (object_text t)).
  { rewrite <- (app_nil_r (object_text t)) at 1.
    apply (extract_embedded [] t []); [assumption | tauto |].
    rewrite app_nil_l, app_nil_r.
    intros Ho. apply Hno. now apply occurs_app_mid. }
  now rewrite H.
Qed.
End ParserFacts.

Module FenceFacts.
Import UiText Grammar PyFacts ScanFacts ParserFacts.
#[local] Arguments N.eqb : simpl never.

Lemma splitlines_aux_line a rest cur :
  no_lb a ->
  Py.splitlines_aux (a ++ LF :: rest) cur = (rev cur ++ a) :: Py.splitlines_aux rest [].
Proof.
  revert cur. induction a as [|c a IH]; intros cur Ha.
  - simpl. now rewrite app_nil_r.
  - simpl.
    assert (Hc : Py.is_linebreak c = false) by (apply Ha; now left).
    destruct (N.eqb_spec c 13) as [->|_]; [discriminate Hc|].
    rewrite Hc. rewrite IH by (intros d Hd; apply Ha; now right).
    simpl. now rewrite <- app_assoc.
Qed.

Lemma splitlines_aux_last a cur :
  no_lb a -> a <> [] ->
  Py.splitlines_aux a cur = [rev cur ++ a].
Proof.
  revert cur. induction a as [|c a IH]; intros cur Ha Hne; [congruence|].
  simpl.
  assert (Hc : Py.is_linebreak c = false) by (apply Ha; now left).
  destruct (N.eqb_spec c 13) as [->|_]; [discriminate Hc|].
  rewrite Hc. destruct a as [|d a].
  - simpl. reflexivity.
  - rewrite IH; [|intros e He; apply Ha; now right | discriminate].
    simpl. now rewrite <- app_assoc.
Qed.

Lemma splitlines_aux_join ls rest :
  ls <> [] -> Forall no_lb ls ->
  Py.splitlines_aux (Py.join [LF] ls ++ LF :: rest) []
  = ls ++ Py.splitlines_aux rest [].
Proof.
  induction ls as [|p ls IH]; intros Hne Hall; [congruence|].
  inversion Hall as [|? ? Hp Hls]; subst.
  destruct ls as [|q ls].
  - simpl. now rewrite splitlines_aux_line.
  - change (Py.join [LF] (p :: q :: ls)) with (p ++ [LF] ++ Py.join [LF] (q :: ls)).
    rewrite <- !app_assoc. simpl ([LF] ++ _).
    rewrite splitlines_aux_line by assumption. simpl.
    f_equal. apply IH; [discriminate | assumption].
Qed.

Lemma opening_split (tagged : bool) : opening tagged = fence ++ tagrest tagged.
Proof. destruct tagged; reflexivity. Qed.

Lemma line_ok_no_lb ln : line_ok ln = true -> no_lb ln.
Proof.
  unfold line_ok. rewrite forallb_forall. intros H c Hc.
  apply H in Hc. now apply negb_true_iff in Hc.
Qed.

Lemma endswith_app p s : Py.endswith p (s ++ p) = true.
Proof. unfold Py.endswith. rewrite rev_app_distr. apply startswith_app. Qed.

(** Whether a text starts with [sub] is decided by its first
    characters. *)
Lemma startswith_app_long sub : forall s r,
  (length sub <= length s)%nat ->
  Py.startswith sub (s ++ r) = Py.startswith sub s.
Proof.
  induction sub as [|a sub IH]; intros [|b s] r H; simpl in *;
    try reflexivity; try lia.
  f_equal. apply IH. lia.
Qed.

(** An occurrence that is the first one in [pre ++ sub] is the first
    one in every longer text. *)
Lemma find_at_first sub pre r : forall i,
  Py.find_at sub (pre ++ sub) i = i + Z.of_nat (length pre) ->
  Py.find_at sub (pre ++ sub ++ r) i = i + Z.of_nat (length pre).
Proof.
  induction pre as [|x pre IH]; intros i H.
  - cbn [app length]. rewrite find_at_unfold, startswith_app. simpl. lia.
  - rewrite find_at_unfold in H. rewrite find_at_unfold.
    replace (Py.startswith sub ((x :: pre) ++ sub ++ r))
      with (Py.startswith sub ((x :: pre) ++ sub)).
    2:{ rewrite (app_assoc (x :: pre) sub r). symmetry.
        apply startswith_app_long. rewrite length_app. lia. }
    revert H. destruct (Py.startswith sub ((x :: pre) ++ sub)); intros H.
    + cbn [length] in H. lia.
    + cbn [app] in *. rewrite IH; cbn [length] in *; lia.
Qed.

Lemma find_at_step sub s i : Py.find_at sub s i = -1 \/ i <= Py.find_at sub s i.
Proof.
  revert i. induction s as [|x s IH]; intros i; rewrite find_at_unfold.
  - destruct (Py.startswith sub []); lia.
  - destruct (Py.startswith sub (x :: s)); [lia|].
    destruct (IH (i + 1)); lia.
Qed.

(** The position found does not depend on the index the search starts
    counting from. *)
Lemma find_at_shift sub s : forall i j k,
  0 <= i -> 0 <= k ->
  Py.find_at sub s i = i + k -> Py.find_at sub s j = j + k.
Proof.
  induction s as [|x s IH]; intros i j k Hi Hk H;
    rewrite find_at_unfold in H; rewrite find_at_unfold; revert H.
  - destruct (Py.startswith sub []); lia.
  - destruct (Py.startswith sub (x :: s)); [lia|]. intros H.
    assert (Hlow : 0 <= k - 1).
    { destruct (Z.eq_dec k 0) as [->|]; [|lia]. exfalso.
      pose proof (find_at_step sub s (i + 1)) as L. lia. }
    rewrite (IH (i + 1) (j + 1) (k - 1)); lia.
Qed.

(** The first occurrence does not move when a part before it is cut
    off. *)
Lemma find_at_cut sub a s : forall i k,
  Py.find_at sub (a ++ s) i = i + Z.of_nat (length a) + k -> 0 <= k ->
  Py.find_at sub s (i + Z.of_nat (length a)) = i + Z.of_nat (length a) + k.
Proof.
  induction a as [|x a IH]; intros i k H Hk.
  - cbn [app length] in *. now rewrite Z.add_0_r in *.
  - rewrite find_at_unfold in H. cbn [app length] in H. revert H.
    destruct (Py.startswith sub (x :: a ++ s)); [lia|]. intros H.
    cbn [length]. replace (i + Z.of_nat (S (length a)))
      with (i + 1 + Z.of_nat (length a)) by lia.
    apply IH; lia.
Qed.

(** A character that is no backtick, after a text without a fence:
    the search for a fence goes on behind it. *)
Lemma find_fence_skip a x s : forall i,
  x <> backtick -> ~ occurs fence a ->
  Py.find_at fence (a ++ x :: s) i = Py.find_at fence s (i + Z.of_nat (length a) + 1).
Proof.
  induction a as [|y a IH]; intros i Hx Hno; rewrite find_at_unfold.
  - destruct (Py.startswith fence ([] ++ x :: s)) eqn:E.
    + exfalso. apply startswith_inv in E as [r Hr].
      change fence with [backtick; backtick; backtick] in Hr.
      cbn [app] in Hr. congruence.
    + cbn [app length]. f_equal. lia.
  - destruct (Py.startswith fence ((y :: a) ++ x :: s)) eqn:E.
    + exfalso. apply startswith_inv in E as [r Hr].
      change fence with [backtick; backtick; backtick] in Hr.
      destruct a as [|z [|w a]]; cbn [app] in Hr.
      * congruence.
      * congruence.
      * apply Hno. exists [], a.
        change fence with [backtick; backtick; backtick].
        cbn [app]. congruence.
    + cbn [app length]. rewrite IH; [f_equal; lia | assumption |].
      intros Ho. apply Hno. now apply occurs_cons.
Qed.

Lemma fenced_object_block pre tagged ls mid post :
  Py.find (opening tagged) (pre ++ opening tagged) = Py.len pre ->
  Forall (fun ln => line_ok ln = true) ls ->
  Py.join [LF] ls = lbrace :: mid ++ [rbrace] ->
  ~ occurs fence (Py.join [LF] ls) ->
  (tagged = false ->
   Py.find fence_json (pre ++ fenced_block tagged (Py.join [LF] ls) ++ post) = -1) ->
  fenced_object (pre ++ fenced_block tagged (Py.join [LF] ls) ++ post)
  = Some (Py.join [LF] ls).
Proof.
  intros Hpre Hall Hobj Hnf Hplain.
  set (obj := Py.join [LF] ls) in *.
  assert (Hne : ls <> []) by (intros ->; discriminate Hobj).
  set (M := tagrest tagged ++ LF :: obj ++ [LF]).
  assert (HB : fenced_block tagged obj = fence ++ M ++ fence).
  { unfold fenced_block, M. rewrite opening_split.
    rewrite <- !app_assoc. cbn [app]. rewrite <- !app_assoc. reflexivity. }
  assert (Hidx : fence_index (pre ++ fenced_block tagged obj ++ post)
                 = Z.of_nat (length pre)).
  { unfold fence_index. destruct tagged.
    - cbv zeta. unfold Py.find in *.
      replace (pre ++ fenced_block true obj ++ post)
        with (pre ++ fence_json ++ (LF :: obj ++ LF :: fence ++ post))
        by (unfold fenced_block, opening; rewrite <- !app_assoc; reflexivity).
      rewrite find_at_first by exact Hpre.
      destruct (Z.eqb_spec (0 + Z.of_nat (length pre)) (-1)); lia.
    - cbv zeta. rewrite Hplain by reflexivity. simpl (_ =? _).
      unfold Py.find in *. rewrite HB. rewrite <- !app_assoc.
      rewrite find_at_first by exact Hpre. lia. }
  unfold fenced_object. rewrite Hidx. cbv zeta.
  destruct (Z.eqb_spec (Z.of_nat (length pre)) (-1)) as [E|_]; [lia|].
  simpl negb. cbv iota.
  unfold Py.slice_from. rewrite Nat2Z.id.
  rewrite skipn_app, Nat.sub_diag, skipn_all, skipn_O, app_nil_l.
  rewrite HB.
  assert (Hend : Py.find_from fence ((fence ++ M ++ fence) ++ post) 3
                 = 3 + Z.of_nat (length M)).
  { unfold Py.find_from.
    destruct (Z.ltb_spec (Py.len ((fence ++ M ++ fence) ++ post)) 3) as [Hl|_].
    - unfold Py.len in Hl. rewrite !length_app in Hl. simpl in Hl. lia.
    - change (Z.to_nat 3) with 3%nat.
      change (skipn 3 ((fence ++ M ++ fence) ++ post)) with ((M ++ fence) ++ post).
      unfold M. rewrite <- !app_assoc. cbn [app].
      rewrite find_fence_skip.
      2:{ discriminate. }
      2:{ apply find_absent. destruct tagged; vm_compute; reflexivity. }
      rewrite <- app_assoc. cbn [app].
      rewrite find_fence_skip; [|discriminate|exact Hnf].
      rewrite find_at_unfold, startswith_app.
      rewrite !length_app. cbn [length]. rewrite !length_app. cbn [length]. lia. }
  rewrite Hend.
  destruct (Z.eqb_spec (3 + Z.of_nat (length M)) (-1)) as [E|_]; [lia|].
  simpl negb. cbv iota.
  assert (Hblock : Py.slice_to ((fence ++ M ++ fence) ++ post) (3 + Z.of_nat (length M) + 3)
                   = fence ++ M ++ fence).
  { unfold Py.slice_to.
    replace (Z.to_nat (3 + Z.of_nat (length M) + 3)) with (length (fence ++ M ++ fence))
      by (rewrite !length_app; simpl; lia).
    rewrite firstn_app, Nat.sub_diag, firstn_all. simpl. now rewrite app_nil_r. }
  rewrite Hblock. rewrite <- HB.
  assert (Hstrip : _strip_code_fences (fenced_block tagged obj) = obj).
  { unfold _strip_code_fences.
    assert (Hs : Py.strip (fenced_block tagged obj) = fenced_block tagged obj).
    { rewrite HB.
      change (fence ++ M ++ fence)
        with (backtick :: ([backtick; backtick] ++ M ++ [backtick; backtick; backtick])).
      replace ([backtick; backtick] ++ M ++ [backtick; backtick; backtick])
        with (([backtick; backtick] ++ M ++ [backtick; backtick]) ++ [backtick])
        by (rewrite <- !app_assoc; reflexivity).
      apply strip_nonspace_ends; reflexivity. }
    rewrite Hs.
    assert (Hsw : Py.startswith fence (fenced_block tagged obj) = true)
      by (rewrite HB; apply startswith_app).
    assert (Hew : Py.endswith fence (fenced_block tagged obj) = true)
      by (rewrite HB, app_assoc; apply endswith_app).
    rewrite Hsw, Hew. simpl andb. cbv iota.
    assert (Hlines : Py.splitlines (fenced_block tagged obj)
                     = (fence ++ tagrest tagged) :: ls ++ [fence]).
    { unfold Py.splitlines, fenced_block. rewrite opening_split.
      change ((fence ++ tagrest tagged) ++ [LF] ++ obj ++ [LF] ++ fence)
        with ((fence ++ tagrest tagged) ++ LF :: (obj ++ LF :: fence)).
      rewrite splitlines_aux_line.
      2:{ intros c Hc. destruct tagged; simpl in Hc;
          repeat (destruct Hc as [<-|Hc]; [reflexivity|]); destruct Hc. }
      simpl (rev [] ++ _).
      unfold obj. rewrite splitlines_aux_join.
      - reflexivity.
      - assumption.
      - eapply List.Forall_impl; [|exact Hall]. intros a Ha. now apply line_ok_no_lb. }
    rewrite Hlines.
    match goal with
    | |- context [3 <=? ?x] => replace (3 <=? x) with true
    end.
    2:{ symmetry. apply Z.leb_le. simpl length. rewrite length_app. simpl.
        destruct ls; [congruence | simpl; lia]. }
    unfold Py.drop_first_last. simpl tl. rewrite removelast_last.
    fold obj. rewrite Hobj. apply strip_nonspace_ends; reflexivity. }
  rewrite Hstrip.
  rewrite Hobj at 1 2.
  replace (Py.startswith [lbrace] (lbrace :: mid ++ [rbrace])) with true
    by (simpl; now rewrite ?N.eqb_refl).
  replace (Py.endswith [rbrace] (lbrace :: mid ++ [rbrace])) with true.
  - reflexivity.
  - change (lbrace :: mid ++ [rbrace]) with ((lbrace :: mid) ++ [rbrace]).
    symmetry. apply endswith_app.
Qed.

Lemma extract_fenced pre tagged ls mid post :
  Py.find (opening tagged) (pre ++ opening tagged) = Py.len pre ->
  Forall (fun ln => line_ok ln = true) ls ->
  Py.join [LF] ls = lbrace :: mid ++ [rbrace] ->
  ~ occurs fence (Py.join [LF] ls) ->
  (tagged = false ->
   Py.find fence_json (pre ++ fenced_block tagged (Py.join [LF] ls) ++ post) = -1) ->
  _extract_first_json_object
    (Py.strip (pre ++ fenced_block tagged (Py.join [LF] ls) ++ post))
  = Some (Py.join [LF] ls).
Proof.
  intros Hpre Hall Hobj Hnf Hplain.
  set (obj := Py.join [LF] ls) in *.
  assert (HB : exists m, fenced_block tagged obj = backtick :: m ++ [backtick]).
  { unfold fenced_block. rewrite opening_split.
    exists ([backtick; backtick] ++ tagrest tagged ++ [LF] ++ obj ++ [LF]
            ++ [backtick; backtick]).
    change fence with [backtick; backtick; backtick].
    rewrite <- !app_assoc. cbn [app]. reflexivity. }
  destruct HB as [m HB].
  assert (Hstrip : Py.strip (pre ++ fenced_block tagged obj ++ post)
                   = Py.lstrip pre ++ fenced_block tagged obj ++ Py.rstrip post).
  { rewrite HB. apply strip_embedded; reflexivity. }
  rewrite Hstrip.
  destruct (lstrip_suffix pre) as [a Ea].
  destruct (rstrip_prefix post) as [b Eb].
  unfold _extract_first_json_object.
  replace (Py.truthy (Py.lstrip pre ++ fenced_block tagged obj ++ Py.rstrip post))
    with true by (rewrite HB; destruct (Py.lstrip pre); reflexivity).
  simpl negb. cbv iota.
  unfold obj. rewrite (fenced_object_block _ tagged ls mid); try assumption.
  - reflexivity.
  - unfold Py.find, Py.len in *.
    assert (Hcut : Py.find_at (opening tagged) (Py.lstrip pre ++ opening tagged)
                     (0 + Z.of_nat (length a))
                   = 0 + Z.of_nat (length a) + Z.of_nat (length (Py.lstrip pre))).
    { apply find_at_cut; [|lia]. rewrite app_assoc, <- Ea, Hpre.
      rewrite Ea at 1. rewrite length_app. lia. }
    apply (find_at_shift _ _ (0 + Z.of_nat (length a)) 0) in Hcut; [exact Hcut|lia|lia].
  - intros Ht. specialize (Hplain Ht). apply find_none.
    intros Ho. apply (find_absent _ _ Hplain).
    apply (occurs_app_mid _ a _ b) in Ho.
    replace (pre ++ fenced_block tagged obj ++ post)
      with (a ++ (Py.lstrip pre ++ fenced_block tagged obj ++ Py.rstrip post) ++ b).
    + exact Ho.
    + rewrite Ea at 2. rewrite Eb at 2. now rewrite <- !app_assoc.
Qed.

Lemma parse_fenced pre tagged ls t post :
  toks_ok t = true ->
  Py.find (opening tagged) (pre ++ opening tagged) = Py.len pre ->
  Forall (fun ln => line_ok ln = true) ls ->
  Py.join [LF] ls = object_text t ->
  ~ occurs fence (object_text t) ->
  (tagged = false ->
   Py.find fence_json (pre ++ fenced_block tagged (object_text t) ++ post) = -1) ->
  parse_tool_call (pre ++ fenced_block tagged (object_text t) ++ post)
  = parse_tool_call (object_text t).
Proof.
  intros Hok Hpre Hall Hobj Hnf Hplain. unfold parse_tool_call.
  rewrite <- Hobj at 1.
  rewrite (extract_fenced pre tagged ls (render t) post); try assumption.
  2:{ now rewrite Hobj. }
  2:{ rewrite Hobj. exact Hplain. }
  rewrite strip_object.
  assert (H : _extract_first_json_object (object_text t) = Some (object_text t)).
  { rewrite <- (app_nil_r (object_text t)) at 1.
    apply (extract_embedded [] t []); [assumption | tauto |].
    now rewrite app_nil_l, app_nil_r. }
  rewrite H, Hobj. reflexivity.
Qed.

End FenceFacts.

Module ValidationFacts.
Import Json UiText Grammar.

Lemma nearest_clamp lo hi n : lo <= hi -> Z.max lo (Z.min hi n) = nearest lo hi n.
Proof.
  intros H. unfold nearest.
  destruct (Z.ltb_spec n lo); [lia|].
  destruct (Z.ltb_spec hi n); lia.
Qed.

Lemma clamp_bounded lo hi d k args :
  lo <= d <= hi ->
  clamp_int lo hi d (dict_get_default k args (JInt d))
  = bounded_arg lo hi d (dict_get k args).
Proof.
  intros Hd. unfold clamp_int, dict_get_default, bounded_arg.
  destruct (dict_get k args) as [v|].
  - destruct (py_int v) as [n|].
    + apply nearest_clamp. lia.
    + lia.
  - simpl. lia.
Qed.

Lemma path_default args :
  path_or_dot (dict_get_default ("path"py) args (JStr ("."py)))
  = path_or_dot (dict_get_none ("path"py) args).
Proof.
  unfold dict_get_default, dict_get_none, dict_get_default.
  destruct (dict_get ("path"py) args); reflexivity.
Qed.

Lemma write_content_code content content_lines :
  match
    match str_list content with
    | Some ls => JStr (Py.join [LF] ls)
    | None =>
        match content, str_list content_lines with
        | JNull, Some ls => JStr (Py.join [LF] ls)
        | _, _ => content
        end
    end
  with
  | JStr c => Some c
  | _ => None
  end = write_content content content_lines.
Proof.
  destruct content as [| | | |s|l|kv]; simpl; try reflexivity.
  - destruct content_lines as [| | | |s'|l'|kv']; simpl; try reflexivity.
    destruct (all_str l'); reflexivity.
  - destruct (all_str l); reflexivity.
Qed.

Lemma tool_call_of_value_validate o args :
  dict_get_none ("args"py) o = JDict args ->
  tool_call_of_value (JDict o) = validate (dict_get_none ("tool"py) o) args.
Proof.
  intros Hargs. unfold tool_call_of_value, validate. rewrite Hargs.
  set (tool := dict_get_none ("tool"py) o).
  destruct (str_eq tool ("web_search"py)).
  { destruct (nonblank_str _); [|reflexivity].
    now rewrite clamp_bounded by lia. }
  destruct (str_eq tool ("fs_list"py)).
  { rewrite clamp_bounded by lia. now rewrite path_default. }
  destruct (str_eq tool ("fs_read"py)).
  { destruct (nonblank_str _); [|reflexivity].
    now rewrite clamp_bounded by lia. }
  destruct (str_eq tool ("fs_write"py)).
  { destruct (nonblank_str _); [|reflexivity].
    rewrite <- write_content_code.
    destruct (match str_list _ with Some _ => _ | None => _ end); reflexivity. }
  destruct (str_eq tool ("fs_search"py)); [|reflexivity].
  destruct (nonblank_str _); [|reflexivity].
  rewrite clamp_bounded by lia. now rewrite path_default.
Qed.

End ValidationFacts.

Module RepairFacts.
Import UiText Grammar.
#[local] Arguments N.eqb : simpl never.

Lemma escape_body b rest :
  forallb item_ok b = true ->
  escape_loop (render_body b ++ quote :: rest) true false
  = render_body (map repair_item b) ++ quote :: escape_loop rest false false.
Proof.
  induction b as [|i b IH]; intros Hok.
  - reflexivity.
  - simpl in Hok. apply andb_prop in Hok. destruct Hok as [Hi Hb].
    destruct i as [c|c].
    + simpl in Hi. apply andb_prop in Hi. destruct Hi as [Hq Hs].
      apply negb_true_iff in Hq, Hs.
      cbn [render_body flat_map render_item map repair_item app escape_loop].
      rewrite Hs, Hq.
      fold (render_body b). fold (render_body (map repair_item b)).
      destruct (N.eqb c CR || N.eqb c LF) eqn:E;
        cbn [render_item app]; rewrite IH by assumption; reflexivity.
    + cbn [render_body flat_map render_item map repair_item app escape_loop].
      rewrite N.eqb_refl.
      fold (render_body b). fold (render_body (map repair_item b)).
      rewrite IH by assumption. reflexivity.
Qed.

Lemma escape_toks t rest :
  toks_ok t = true ->
  escape_loop (render t ++ rest) false false
  = render (repair t) ++ escape_loop rest false false.
Proof.
  revert rest. induction t as [|c r IH|b r IH|i IHi r IHr]; intros rest Hok.
  - reflexivity.
  - simpl in Hok. repeat (apply andb_prop in Hok; destruct Hok as [Hok ?]).
    apply negb_true_iff in Hok.
    cbn [render repair app escape_loop]. rewrite Hok. now rewrite IH.
  - simpl in Hok. apply andb_prop in Hok. destruct Hok as [Hb Hr].
    cbn [render repair app escape_loop]. rewrite N.eqb_refl.
    rewrite <- app_assoc. cbn [app].
    rewrite escape_body by assumption.
    rewrite IH by assumption. now rewrite <- app_assoc.
  - simpl in Hok. apply andb_prop in Hok. destruct Hok as [Hi Hr].
    cbn [render repair app escape_loop].
    replace (N.eqb lbrace quote) with false by reflexivity.
    rewrite <- app_assoc. rewrite IHi by assumption.
    cbn [app escape_loop].
    replace (N.eqb rbrace quote) with false by reflexivity.
    rewrite IHr by assumption. now rewrite <- app_assoc.
Qed.

Lemma escape_render t :
  toks_ok t = true ->
  _escape_raw_newlines_in_json_strings (render t) = render (repair t).
Proof.
  intros Hok. unfold _escape_raw_newlines_in_json_strings.
  destruct (render t) eqn:E.
  - destruct t; try discriminate E. reflexivity.
  - cbn [Py.truthy negb]. rewrite <- E.
    rewrite <- (app_nil_r (render t)) at 1.
    rewrite escape_toks by assumption.
    cbn [escape_loop]. now rewrite app_nil_r.
Qed.

End RepairFacts.

Module ParserClaims.
Import Json UiText Grammar PyFacts ScanFacts ParserFacts FenceFacts ValidationFacts RepairFacts.

(** C1 (as amended).  A balanced object text embedded in a larger text
    is what the parser extracts, the prose around it being ignored and
    braces inside string literals not being counted, in two cases.
    (a) No opening brace precedes the object and the text has no
    triple-backtick fence.  (b) The object stands in a fenced block: the
    opening fence line (tagged [json], or untagged in a text without a
    [json] fence), the object on the lines that follow, the closing
    fence on the next line; no opening fence of its kind begins before
    the block; and the object holds no triple backtick and no line
    boundary other than the line feed.  The scenario of the
    specification evaluates as stated. *)
Theorem C1_embedded_object_is_extracted :
  (forall pre t post,
      toks_ok t = true ->
      Py.find [lbrace] pre = -1 ->
      Py.find fence (pre ++ object_text t ++ post) = -1 ->
      _extract_first_json_object (Py.strip (pre ++ object_text t ++ post))
      = Some (object_text t)
      /\ parse_tool_call (pre ++ object_text t ++ post)
         = parse_tool_call (object_text t))
  /\ (forall pre tagged ls t post,
      toks_ok t = true ->
      Py.find (opening tagged) (pre ++ opening tagged) = Py.len pre ->
      (tagged = false ->
       Py.find fence_json (pre ++ fenced_block tagged (object_text t) ++ post) = -1) ->
      forallb line_ok ls = true ->
      Py.join [LF] ls = object_text t ->
      Py.find fence (object_text t) = -1 ->
      _extract_first_json_object
        (Py.strip (pre ++ fenced_block tagged (object_text t) ++ post))
      = Some (object_text t)
      /\ parse_tool_call (pre ++ fenced_block tagged (object_text t) ++ post)
         = parse_tool_call (object_text t))
  /\ parse_tool_call scenario_text = Some (WebSearch ("rust vs go"py) 3).
Proof.
  split; [|split].
  - intros pre t post Hok Hpre Hno.
    apply find_char_absent in Hpre. apply find_absent in Hno.
    split.
    + now apply extract_strip_embedded.
    + now apply parse_embedded.
  - intros pre tagged ls t post Hok Hpre Hplain Hls Hobj Hnf.
    apply find_absent in Hnf.
    assert (Hall : Forall (fun ln => line_ok ln = true) ls).
    { apply List.Forall_forall. now apply forallb_forall. }
    split.
    + rewrite <- Hobj. apply (extract_fenced pre tagged ls (render t) post);
        try assumption; rewrite Hobj; assumption.
    + now apply (parse_fenced pre tagged ls t post).
  - vm_compute. reflexivity.
Qed.

Lemma C1_embedded_object_witness :
  _extract_first_json_object
    (Py.strip ("Sure. "py ++ object_text braces_in_string_toks ++ " Done."py))
  = Some (object_text braces_in_string_toks)
  /\ _extract_first_json_object
       (Py.strip ("Use `it`:"py ++ fenced_block true (object_text backtick_in_string_toks)
                  ++ " Done."py))
     = Some (object_text backtick_in_string_toks).
Proof.
  split.
  - apply (proj1 C1_embedded_object_is_extracted ("Sure. "py) braces_in_string_toks (" Done."py)).
    + reflexivity.
    + vm_compute. reflexivity.
    + vm_compute. reflexivity.
  - apply (proj1 (proj2 C1_embedded_object_is_extracted) ("Use `it`:"py) true
             [object_text backtick_in_string_toks] backtick_in_string_toks (" Done."py)).
    + reflexivity.
    + vm_compute. reflexivity.
    + intros H. discriminate H.
    + vm_compute. reflexivity.
    + reflexivity.
    + vm_compute. reflexivity.
Defined.

(** The object parses on its own, but an earlier brace in the prose
    makes the parser take the wrong balanced text and find no call.
    And a fenced block is rebuilt from its lines: a line separator
    inside a string of the object comes out as a line feed. *)
Lemma C1_prose_with_brace_counterexample :
  let obj := "{'tool':'web_search','args':{'query':'q'}}"js in
  let text := "Use {x} then "py ++ obj in
  let sep := "{'tool':'web_search','args':{'query':'a"js ++ [8232%N] ++ "b'}}"js in
  parse_tool_call obj = Some (WebSearch ("q"py) 5)
  /\ _extract_first_json_object (Py.strip text) = Some ("{x}"py)
  /\ parse_tool_call text = None
  /\ parse_tool_call sep = Some (WebSearch ("a"py ++ [8232%N] ++ "b"py) 5)
  /\ parse_tool_call (fenced_block true sep) = Some (WebSearch ("a"py ++ [LF] ++ "b"py) 5).
Proof. vm_compute. repeat split; reflexivity. Qed.

(** C4 (as amended).  After the strict parse, a call whose [args] is an
    object is validated as section 4.2 says, with two amendments: a
    bounded argument that [int()] rejects takes the default, and
    [fs_write] also takes its content from [content_lines] when
    [content] is absent or null.  Every converted value outside its
    bounds becomes the nearest bound; a call whose [args] is not an
    object is no tool call. *)
Theorem C4_arguments_are_validated_and_clamped :
  (forall o args,
      dict_get_none ("args"py) o = JDict args ->
      tool_call_of_value (JDict o) = validate (dict_get_none ("tool"py) o) args)
  /\ (forall o,
      (forall args, dict_get_none ("args"py) o <> JDict args) ->
      tool_call_of_value (JDict o) = None)
  /\ (forall lo hi n,
      lo <= hi ->
      (n < lo -> nearest lo hi n = lo)
      /\ (hi < n -> nearest lo hi n = hi)
      /\ (lo <= n <= hi -> nearest lo hi n = n))
  /\ parse_tool_call ("{'tool':'web_search','args':{'query':'q','count':999}}"js)
     = Some (WebSearch ("q"py) 10).
Proof.
  split; [|split; [|split]].
  - exact tool_call_of_value_validate.
  - intros o Hno. unfold tool_call_of_value.
    destruct (dict_get_none ("args"py) o) as [| | | | | |args] eqn:E; try reflexivity.
    exfalso. now apply (Hno args).
  - intros lo hi n Hle. unfold nearest.
    destruct (Z.ltb_spec n lo); destruct (Z.ltb_spec hi n); repeat split; intros; lia.
  - vm_compute. reflexivity.
Qed.

Lemma C4_arguments_witness :
  tool_call_of_value (JDict read_call_value) = Some (FsRead ("notes.txt"py) 1).
Proof.
  rewrite (proj1 C4_arguments_are_validated_and_clamped read_call_value
             [("path"py, JStr (" notes.txt "py)); ("max_bytes"py, JInt 0)]).
  - vm_compute. reflexivity.
  - reflexivity.
Defined.

(** An infinite count takes the default instead of the upper bound, and
    a call without [content] is accepted on its [content_lines]. *)
Lemma C4_default_and_content_lines_counterexample :
  parse_tool_call ("{'tool':'web_search','args':{'query':'q','count':1e999}}"js)
  = Some (WebSearch ("q"py) 5)
  /\ parse_tool_call
       ("{'tool':'fs_write','args':{'path':'a.txt','content_lines':['x','y']}}"js)
     = Some (FsWrite ("a.txt"py) ("x"py ++ [LF] ++ "y"py) true).
Proof. vm_compute. split; reflexivity. Qed.

(** C5 (as amended).  The repair pass rewrites a text of string
    literals, other characters and nested braces by replacing, inside
    the string literals, every carriage return and line feed that does
    not follow a backslash with the escape [\n]; an escape pair and
    every character outside the literals are kept.  The parser runs it
    once, only after the strict parse has failed, and parses the
    repaired text once.  A raw newline in the content of an [fs_write]
    call is thereby read as a newline. *)
Theorem C5_one_repair_pass_inside_string_literals :
  (forall t,
      toks_ok t = true ->
      _escape_raw_newlines_in_json_strings (render t) = render (repair t))
  /\ (forall raw,
      loads_with_repair raw
      = match loads raw with
        | Some obj => Some obj
        | None =>
            if decide (_escape_raw_newlines_in_json_strings raw = raw) then None
            else loads (_escape_raw_newlines_in_json_strings raw)
        end)
  /\ loads raw_newline_call = None
  /\ parse_tool_call raw_newline_call
     = Some (FsWrite ("notes.txt"py) ("line one"py ++ [LF] ++ "line two"py) true).
Proof.
  split; [|split; [|split]].
  - exact escape_render.
  - intros raw. reflexivity.
  - vm_compute. reflexivity.
  - vm_compute. reflexivity.
Qed.

Lemma C5_repair_witness :
  _escape_raw_newlines_in_json_strings (render newline_literal_toks)
  = [quote; 97; backslash; 110; backslash; 110; backslash; quote; 98; quote; LF]%N.
Proof.
  rewrite (proj1 C5_one_repair_pass_inside_string_literals newline_literal_toks).
  - reflexivity.
  - reflexivity.
Defined.

(** With a line feed right after a backslash in the content, the repair
    pass leaves the text as it is and the call is lost. *)
Lemma C5_backslash_newline_counterexample :
  let raw := object_text backslash_newline_toks in
  toks_ok backslash_newline_toks = true
  /\ raw = "{'tool':'fs_write','args':{'path':'a.txt','content':'x\"js ++ [LF] ++ "y'}}"js
  /\ _escape_raw_newlines_in_json_strings raw = raw
  /\ parse_tool_call raw = None.
Proof. vm_compute. repeat split; reflexivity. Qed.

End ParserClaims.

(* ===================================================================== *)
(** * Facts about the stream consumer *)
(* ===================================================================== *)

Module StreamFacts.
Import UiPrompt Backend ChatController StreamSpec.

Section Facts.
Context {W : Type}.
Variable ctx : ChatContext W.
Variable state : State.

Lemma flush_pending_spec l :
  let l' := flush_pending ctx l in
  content (msg l') = content (msg l) ++ pending_raw l
  /\ or_empty (display_raw (msg l'))
     = or_empty (display_raw (msg l)) ++ pending_display l
  /\ pending_raw l' = [] /\ pending_display l' = []
  /\ was_cancelled l' = was_cancelled l /\ last_err l' = last_err l
  /\ attempt l' = attempt l /\ chars l' = chars l
  /\ first_token_time l' = first_token_time l
  /\ received l' = received l /\ shown l' = shown l
  /\ saw_tool_call l' = saw_tool_call l
  /\ tool_call_detected l' = tool_call_detected l
  /\ tool_call_raw (msg l') = tool_call_raw (msg l).
Proof.
  unfold flush_pending.
  destruct (pending_display l) eqn:Ed; destruct (pending_raw l) eqn:Er;
    simpl; rewrite ?Ed, ?Er; simpl;
    repeat split; simpl; rewrite ?Ed, ?Er, ?app_nil_r; reflexivity.
Qed.


Lemma inv_init m0 : Inv m0 (init_locals m0) /\ Live (init_locals m0).
Proof.
  unfold Inv, Live, max_retries. simpl. rewrite !app_nil_r.
  repeat split; try reflexivity; try lia; discriminate.
Qed.

Lemma inv_flush m0 l : Inv m0 l -> Inv m0 (flush_pending ctx l).
Proof.
  intros (Hc & Ha & Hf & Hs & Hcont & Hdet).
  destruct (flush_pending_spec l)
    as (Fc & Fd & Fpr & Fpd & Fwc & Fle & Fa & Fch & Fft & Fr & Fsh & Fsaw & Ftd & _).
  unfold Inv. rewrite Fc, Fd, Fpr, Fpd, Fwc, Fa, Fch, Fft, Fr, Fsh, Fsaw, Ftd.
  rewrite !app_nil_r.
  repeat split; try tauto; try lia;
    try (apply Hcont; assumption); try (apply Hdet; assumption).
Qed.

Lemma live_flush l : Live l -> Live (flush_pending ctx l).
Proof.
  intros (Hw & Ht).
  destruct (flush_pending_spec l)
    as (_ & _ & _ & _ & Fwc & _ & _ & _ & _ & _ & _ & _ & Ftd & _).
  unfold Live. now rewrite Fwc, Ftd.
Qed.

Lemma inv_emit m0 l e : Inv m0 l -> Inv m0 (emit l e).
Proof. intros H. exact H. Qed.

Lemma live_emit l e : Live l -> Live (emit l e).
Proof. intros H. exact H. Qed.

Lemma inv_append m0 l ev c :
  Inv m0 l -> Live l -> Py.truthy c = true ->
  Inv m0 (append_chunk ctx state l ev c) /\ Live (append_chunk ctx state l ev c).
Proof.
  intros (Hc & Ha & Hf & Hs & Hcont & Hdet) (Hw & Ht) Hne.
  destruct (Hcont Ht) as [H1 H2].
  unfold Inv, Live, append_chunk. simpl.
  split; [|split; assumption].
  split; [rewrite Hc; unfold Py.len; rewrite length_app; lia|].
  split; [assumption|].
  split.
  { split; intros H.
    - destruct (first_token_time l); discriminate H.
    - destruct c; [discriminate Hne|].
      apply app_eq_nil in H. destruct H as [_ H]. discriminate H. }
  split; [assumption|].
  split.
  { intros _. rewrite !app_assoc. now rewrite H1, H2. }
  intros H. rewrite Ht in H. discriminate H.
Qed.

Lemma intercept_some m0 l l' :
  Inv m0 l -> Live l -> intercept ctx l = Some l' ->
  Inv m0 l' /\ was_cancelled l' = false /\ tool_call_detected l' = true
  /\ pending_raw l' = [] /\ pending_display l' = []
  /\ attempt l' = attempt l /\ last_err l' = last_err l
  /\ received l' = received l.
Proof.
  intros (Hc & Ha & Hf & Hs & Hcont & Hdet) (Hw & Ht) H.
  unfold intercept in H.
  destruct (saw_tool_call l); [discriminate|].
  destruct (parse_tool_call ctx _) as [tc|]; [|discriminate].
  destruct (match extract_first_json_object ctx with Some _ => _ | None => _ end)
    as [j|]; [|discriminate].
  destruct (Py.truthy j); [|discriminate].
  injection H as <-. unfold Inv. simpl.
  split; [|repeat split; assumption].
  split; [assumption|].
  split; [assumption|].
  split; [assumption|].
  split; [reflexivity|].
  split; [discriminate|].
  intros _. repeat split; assumption.
Qed.

Lemma inv_debounce m0 l now : Inv m0 l -> Inv m0 (debounce ctx l now).
Proof.
  intros H. unfold debounce.
  destruct (Qle_bool _ _); [|assumption].
  apply inv_flush. exact H.
Qed.

Lemma live_debounce l now : Live l -> Live (debounce ctx l now).
Proof.
  intros H. unfold debounce.
  destruct (Qle_bool _ _); [|assumption].
  apply live_flush. exact H.
Qed.

Lemma debounce_fields l now :
  attempt (debounce ctx l now) = attempt l
  /\ last_err (debounce ctx l now) = last_err l
  /\ received (debounce ctx l now) = received l.
Proof.
  unfold debounce. destruct (Qle_bool _ _); [|tauto].
  match goal with |- context [flush_pending ctx ?x] =>
    destruct (flush_pending_spec x)
      as (_ & _ & _ & _ & _ & Fle & Fa & _ & _ & Fr & _)
  end.
  rewrite Fle, Fa, Fr. tauto.
Qed.

Lemma read_lines_inv m0 lines : forall l,
  Inv m0 l -> Live l ->
  Inv m0 (snd (read_lines ctx state lines l))
  /\ exit_ok (fst (read_lines ctx state lines l)) (snd (read_lines ctx state lines l))
  /\ attempt (snd (read_lines ctx state lines l)) = attempt l
  /\ last_err (snd (read_lines ctx state lines l)) = last_err l.
Proof.
  induction lines as [|ev rest IH]; intros l Hinv Hlive.
  - simpl. tauto.
  - simpl. destruct (cancel_seen ev).
    + simpl. destruct Hlive as [Hw Ht].
      destruct Hinv as (Hc & Ha & Hf & Hs & Hcont & Hdet).
      split; [|repeat split; assumption].
      unfold Inv. simpl.
      split; [assumption|].
      split; [assumption|].
      split; [assumption|].
      split; [assumption|].
      split; [assumption|].
      intros H. rewrite Ht in H. discriminate H.
    + destruct (payload ev) as [| | |c].
      * now apply IH.
      * now apply IH.
      * simpl. tauto.
      * destruct (Py.truthy c) eqn:Ec; simpl; [|now apply IH].
        destruct (inv_append m0 l ev c Hinv Hlive Ec) as [Hinv1 Hlive1].
        destruct (intercept ctx (append_chunk ctx state l ev c)) as [l2|] eqn:Ei.
        -- simpl.
           destruct (intercept_some m0 _ _ Hinv1 Hlive1 Ei)
             as (I1 & I2 & I3 & I4 & I5 & I6 & I7 & _).
           split; [exact I1|].
           split; [simpl; repeat split; assumption|].
           split; assumption.
        -- destruct (IH (debounce ctx (append_chunk ctx state l ev c) (t_now ev)))
             as (J1 & J2 & J3 & J4).
           ++ now apply inv_debounce.
           ++ now apply live_debounce.
           ++ destruct (debounce_fields (append_chunk ctx state l ev c) (t_now ev))
                as (D1 & D2 & _).
              rewrite J3, J4, D1, D2.
              split; [exact J1|]. split; [exact J2|]. split; reflexivity.
Qed.


Lemma read_lines_app lines1 lines2 : forall l la,
  read_lines ctx state lines1 l = (Exhausted, la) ->
  read_lines ctx state (lines1 ++ lines2) l = read_lines ctx state lines2 la.
Proof.
  induction lines1 as [|ev rest IH]; intros l la H.
  - simpl in H. injection H as <-. reflexivity.
  - simpl in *. destruct (cancel_seen ev); [discriminate|].
    destruct (payload ev) as [| | |c]; try (now apply IH); try discriminate.
    destruct (Py.truthy c); simpl in *; [|now apply IH].
    destruct (intercept ctx _); [discriminate|]. now apply IH.
Qed.

Lemma posted_fields l :
  attempt (posted ctx state l) = attempt l
  /\ last_err (posted ctx state l) = last_err l
  /\ received (posted ctx state l) = received l.
Proof. unfold posted. destruct (0 <? attempt l); simpl; tauto. Qed.

Lemma inv_posted m0 l : Inv m0 l -> Inv m0 (posted ctx state l).
Proof. unfold posted. destruct (0 <? attempt l); intros H; exact H. Qed.

Lemma live_posted l : Live l -> Live (posted ctx state l).
Proof. unfold posted. destruct (0 <? attempt l); intros H; exact H. Qed.

Lemma inv_set_cancelled m0 l : Inv m0 l -> Live l -> Inv m0 (set_cancelled l).
Proof.
  intros (Hc & Ha & Hf & Hs & Hcont & Hdet) (Hw & Ht).
  unfold Inv. simpl.
  split; [assumption|]. split; [assumption|]. split; [assumption|].
  split; [assumption|]. split; [assumption|].
  intros H. rewrite Ht in H. discriminate H.
Qed.

Lemma try_body_inv m0 wall it l :
  Inv m0 l -> Live l -> try_ok m0 l (try_body ctx state wall it l).
Proof.
  intros Hinv Hlive. unfold try_body.
  pose proof (inv_posted m0 l Hinv) as Hp.
  pose proof (live_posted l Hlive) as Lp.
  destruct (posted_fields l) as (Pa & Pe & _).
  generalize dependent (posted ctx state l). intros p Hp Lp Pa Pe.
  destruct (answer it) as [e|cancel_after now|status detail|lines fin]; cbv zeta.
  - simpl. tauto.
  - set (l2 := if loading_notified p then p
               else emit (set_loading_notified p)
                      (EvSnack ("Model is loading... waiting."py))).
    assert (H2 : Inv m0 l2 /\ Live l2 /\ attempt l2 = attempt l /\ last_err l2 = last_err l).
    { unfold l2. destruct (loading_notified p).
      - tauto.
      - split; [exact Hp|]. split; [exact Lp|]. simpl. tauto. }
    destruct H2 as (I2 & L2 & A2 & E2).
    destruct cancel_after.
    + simpl. split; [|split; assumption].
      apply (inv_set_cancelled m0 (emit l2 EvClose)); assumption.
    + destruct (negb (Qle_bool now (wall + loading_wait_s)%Q)); simpl.
      * split; [exact I2|]. split; [exact L2|]. split; assumption.
      * split; [exact I2|]. split; [exact L2|]. split; assumption.
  - simpl. tauto.
  - destruct (read_lines_inv m0 lines p Hp Lp) as (R1 & R2 & R3 & R4).
    destruct (read_lines ctx state lines p) as [ex l2].
    simpl in R1, R2, R3, R4. rewrite Pa in R3. rewrite Pe in R4.
    destruct (flush_pending_spec l2)
      as (_ & _ & _ & _ & _ & Fle & Fa & _).
    destruct ex as [| | |e].
    + destruct fin as [|e].
      * simpl. rewrite Fle, Fa. split; [now apply inv_flush | tauto].
      * simpl. tauto.
    + simpl. rewrite Fle, Fa. split; [now apply inv_flush | tauto].
    + simpl. rewrite Fle, Fa. split; [now apply inv_flush | tauto].
    + simpl. tauto.
Qed.

Lemma handle_exception_inv m0 it opened exc l :
  Inv m0 l -> Live l ->
  handled_ok m0 it exc l (handle_exception ctx it opened exc l).
Proof.
  intros Hinv Hlive. unfold handle_exception, handled_ok.
  pose proof (inv_flush m0 l Hinv) as If.
  pose proof (live_flush l Hlive) as Lf.
  destruct (flush_pending_spec l)
    as (_ & _ & _ & _ & Fwc & Fle & Fa & _).
  destruct (handler_cancel it) eqn:Eh.
  - simpl. split; [now apply inv_set_cancelled|]. split; [assumption | tauto].
  - cbv zeta. cbn [attempt set_attempt_err].
    destruct (transient exc) eqn:Et; simpl andb.
    + destruct (Z.ltb_spec (attempt (flush_pending ctx l)) max_retries) as [Hlt|Hge].
      * cbn [fst snd].
        assert (Hi : Inv m0 (set_attempt_err
                      (set_attempt_err (flush_pending ctx l)
                         (attempt (flush_pending ctx l)) (Some exc))
                      (attempt (flush_pending ctx l) + 1) (Some exc))).
        { destruct If as (Hc & Ha & Hf & Hs & Hcont & Hdet).
          unfold Inv. simpl.
          split; [assumption|]. split; [lia|]. tauto. }
        destruct opened; simpl; rewrite Fa in *;
          (split; [exact Hi|]); (split; [exact Lf|]); repeat split; try lia.
      * cbn [fst snd]. simpl. split.
        -- destruct If as (Hc & Ha & Hf & Hs & Hcont & Hdet).
           unfold Inv. simpl. tauto.
        -- split; [assumption|]. destruct Lf as [Lw _]. rewrite Lw.
           split; discriminate.
    + cbn [fst snd]. simpl. split.
      * destruct If as (Hc & Ha & Hf & Hs & Hcont & Hdet).
        unfold Inv. simpl. tauto.
      * split; [assumption|]. destruct Lf as [Lw _]. rewrite Lw.
        split; discriminate.
Qed.

Lemma finally_fields opened r :
  fst (finally opened r) = fst r
  /\ attempt (snd (finally opened r)) = attempt (snd r)
  /\ was_cancelled (snd (finally opened r)) = was_cancelled (snd r)
  /\ last_err (snd (finally opened r)) = last_err (snd r).
Proof. unfold finally. destruct opened; simpl; tauto. Qed.

Lemma inv_finally m0 opened r :
  Inv m0 (snd r) -> Inv m0 (snd (finally opened r)).
Proof. unfold finally. destruct opened; intros H; exact H. Qed.

Lemma live_finally opened r :
  Live (snd r) -> Live (snd (finally opened r)).
Proof. unfold finally. destruct opened; intros H; exact H. Qed.

(** One iteration keeps the invariant; when it continues, the state is
    live and either no retry was counted or one was, for a transport
    failure outside any cancellation. *)
Lemma attempt_body_inv m0 wall it l :
  Inv m0 l -> Live l ->
  Inv m0 (snd (attempt_body ctx state wall it l))
  /\ (fst (attempt_body ctx state wall it l) = Continue ->
      Live (snd (attempt_body ctx state wall it l))
      /\ top_cancel it = false
      /\ (attempt (snd (attempt_body ctx state wall it l)) = attempt l
          \/ (attempt (snd (attempt_body ctx state wall it l)) = attempt l + 1
              /\ attempt l < max_retries
              /\ handler_cancel it = false
              /\ exists exc opened l0,
                   try_body ctx state wall it l = TryRaise exc opened l0
                   /\ transient exc = true))).
Proof.
  intros Hinv Hlive. unfold attempt_body.
  destruct (top_cancel it) eqn:Etop.
  - simpl. split; [now apply inv_set_cancelled | discriminate].
  - pose proof (try_body_inv m0 wall it l Hinv Hlive) as Ht.
    destruct (try_body ctx state wall it l) as [l'|l'|exc opened l'] eqn:Etry;
      simpl in Ht.
    + simpl. split; [tauto | discriminate].
    + simpl. destruct Ht as (I & L & A & E).
      split; [exact I|]. intros _. split; [exact L|]. split; [reflexivity|].
      left. exact A.
    + destruct Ht as (I & L & A & E).
      pose proof (handle_exception_inv m0 it opened exc l' I L) as Hh.
      unfold handled_ok in Hh.
      destruct (finally_fields opened (handle_exception ctx it opened exc l'))
        as (F1 & F2 & F3 & F4).
      rewrite F1, F2.
      destruct (fst (handle_exception ctx it opened exc l')) eqn:Ef.
      * destruct Hh as (I' & L' & A' & Hlt & Htr & Hc).
        split; [now apply inv_finally|]. intros _.
        split; [now apply live_finally|]. split; [reflexivity|].
        right. rewrite A', A. repeat split; try lia; try assumption.
        exists exc, opened, l'. split; [reflexivity | assumption].
      * destruct Hh as (I' & _). split; [now apply inv_finally | discriminate].
Qed.

Lemma attempts_inv m0 wall script : forall l,
  Inv m0 l -> Live l ->
  match attempts ctx state wall script l with
  | Finished l' => Inv m0 l'
  | Running l' => Inv m0 l' /\ Live l'
  end.
Proof.
  induction script as [|it rest IH]; intros l Hinv Hlive; simpl.
  - destruct (negb (attempt l <=? max_retries)); tauto.
  - destruct (negb (attempt l <=? max_retries)); [assumption|].
    destruct (attempt_body_inv m0 wall it l Hinv Hlive) as [I C].
    destruct (attempt_body ctx state wall it l) as [[|] l']; simpl in *.
    + apply IH; [assumption|]. now apply C.
    + assumption.
Qed.

Lemma attempts_app wall pre rest : forall l0 l,
  attempts ctx state wall pre l0 = Running l ->
  attempts ctx state wall (pre ++ rest) l0 = attempts ctx state wall rest l.
Proof.
  induction pre as [|it pre IH]; intros l0 l H; simpl in H.
  - destruct (negb (attempt l0 <=? max_retries)); [discriminate|].
    injection H as <-. reflexivity.
  - simpl. destruct (negb (attempt l0 <=? max_retries)); [discriminate|].
    destruct (attempt_body ctx state wall it l0) as [[|] l']; [|discriminate].
    now apply IH.
Qed.


(** The stream position only moves forward. *)
Lemma read_lines_received lines : forall l,
  exists more, received (snd (read_lines ctx state lines l)) = received l ++ more.
Proof.
  induction lines as [|ev rest IH]; intros l; simpl.
  - exists []. now rewrite app_nil_r.
  - destruct (cancel_seen ev); [exists []; simpl; now rewrite app_nil_r|].
    destruct (payload ev) as [| | |c]; try apply IH.
    + exists []. simpl. now rewrite app_nil_r.
    + destruct (Py.truthy c); simpl; [|apply IH].
      destruct (intercept ctx (append_chunk ctx state l ev c)) as [l2|] eqn:Ei.
      * simpl. exists c. unfold intercept in Ei.
        destruct (saw_tool_call _); [discriminate|].
        destruct (parse_tool_call ctx _); [|discriminate].
        destruct (match extract_first_json_object ctx with Some _ => _ | None => _ end);
          [|discriminate].
        destruct (Py.truthy _); [|discriminate].
        injection Ei as <-. reflexivity.
      * destruct (IH (debounce ctx (append_chunk ctx state l ev c) (t_now ev)))
          as [more Hm].
        destruct (debounce_fields (append_chunk ctx state l ev c) (t_now ev))
          as (_ & _ & D3).
        rewrite Hm, D3. simpl. exists (c ++ more). now rewrite app_assoc.
Qed.

Lemma flush_received l : received (flush_pending ctx l) = received l.
Proof. now destruct (flush_pending_spec l) as (_ & _ & _ & _ & _ & _ & _ & _ & _ & Fr & _). Qed.

Lemma attempt_body_received wall it l :
  exists more, received (snd (attempt_body ctx state wall it l)) = received l ++ more.
Proof.
  unfold attempt_body.
  destruct (top_cancel it); [exists []; simpl; now rewrite app_nil_r|].
  unfold try_body. destruct (posted_fields l) as (_ & _ & Pr).
  generalize dependent (posted ctx state l). intros p Pr. cbv zeta.
  destruct (answer it) as [e|cancel_after now|status detail|lines fin].
  - exists []. rewrite app_nil_r, <- Pr. unfold finally, handle_exception.
    destruct (handler_cancel it); simpl; [apply flush_received|].
    destruct (transient e && _); simpl; apply flush_received.
  - exists []. rewrite app_nil_r, <- Pr.
    destruct cancel_after; [destruct (loading_notified p); reflexivity|].
    destruct (negb _).
    + unfold finally, handle_exception.
      destruct (handler_cancel it); simpl;
        [rewrite flush_received; destruct (loading_notified p); reflexivity|].
      rewrite flush_received; destruct (loading_notified p); reflexivity.
    + destruct (loading_notified p); reflexivity.
  - exists []. rewrite app_nil_r, <- Pr. unfold finally, handle_exception.
    destruct (handler_cancel it); simpl; [apply flush_received|].
    apply flush_received.
  - destruct (read_lines_received lines p) as [more Hm].
    exists more. rewrite <- Pr, <- Hm.
    destruct (read_lines ctx state lines p) as [ex l2]. simpl.
    destruct ex as [| | |e]; [destruct fin as [|e]| | |];
      unfold finally, handle_exception; simpl; try apply flush_received;
      destruct (handler_cancel it); simpl; try apply flush_received;
      destruct (transient e && _); simpl; apply flush_received.
Qed.

End Facts.
End StreamFacts.

Module StreamClaims.
Import UiPrompt Backend ChatController StreamSpec StreamFacts PyFacts FenceFacts.

Lemma running_inv {W} (ctx : ChatContext W) state wall m pre l :
  attempts ctx state wall pre (init_locals m) = Running l ->
  Inv m l /\ Live l.
Proof.
  intros H. destruct (inv_init m) as [I L].
  pose proof (attempts_inv ctx state m wall pre (init_locals m) I L) as Hi.
  now rewrite H in Hi.
Qed.

Lemma cancel_at_breaks {W} (ctx : ChatContext W) state wall it l :
  cancel_at ctx state wall it l ->
  fst (attempt_body ctx state wall it l) = Break
  /\ was_cancelled (snd (attempt_body ctx state wall it l)) = true.
Proof.
  intros [Htop | (Htop & [(now & Hl) | [(lines1 & ev & lines2 & fin & la & Ha & Hr & Hc) | (exc & opened & l0 & Ht & Hh)]])];
    unfold attempt_body; rewrite Htop.
  - simpl. tauto.
  - unfold try_body. rewrite Hl. simpl. tauto.
  - unfold try_body. rewrite Ha. cbv zeta.
    rewrite (read_lines_app ctx state lines1 (ev :: lines2) _ la Hr).
    simpl. rewrite Hc. simpl. split; [reflexivity|].
    now destruct (flush_pending_spec ctx (set_cancelled la))
      as (_ & _ & _ & _ & -> & _).
  - rewrite Ht. unfold finally, handle_exception. rewrite Hh.
    destruct opened; simpl; tauto.
Qed.

(** C3.  When an iteration of a stream run reads the cancellation flag
    as set (at the top of the retry loop, in the loading wait, when a
    line arrives, or in the exception handler), the run returns without
    looking at what the transport would deliver next; its outcome is
    marked cancelled and carries no error; the buffers are empty and
    the message holds everything that had been written or buffered by
    then, followed by what the iteration read before the flag was seen. *)
Theorem C3_cancellation_ends_the_run_cleanly {W} (ctx : ChatContext W)
    state clk m pre it post l :
  attempts ctx state (wall_start clk) pre (init_locals m) = Running l ->
  cancel_at ctx state (wall_start clk) it l ->
  exists out l' st' more,
    stream_completion_into ctx state clk (pre ++ it :: post) m = Some (out, l', st')
    /\ out_was_cancelled out = true
    /\ out_error out = None
    /\ content (msg l') = content (msg l) ++ pending_raw l ++ more
    /\ content (msg l') = content m ++ received l'
    /\ or_empty (display_raw (msg l')) = or_empty (display_raw m) ++ shown l'
    /\ pending_raw l' = [] /\ pending_display l' = [].
Proof.
  intros Hrun Hcancel.
  destruct (running_inv ctx state _ m pre l Hrun) as [I L].
  destruct (cancel_at_breaks ctx state _ it l Hcancel) as [Hb Hw].
  destruct (attempt_body_inv ctx state m (wall_start clk) it l I L) as [I' _].
  destruct (attempt_body_received ctx state (wall_start clk) it l) as [more Hm].
  unfold stream_completion_into.
  rewrite (attempts_app ctx state _ pre (it :: post) _ l Hrun).
  simpl attempts.
  destruct I as (Hc & Ha & Hf & Hs & Hcont & Hdet).
  replace (negb (attempt l <=? max_retries)) with false
    by (symmetry; apply negb_false_iff, Z.leb_le; lia).
  destruct (attempt_body ctx state (wall_start clk) it l) as [c lb].
  simpl in Hb, Hw, I', Hm. subst c.
  destruct I' as (Hc' & Ha' & Hf' & Hs' & Hcont' & Hdet').
  assert (Htd : tool_call_detected lb = false).
  { destruct (tool_call_detected lb) eqn:E; [|reflexivity].
    destruct (Hdet' eq_refl) as (_ & _ & Hx). congruence. }
  destruct (Hcont' Htd) as [C1 C2].
  destruct (Hcont (proj2 L)) as [D1 _].
  destruct (flush_pending_spec ctx lb)
    as (Fc & Fd & Fpr & Fpd & _ & _ & _ & _ & _ & Fr & Fsh & _).
  eexists _, _, _, more. split; [reflexivity|].
  simpl. rewrite Hw.
  split; [reflexivity|].
  split; [destruct (last_err lb); reflexivity|].
  rewrite Fc, Fd, Fr, Fsh, Fpr, Fpd, C1, C2.
  split; [|tauto].
  rewrite Hm, app_assoc, <- D1, <- app_assoc. reflexivity.
Qed.

Lemma C3_cancellation_witness :
  exists out l' st' more,
    stream_completion_into demo_context demo_state (mkClock 10 1000 15)
      ([] ++ cancelled_iteration :: [mkIteration false (Streaming [] EndOfStream) false])
      fresh_model_msg = Some (out, l', st')
    /\ out_was_cancelled out = true
    /\ out_error out = None
    /\ content (msg l') = content (msg (init_locals fresh_model_msg))
                          ++ pending_raw (init_locals fresh_model_msg) ++ more
    /\ content (msg l') = content fresh_model_msg ++ received l'
    /\ or_empty (display_raw (msg l')) = or_empty (display_raw fresh_model_msg) ++ shown l'
    /\ pending_raw l' = [] /\ pending_display l' = [].
Proof.
  apply (C3_cancellation_ends_the_run_cleanly demo_context demo_state
           (mkClock 10 1000 15) fresh_model_msg [] cancelled_iteration).
  - reflexivity.
  - right. split; [reflexivity|]. right. left.
    exists [chunk ("Hel"py) 11], (mkLine true (LChunk ("lo"py)) 12 12), [], EndOfStream.
    eexists. split; [reflexivity|]. split; [vm_compute; reflexivity | reflexivity].
Defined.


(** *** Tool interception *)

Lemma lstrip_nonspace x s : Py.isspace x = false -> Py.lstrip (x :: s) = x :: s.
Proof. intros H. simpl. now rewrite H. Qed.

Lemma lstrip_head s :
  Py.lstrip s = [] \/ exists x t, Py.lstrip s = x :: t /\ Py.isspace x = false.
Proof.
  induction s as [|c s IH]; simpl; [now left|].
  destruct (Py.isspace c) eqn:E; [exact IH|].
  right. now exists c, s.
Qed.

Lemma lstrip_idem s : Py.lstrip (Py.lstrip s) = Py.lstrip s.
Proof.
  destruct (lstrip_head s) as [->|(x & t & -> & Hx)]; [reflexivity|].
  now apply lstrip_nonspace.
Qed.

Lemma rstrip_idem s : Py.rstrip (Py.rstrip s) = Py.rstrip s.
Proof. unfold Py.rstrip. now rewrite rev_involutive, lstrip_idem. Qed.

Lemma rstrip_keeps_head x t :
  Py.isspace x = false -> exists t', Py.rstrip (x :: t) = x :: t'.
Proof.
  intros Hx. unfold Py.rstrip. simpl.
  rewrite lstrip_app_nonspace by assumption.
  rewrite rev_app_distr. simpl. now eexists.
Qed.

Lemma strip_idem s : Py.strip (Py.strip s) = Py.strip s.
Proof.
  unfold Py.strip.
  destruct (lstrip_head s) as [->|(x & t & -> & Hx)]; [reflexivity|].
  destruct (rstrip_keeps_head x t Hx) as [t' E].
  rewrite E, (lstrip_nonspace x t' Hx), <- E. apply rstrip_idem.
Qed.

Lemma parse_some_extract text tc :
  UiText.parse_tool_call text = Some tc ->
  exists j, UiText._extract_first_json_object (Py.strip text) = Some j
            /\ Py.truthy j = true.
Proof.
  unfold UiText.parse_tool_call.
  destruct (UiText._extract_first_json_object (Py.strip text)) as [j|]; [|discriminate].
  destruct (Py.truthy j) eqn:E; [|discriminate]. intros _. now exists j.
Qed.

Lemma tc_tool_truthy tc : py_or (tc_tool tc) ("tool"py) = tc_tool tc.
Proof. destruct tc; reflexivity. Qed.

(** C6.  With the parser and the extractor wired as [app.py] wires
    them: when the chunk just appended makes the content of the message
    together with the raw buffer parse as a tool call, the read loop
    leaves at once, whatever lines would follow; the transport is
    closed; both buffers are dropped, so that no flush, then or later,
    shows the buffered text; and the message carries the extracted JSON
    text of the call and the status of its tool. *)
Theorem C6_tool_call_is_intercepted {W} preamble (tools : BackendTools W)
    state wall lines1 ev lines2 fin handler l0 la c tc :
  let ctx := app_context preamble tools in
  let l := posted ctx state l0 in
  let combined := Py.strip (content (msg la) ++ pending_raw la ++ c) in
  let status := tool_status_text_for (tc_tool tc) in
  read_lines ctx state lines1 l = (Exhausted, la) ->
  saw_tool_call la = false ->
  cancel_seen ev = false ->
  payload ev = LChunk c ->
  Py.truthy c = true ->
  UiText.parse_tool_call combined = Some tc ->
  exists j l',
    UiText._extract_first_json_object combined = Some j
    /\ read_lines ctx state (lines1 ++ ev :: lines2) l = (BreakToolCall, l')
    /\ pending_display l' = [] /\ pending_raw l' = []
    /\ log l' = log la ++ [EvMarkToolCallEarly status; EvClose]
    /\ tool_call_raw (msg l') = Some j
    /\ role (msg l') = RToolCall
    /\ content (msg l') = status
    /\ display_content (msg l') = Some status
    /\ flush_pending ctx l' = l'
    /\ attempt_body ctx state wall
         (mkIteration false (Streaming (lines1 ++ ev :: lines2) fin) handler) l0
       = (Break, emit l' EvClose).
Proof.
  intros ctx l combined status Hr Hsaw Hcancel Hpay Hc Hparse.
  destruct (parse_some_extract combined tc Hparse) as (j & Hj & Htj).
  unfold combined in Hj. rewrite strip_idem in Hj. fold combined in Hj.
  exists j. eexists. split; [exact Hj|].
  assert (Hread : forall rest,
            read_lines ctx state (lines1 ++ ev :: rest) l
            = (BreakToolCall,
               emit
                 (emit
                    (set_pending
                       (set_msg
                          {| first_token_time := first_token_time (append_chunk ctx state la ev c);
                             chars := chars (append_chunk ctx state la ev c);
                             was_cancelled := was_cancelled la;
                             pending_display := []; pending_raw := [];
                             last_flush := last_flush la; saw_tool_call := true;
                             tool_call_detected := true; attempt := attempt la;
                             last_err := last_err la;
                             loading_notified := loading_notified la;
                             msg := msg la; log := log la;
                             received := received la ++ c;
                             shown := shown (append_chunk ctx state la ev c) |}
                          (mark_tool_call_early (msg la) j status)) [] [])
                    (EvMarkToolCallEarly status)) EvClose)).
  { intros rest.
    rewrite (read_lines_app ctx state lines1 (ev :: rest) l la Hr).
    simpl read_lines. rewrite Hcancel, Hpay, Hc. simpl negb. cbv iota.
    unfold intercept.
    cbn [saw_tool_call append_chunk msg pending_raw]. rewrite Hsaw.
    cbn [parse_tool_call extract_first_json_object ctx app_context].
    fold combined. rewrite Hparse, Hj, Htj. rewrite tc_tool_truthy.
    reflexivity. }
  split; [apply Hread|].
  split; [reflexivity|]. split; [reflexivity|].
  split; [simpl; now rewrite <- app_assoc|].
  split; [reflexivity|]. split; [reflexivity|]. split; [reflexivity|].
  split; [reflexivity|]. split; [reflexivity|].
  unfold attempt_body, try_body. cbn [top_cancel answer]. cbv zeta.
  fold l. rewrite Hread. reflexivity.
Qed.

Lemma C6_interception_witness :
  exists j l',
    UiText._extract_first_json_object
      (Py.strip (content (msg (posted demo_context demo_state (init_locals fresh_model_msg)))
                 ++ pending_raw (posted demo_context demo_state (init_locals fresh_model_msg))
                 ++ call_chunk)) = Some j
    /\ read_lines demo_context demo_state
         ([] ++ chunk call_chunk 11 :: [chunk ("never read"py) 12])
         (posted demo_context demo_state (init_locals fresh_model_msg))
       = (BreakToolCall, l')
    /\ pending_display l' = [] /\ pending_raw l' = []
    /\ log l' = log (posted demo_context demo_state (init_locals fresh_model_msg))
                ++ [EvMarkToolCallEarly (tool_status_text_for (tc_tool (FsList ("."py) false 200)));
                    EvClose]
    /\ tool_call_raw (msg l') = Some j
    /\ role (msg l') = RToolCall
    /\ content (msg l') = tool_status_text_for (tc_tool (FsList ("."py) false 200))
    /\ display_content (msg l')
       = Some (tool_status_text_for (tc_tool (FsList ("."py) false 200)))
    /\ flush_pending demo_context l' = l'
    /\ attempt_body demo_context demo_state 1000
         (mkIteration false
            (Streaming ([] ++ chunk call_chunk 11 :: [chunk ("never read"py) 12])
               EndOfStream) false)
         (init_locals fresh_model_msg)
       = (Break, emit l' EvClose).
Proof.
  apply (C6_tool_call_is_intercepted ["SYSTEM: You are Assistant."py] no_tools demo_state
           1000 [] (chunk call_chunk 11) [chunk ("never read"py) 12] EndOfStream false
           (init_locals fresh_model_msg)
           (posted demo_context demo_state (init_locals fresh_model_msg)) call_chunk
           (FsList ("."py) false 200)).
  - reflexivity.
  - reflexivity.
  - reflexivity.
  - reflexivity.
  - reflexivity.
  - vm_compute. reflexivity.
Defined.


(** *** Retries *)

Lemma attempt_prompt_app {W} preamble (tools : BackendTools W) state l :
  let ctx := app_context preamble tools in
  let body := Py.join [10%N] (preamble ++ omap render_message (messages state ++ [msg l])) in
  (0 < attempt l -> attempt_prompt ctx state l = body ++ reconnect_directive)
  /\ (attempt l <= 0 -> attempt_prompt ctx state l = body ++ assistant_marker).
Proof.
  intros ctx body. unfold attempt_prompt.
  cbn [format_prompt ctx app_context]. unfold UiPrompt.format_prompt. fold body.
  split; intros Ha.
  - replace (0 <? attempt l) with true by (symmetry; apply Z.ltb_lt; lia).
    rewrite endswith_app. simpl andb. cbv iota.
    rewrite length_app, Nat.add_sub.
    rewrite firstn_app, Nat.sub_diag, firstn_all. simpl. now rewrite app_nil_r.
  - replace (0 <? attempt l) with false by (symmetry; apply Z.ltb_ge; lia).
    reflexivity.
Qed.

Lemma attempts_running_or_finished_inv {W} (ctx : ChatContext W) state wall m script :
  match attempts ctx state wall script (init_locals m) with
  | Finished l' | Running l' => Inv m l'
  end.
Proof.
  destruct (inv_init m) as [I L].
  pose proof (attempts_inv ctx state m wall script (init_locals m) I L) as H.
  destruct (attempts ctx state wall script (init_locals m)); tauto.
Qed.

(** C7.  The retry counter never leaves [0..2]; an iteration that goes
    round the loop again either counted no retry (the loading wait) or
    counted one, and then the request or the read had raised a
    transport exception, the budget was not used up and neither
    cancellation check had seen the flag; with the prompt of
    [ui_prompt.py], every request after a counted retry ends in the
    continue directive followed by the turn marker, where the first
    request ends in the plain turn marker; and unless a tool call was
    intercepted, the message finally holds its initial content followed
    by everything read in all attempts.  In the scenario of the
    specification the output is [Hello, world] after one retry. *)
Theorem C7_bounded_retries_with_continue_directive :
  (forall W (ctx : ChatContext W) state wall m script,
      match attempts ctx state wall script (init_locals m) with
      | Finished l' | Running l' => 0 <= attempt l' <= 2
      end)
  /\ (forall W (ctx : ChatContext W) state wall m pre it l,
      attempts ctx state wall pre (init_locals m) = Running l ->
      fst (attempt_body ctx state wall it l) = Continue ->
      top_cancel it = false
      /\ (attempt (snd (attempt_body ctx state wall it l)) = attempt l
          \/ (attempt (snd (attempt_body ctx state wall it l)) = attempt l + 1
              /\ attempt l < 2
              /\ handler_cancel it = false
              /\ exists exc opened l0,
                   try_body ctx state wall it l = TryRaise exc opened l0
                   /\ transient exc = true)))
  /\ (forall W preamble (tools : BackendTools W) state l,
      let body :=
        Py.join [10%N] (preamble ++ omap render_message (messages state ++ [msg l])) in
      (0 < attempt l ->
       attempt_prompt (app_context preamble tools) state l = body ++ reconnect_directive)
      /\ (attempt l <= 0 ->
          attempt_prompt (app_context preamble tools) state l = body ++ assistant_marker))
  /\ (forall W (ctx : ChatContext W) state clk script m out l' st',
      stream_completion_into ctx state clk script m = Some (out, l', st') ->
      tool_call_detected l' = false ->
      content (msg l') = content m ++ received l')
  /\ (exists out l' st' prompt,
      stream_completion_into demo_context demo_state (mkClock 10 1000 15)
        reconnect_script fresh_model_msg = Some (out, l', st')
      /\ content (msg l') = "Hello, world"py
      /\ received l' = "Hello, world"py
      /\ attempt l' = 1
      /\ In (EvPost 1 prompt) (log l')
      /\ Py.endswith reconnect_directive prompt = true
      /\ Py.contains ("ASSISTANT [10:00]: Hello, wo"py) prompt = true).
Proof.
  split; [|split; [|split; [|split]]].
  - intros W ctx state wall m script.
    pose proof (attempts_running_or_finished_inv ctx state wall m script) as H.
    destruct (attempts ctx state wall script (init_locals m));
      destruct H as (_ & Ha & _); exact Ha.
  - intros W ctx state wall m pre it l Hrun Hc.
    destruct (running_inv ctx state wall m pre l Hrun) as [I L].
    destruct (attempt_body_inv ctx state m wall it l I L) as [_ C].
    destruct (C Hc) as (_ & Htop & Hcases). split; [exact Htop|].
    destruct Hcases as [E|(E & Hlt & Hh & Hex)]; [now left|].
    right. repeat split; try assumption.
  - intros W preamble tools state l. apply attempt_prompt_app.
  - intros W ctx state clk script m out l' st' Hrun Htd.
    unfold stream_completion_into in Hrun.
    pose proof (attempts_running_or_finished_inv ctx state (wall_start clk) m script) as H.
    destruct (attempts ctx state (wall_start clk) script (init_locals m)) as [l|l];
      [|discriminate].
    injection Hrun as _ <- _.
    destruct (flush_pending_spec ctx l)
      as (Fc & _ & _ & _ & _ & _ & _ & _ & _ & Fr & _ & _ & Ftd & _).
    rewrite Ftd in Htd.
    destruct H as (_ & _ & _ & _ & Hcont & _).
    destruct (Hcont Htd) as [C1 _]. now rewrite Fc, Fr.
  - eexists _, _, _, _. split; [vm_compute; reflexivity|].
    split; [reflexivity|]. split; [reflexivity|]. split; [reflexivity|].
    split; [cbn [log]; do 6 right; left; reflexivity|].
    split; vm_compute; reflexivity.
Qed.

Lemma C7_retry_witness :
  top_cancel (nth 0 reconnect_script (mkIteration true (Streaming [] EndOfStream) true))
  = false.
Proof.
  apply (proj1 (proj2 C7_bounded_retries_with_continue_directive)
           unit demo_context demo_state 1000%Q fresh_model_msg []
           (nth 0 reconnect_script (mkIteration true (Streaming [] EndOfStream) true))
           (init_locals fresh_model_msg)).
  - reflexivity.
  - vm_compute. reflexivity.
Defined.


(** *** Statistics *)

Lemma max1_quot_div c k : 0 <= c -> k <> 0 -> Z.max 1 (Z.quot c k) = Z.max 1 (c / k).
Proof.
  intros Hc Hk. destruct (Z.lt_ge_cases 0 k) as [Hpos|Hneg].
  - now rewrite Z.quot_div_nonneg by lia.
  - assert (Hq : Z.quot c k <= 0).
    { destruct (Z.eq_dec c 0) as [->|Hc0]; [now rewrite Z.quot_0_l by lia|].
      pose proof (Z.quot_opp_r c (- k)) as Ho. rewrite Z.opp_involutive in Ho.
      specialize (Ho ltac:(lia)). rewrite Ho.
      pose proof (Z.quot_pos c (- k)). lia. }
    assert (Hd : c / k <= 0).
    { pose proof (Z.div_mod c k Hk) as Hdm.
      pose proof (Z.mod_neg_bound c k ltac:(lia)) as Hm. nia. }
    lia.
Qed.

(** C8 (as amended).  In the outcome of a stream run the generation
    time runs from the start of the run to its end, whether or not a
    token arrived; it is the session's generation time that grows by
    the milliseconds from the first-token time (the start time when
    nothing was read) to the end, and by no less than zero.  The
    character count is the number of characters read; the token count
    is zero when that is zero and otherwise the count divided by the
    characters per token (4 when the setting is 0), rounded down, and
    at least 1; the session's token count grows by it. *)
Theorem C8_outcome_times_and_token_estimate {W} (ctx : ChatContext W)
    state clk script m out l' st' :
  stream_completion_into ctx state clk script m = Some (out, l', st') ->
  let cpt := if chars_per_token ctx =? 0 then 4 else chars_per_token ctx in
  out_gen_seconds out = (end_time clk - start_time clk)%Q
  /\ session_gen_time_ms st'
     = (session_gen_time_ms state
        + Qmax 0 ((end_time clk - time_or (first_token_time l') (start_time clk)) * 1000))%Q
  /\ (received l' = [] <-> first_token_time l' = None)
  /\ time_or None (start_time clk) = start_time clk
  /\ (forall t, Qeq_bool t 0 = false -> time_or (Some t) (start_time clk) = t)
  /\ out_chars out = Py.len (received l')
  /\ out_tokens out
     = (if out_chars out =? 0 then 0 else Z.max 1 (out_chars out / cpt))
  /\ session_tokens st' = session_tokens state + out_tokens out.
Proof.
  intros Hrun cpt. unfold stream_completion_into in Hrun.
  pose proof (attempts_running_or_finished_inv ctx state (wall_start clk) m script) as H.
  destruct (attempts ctx state (wall_start clk) script (init_locals m)) as [l|l];
    [|discriminate].
  injection Hrun as <- <- <-.
  destruct (flush_pending_spec ctx l)
    as (_ & _ & _ & _ & _ & _ & _ & _ & Fft & Fr & _).
  destruct H as (Hc & _ & Hf & _).
  rewrite Fft, Fr. cbn [out_gen_seconds out_chars out_tokens session_tokens
                        session_gen_time_ms].
  split; [reflexivity|]. split; [reflexivity|].
  split; [symmetry; exact Hf|].
  split; [reflexivity|].
  split; [intros t Ht; unfold time_or; now rewrite Ht|].
  split; [exact Hc|].
  split; [|reflexivity].
  unfold token_count. destruct (chars l =? 0); [reflexivity|].
  apply max1_quot_div.
  - rewrite Hc. unfold Py.len. lia.
  - unfold cpt. destruct (Z.eqb_spec (chars_per_token ctx) 0); [lia | assumption].
Qed.

Lemma C8_outcome_witness :
  exists out,
    out_gen_seconds out = (15 - 10)%Q
    /\ out_chars out = 2 /\ out_tokens out = 1.
Proof.
  destruct (stream_completion_into demo_context demo_state (mkClock 10 1000 15)
              late_token_script fresh_model_msg) as [[[out l'] st']|] eqn:E;
    [|discriminate E].
  exists out.
  destruct (C8_outcome_times_and_token_estimate demo_context demo_state
              (mkClock 10 1000 15) late_token_script fresh_model_msg out l' st' E)
    as (H1 & _ & _ & _ & _ & H6 & H7 & _).
  vm_compute in E. injection E as <- <- <-.
  split; [exact H1|]. split; reflexivity.
Defined.

(** The outcome reports the five seconds since the start of the run,
    not the three seconds since the first token. *)
Lemma C8_gen_seconds_counterexample :
  exists out l' st',
    stream_completion_into demo_context demo_state (mkClock 10 1000 15)
      late_token_script fresh_model_msg = Some (out, l', st')
    /\ first_token_time l' = Some 12%Q
    /\ Qeq (out_gen_seconds out) 5
    /\ ~ Qeq (out_gen_seconds out) (15 - 12).
Proof.
  eexists _, _, _. split; [vm_compute; reflexivity|].
  split; [reflexivity|]. split; [reflexivity|].
  intros H. vm_compute in H. discriminate H.
Qed.

End StreamClaims.

(* ===================================================================== *)
(** * Facts about the agent loop and the dispatcher *)
(* ===================================================================== *)

Module AgentFacts.
Import UiPrompt Backend ChatController AgentSpec.

Section Facts.
Context {W : Type}.
Variable ctx : ChatContext W.
Variable state : State.

Lemma dispatched_app a b : dispatched (a ++ b) = dispatched a ++ dispatched b.
Proof. unfold dispatched. apply omap_app. Qed.

Lemma tool_round_dispatched tc w :
  dispatched (fst (tool_round ctx state tc w)) = [tc].
Proof.
  unfold tool_round. destruct (dispatch ctx state tc w) as [r w'].
  destruct r as [e|[md c]]; reflexivity.
Qed.

(** The loop dispatches at most as many calls as the budget holds. *)
Lemma agent_loop_bound rounds : forall b w evs w',
  0 <= b ->
  agent_loop ctx state b rounds w = Some (evs, w') ->
  Z.of_nat (length (dispatched evs)) <= b.
Proof.
  induction rounds as [|r rest IH]; intros b w evs w' Hb H; simpl in H.
  - discriminate.
  - destruct (Py.truthy _); [injection H as <- _; simpl; lia|].
    destruct (out_was_cancelled _); [injection H as <- _; simpl; lia|].
    destruct (parse_tool_call ctx _) as [tc|]; [|injection H as <- _; simpl; lia].
    destruct (Z.leb_spec b 0) as [Hle|Hgt]; [injection H as <- _; simpl; lia|].
    pose proof (tool_round_dispatched tc w) as Hd.
    destruct (tool_round ctx state tc w) as [evs1 w1]. simpl in Hd.
    destruct (agent_loop ctx state (b - 1) rest w1) as [[evs2 w2]|] eqn:E; [|discriminate].
    injection H as <- _.
    apply IH in E; [|lia].
    rewrite dispatched_app, length_app, Hd. simpl. lia.
Qed.

(** As long as calls are requested, the loop dispatches them until the
    budget is used up; the next request ends the turn. *)
Lemma agent_loop_requests rs : forall tcs b more w,
  0 <= b ->
  Forall2 (requests ctx) rs tcs ->
  length rs = S (Z.to_nat b) ->
  exists evs w',
    agent_loop ctx state b (rs ++ more) w
    = Some (evs ++ [AgBudgetExceeded budget_notice], w')
    /\ dispatched evs = firstn (Z.to_nat b) tcs.
Proof.
  induction rs as [|r rs IH]; intros tcs b more w Hb Hreq Hlen.
  - discriminate Hlen.
  - inversion Hreq as [|? tc ? tcs' (He & Hc & Hp) Hrest]; subst.
    simpl. rewrite He, Hc, Hp.
    destruct (Z.leb_spec b 0) as [Hle|Hgt].
    + assert (b = 0) by lia. subst b.
      exists [], w. split; reflexivity.
    + pose proof (tool_round_dispatched tc w) as Hd.
      destruct (tool_round ctx state tc w) as [evs1 w1]. simpl in Hd.
      destruct (IH tcs' (b - 1) more w1) as (evs2 & w2 & E & D).
      * lia.
      * assumption.
      * simpl in Hlen. injection Hlen as Hlen. rewrite Hlen.
        replace (Z.to_nat b) with (S (Z.to_nat (b - 1))) by lia. reflexivity.
      * rewrite E. exists (evs1 ++ evs2), w2. split.
        -- now rewrite <- app_assoc.
        -- rewrite dispatched_app, Hd, D.
           replace (Z.to_nat b) with (S (Z.to_nat (b - 1))) by lia. reflexivity.
Qed.


(** *** The write dispatcher over any backend *)

(** The backup scan issues the writes [bak_call n], [bak_call (n+1)],
    ... in order, none of them overwriting, asks nothing of the user,
    and stops within the attempts it is given. *)
Lemma write_unique_bak_io remaining : forall n rel_path content w,
  exists k,
    (k <= remaining)%nat
    /\ io (snd (write_unique_bak_from ctx remaining n rel_path content w))
       = io w ++ map (bak_call rel_path content) (seq n k)
    /\ answers (snd (write_unique_bak_from ctx remaining n rel_path content w)) = answers w.
Proof.
  induction remaining as [|rem IH]; intros n rel_path content w;
    cbn [write_unique_bak_from].
  - exists 0%nat. cbn [snd seq map]. rewrite app_nil_r. repeat split. lia.
  - unfold call_fs_write.
    destruct (fs_write (backend_tools ctx) (backend w) (rel_path ++ bak_suffix n) content false)
      as [[exc|out] b].
    + destruct (is_conflict (text exc)).
      * match goal with |- context [write_unique_bak_from ctx rem (S n) rel_path content ?w1] =>
          destruct (IH (S n) rel_path content w1) as (k & Hk & Hw & Ha)
        end.
        exists (S k). rewrite Hw, Ha. cbn [io answers seq map]. rewrite <- app_assoc.
        repeat split. lia.
      * exists 1%nat. cbn [snd io answers seq map]. repeat split. lia.
    + exists 1%nat. cbn [snd io answers seq map]. repeat split. lia.
Qed.

Lemma call_fs_write_eq w path content ow :
  call_fs_write ctx w path content ow
  = (fst (fs_write (backend_tools ctx) (backend w) path content ow),
     after_write w (snd (fs_write (backend_tools ctx) (backend w) path content ow))
       (mkWriteCall path content ow)).
Proof.
  unfold call_fs_write.
  destruct (fs_write (backend_tools ctx) (backend w) path content ow). reflexivity.
Qed.

(** [dispatch_fs_write] by cases on the first write and on the answer. *)
Lemma dispatch_fs_write_eq path content ow w :
  tool_fs_enabled state = true ->
  dispatch_fs_write ctx state path content ow w
  = match call_fs_write ctx w path content false with
    | (inr out, w1) => (inr out, w1)
    | (inl exc, w1) =>
        if is_conflict (text exc) then
          match first_answer w1 with
          | Some ChooseOverwrite =>
              call_fs_write ctx (after_prompt ow path w1) path content true
          | Some ChooseBak =>
              _write_unique_bak ctx path content (after_prompt ow path w1)
          | Some ChooseCancel | None =>
              (inr (cancelled_output path), after_prompt ow path w1)
          end
        else (inl exc, w1)
    end.
Proof.
  intros Hen. unfold dispatch_fs_write. rewrite Hen.
  change (negb true) with false. cbv iota.
  destruct (call_fs_write ctx w path content false) as [[exc|out] w1]; [|reflexivity].
  destruct (is_conflict (text exc)); [|reflexivity].
  change (negb true) with false. cbv iota.
  unfold _prompt_write_conflict, after_prompt, conflict_prompt, first_answer.
  fold (conflict_note ow).
  destruct (answers w1) as [|[c|] rest]; [reflexivity| |reflexivity].
  destruct c; reflexivity.
Qed.

(** With the file tools switched off nothing is written or asked. *)
Lemma dispatch_fs_write_disabled path content ow w :
  tool_fs_enabled state = false ->
  dispatch_fs_write ctx state path content ow w = (inl fs_disabled, w).
Proof. intros Hen. unfold dispatch_fs_write. now rewrite Hen. Qed.

(** What one dispatched [fs_write] does to the outside: the first write
    never overwrites; what follows it is nothing, or the dialog and then
    what its answer asks for. *)
Lemma dispatch_fs_write_log path content ow w :
  tool_fs_enabled state = true ->
  let r := dispatch_fs_write ctx state path content ow w in
  exists later,
    io (snd r) = io w ++ IoWrite (mkWriteCall path content false) :: later
    /\ (later = []
        \/ (answers (snd r) = tl (answers w)
            /\ ((first_answer w = Some ChooseOverwrite
                 /\ later = [IoPrompt (conflict_prompt ow path) (Some ChooseOverwrite);
                             IoWrite (mkWriteCall path content true)])
                \/ (first_answer w = Some ChooseBak
                    /\ exists k, (k <= bak_attempts)%nat
                                 /\ later = IoPrompt (conflict_prompt ow path) (Some ChooseBak)
                                            :: map (bak_call path content) (seq 0 k))
                \/ ((first_answer w = None \/ first_answer w = Some ChooseCancel)
                    /\ later = [IoPrompt (conflict_prompt ow path) (first_answer w)]
                    /\ fst r = inr (cancelled_output path))))).
Proof.
  intros Hen r. unfold r. rewrite (dispatch_fs_write_eq path content ow w Hen).
  rewrite call_fs_write_eq.
  destruct (fs_write (backend_tools ctx) (backend w) path content false) as [[exc|out] b].
  2:{ exists []. cbn [fst snd io after_write]. split; [reflexivity|]. now left. }
  cbn [fst snd].
  destruct (is_conflict (text exc)).
  2:{ exists []. cbn [fst snd io after_write]. split; [reflexivity|]. now left. }
  set (w1 := after_write w b (mkWriteCall path content false)).
  assert (Hfa : first_answer w1 = first_answer w) by reflexivity.
  destruct (first_answer w1) as [[| |]|] eqn:Ea; rewrite <- Hfa.
  - eexists. cbn [fst snd io answers after_prompt after_write w1].
    rewrite <- app_assoc. cbn [app]. rewrite Ea.
    split; [reflexivity|]. right. split; [reflexivity|]. right. right.
    split; [now right|]. split; reflexivity.
  - unfold _write_unique_bak.
    destruct (write_unique_bak_io bak_attempts 0 path content (after_prompt ow path w1))
      as (k & Hk & Hwr & Han).
    eexists. rewrite Hwr, Han.
    cbn [io answers after_prompt after_write w1].
    rewrite <- !app_assoc. cbn [app]. rewrite Ea.
    split; [reflexivity|]. right. split; [reflexivity|]. right. left.
    split; [reflexivity|]. now exists k.
  - rewrite call_fs_write_eq.
    eexists. cbn [fst snd io answers after_prompt after_write w1 backend].
    rewrite <- !app_assoc. cbn [app]. rewrite Ea.
    split; [reflexivity|]. right. split; [reflexivity|]. left. split; reflexivity.
  - eexists. cbn [fst snd io answers after_prompt after_write w1].
    rewrite <- app_assoc. cbn [app]. rewrite Ea.
    split; [reflexivity|]. right. split; [reflexivity|]. right. right.
    split; [now left|]. split; reflexivity.
Qed.

End Facts.

(** *** The write dispatcher over the file store *)

Section Files.
Variable safe_join : Py.str -> http_error + Py.str.
Variable elapsed_ms : nat.
Variable ctx : ChatContext store.
Variable state : State.
Hypothesis Hctx : fs_write (backend_tools ctx) = client_fs_write safe_join elapsed_ms.

(** A write that must not overwrite is refused for an existing file,
    and the store stays as it is. *)
Lemma client_conflict fs p c key old :
  safe_join p = inr key -> fs !! key = Some (File old) ->
  client_fs_write safe_join elapsed_ms fs p c false = (inl exists_error, fs).
Proof.
  intros Hj Hf. unfold client_fs_write, files_write. rewrite Hj, Hf. reflexivity.
Qed.

Lemma exists_error_is_conflict : is_conflict (text exists_error) = true.
Proof. vm_compute. reflexivity. Qed.

(** A write to a free name creates the file. *)
Lemma client_fresh fs p c key :
  safe_join p = inr key -> fs !! key = None -> utf8_len c <= 5000000 ->
  exists out,
    client_fs_write safe_join elapsed_ms fs p c false
    = (inr out, <[key := File c]> fs).
Proof.
  intros Hj Hf Hc. unfold client_fs_write, files_write. rewrite Hj, Hf.
  destruct (Z.ltb_spec 5000000 (utf8_len c)) as [Hlt|_]; [lia|].
  eexists. reflexivity.
Qed.

(** A write that must not overwrite leaves every existing entry alone. *)
Lemma client_keeps fs p c key v :
  fs !! key = Some v ->
  snd (client_fs_write safe_join elapsed_ms fs p c false) !! key = Some v.
Proof.
  intros Hf. unfold client_fs_write, files_write.
  destruct (safe_join p) as [e|k]; [exact Hf|].
  destruct (fs !! k) as [[old|]|] eqn:Ek; try exact Hf.
  destruct (5000000 <? utf8_len c); [exact Hf|].
  cbn [snd]. apply lookup_insert_Some. right. split; [|exact Hf].
  intros ->. rewrite Ek in Hf. discriminate.
Qed.

(** The scan leaves every existing entry alone. *)
Lemma scan_keeps remaining : forall n rel_path content (w : World store) key v,
  backend w !! key = Some v ->
  backend (snd (write_unique_bak_from ctx remaining n rel_path content w)) !! key = Some v.
Proof.
  induction remaining as [|rem IH]; intros n rel_path content w key v Hf;
    cbn [write_unique_bak_from].
  - exact Hf.
  - rewrite call_fs_write_eq, Hctx.
    pose proof (client_keeps (backend w) (rel_path ++ bak_suffix n) content key v Hf) as Hk.
    destruct (client_fs_write safe_join elapsed_ms (backend w) (rel_path ++ bak_suffix n)
                content false) as [[exc|out] b]; cbn [fst snd] in *.
    + destruct (is_conflict (text exc)); [apply IH|]; exact Hk.
    + exact Hk.
Qed.

(** While the names are taken the scan goes on; the first free name
    within the attempts is written. *)
Lemma scan_found d : forall remaining n rel_path content (w : World store) km,
  (d < remaining)%nat ->
  (forall i, (n <= i < n + d)%nat -> taken safe_join (backend w) rel_path i) ->
  safe_join (rel_path ++ bak_suffix (n + d)) = inr km ->
  backend w !! km = None ->
  utf8_len content <= 5000000 ->
  exists out,
    write_unique_bak_from ctx remaining n rel_path content w
    = (inr out,
       {| backend := <[km := File content]> (backend w); answers := answers w;
          io := io w ++ map (bak_call rel_path content) (seq n (S d)) |}).
Proof.
  induction d as [|d IH]; intros remaining n rel_path content w km Hd Htaken Hj Hfree Hc;
    (destruct remaining as [|rem]; [lia|]); cbn [write_unique_bak_from];
    rewrite call_fs_write_eq, Hctx.
  - rewrite Nat.add_0_r in Hj.
    destruct (client_fresh (backend w) _ content km Hj Hfree Hc) as (out & ->).
    exists out. reflexivity.
  - destruct (Htaken n ltac:(lia)) as (key & old & Hkj & Hkf).
    rewrite (client_conflict (backend w) _ content key old Hkj Hkf).
    cbn [fst snd]. rewrite exists_error_is_conflict.
    destruct (IH rem (S n) rel_path content
                (after_write w (backend w)
                   (mkWriteCall (rel_path ++ bak_suffix n) content false)) km)
      as (out & ->).
    + lia.
    + intros i Hi. apply Htaken. lia.
    + now replace (S n + d)%nat with (n + S d)%nat by lia.
    + exact Hfree.
    + exact Hc.
    + exists out. cbn [backend answers io after_write].
      rewrite <- app_assoc. reflexivity.
Qed.

(** With every name taken the scan gives up after its attempts and has
    changed nothing. *)
Lemma scan_exhausted remaining : forall n rel_path content (w : World store),
  (forall i, (n <= i < n + remaining)%nat -> taken safe_join (backend w) rel_path i) ->
  write_unique_bak_from ctx remaining n rel_path content w
  = (inl exhausted_error,
     {| backend := backend w; answers := answers w;
        io := io w ++ map (bak_call rel_path content) (seq n remaining) |}).
Proof.
  induction remaining as [|rem IH]; intros n rel_path content w Htaken;
    cbn [write_unique_bak_from].
  - cbn [seq map]. rewrite app_nil_r. destruct w; reflexivity.
  - rewrite call_fs_write_eq, Hctx.
    destruct (Htaken n ltac:(lia)) as (key & old & Hkj & Hkf).
    rewrite (client_conflict (backend w) _ content key old Hkj Hkf).
    cbn [fst snd]. rewrite exists_error_is_conflict.
    rewrite IH.
    + cbn [backend answers io after_write seq map]. rewrite <- app_assoc. reflexivity.
    + intros i Hi. apply Htaken. cbn [backend after_write] in *. lia.
Qed.

(** The dispatcher on an existing file: the first write is refused and
    the answer to the dialog decides. *)
Lemma dispatch_conflict path content key old ow (w : World store) :
  tool_fs_enabled state = true ->
  safe_join path = inr key ->
  backend w !! key = Some (File old) ->
  dispatch_fs_write ctx state path content ow w
  = let w2 :=
      after_prompt ow path
        (after_write w (backend w) (mkWriteCall path content false)) in
    match first_answer w with
    | Some ChooseOverwrite => call_fs_write ctx w2 path content true
    | Some ChooseBak => write_unique_bak_from ctx bak_attempts 0 path content w2
    | Some ChooseCancel | None => (inr (cancelled_output path), w2)
    end.
Proof.
  intros Hen Hj Hf.
  rewrite (dispatch_fs_write_eq ctx state path content ow w Hen).
  rewrite call_fs_write_eq, Hctx, (client_conflict _ _ content _ _ Hj Hf).
  cbn [fst snd]. rewrite exists_error_is_conflict. reflexivity.
Qed.

End Files.

(** *** The log of a dispatched write *)

Lemma bak_call_no_overwrite path content c l :
  In (IoWrite c) (map (bak_call path content) l) -> wc_overwrite c = false.
Proof.
  intros Hin. apply in_map_iff in Hin as (i & Hi & _).
  injection Hi as <-. reflexivity.
Qed.

(** In such a log a write that overwrites comes last, after the first
    write and after the dialog answered with overwrite. *)
Lemma write_log_overwrite path content ow answer new before c after :
  write_log path content ow answer new ->
  new = before ++ IoWrite c :: after ->
  wc_overwrite c = true ->
  answer = Some ChooseOverwrite
  /\ before = [IoWrite (mkWriteCall path content false);
               IoPrompt (conflict_prompt ow path) (Some ChooseOverwrite)]
  /\ c = mkWriteCall path content true
  /\ after = [].
Proof.
  intros Hlog Hnew Hc.
  assert (Hin : In (IoWrite c) new).
  { rewrite Hnew. apply in_or_app. right. now left. }
  destruct Hlog as [| |Ha|k Ha Hk|Ha].
  - destruct Hin.
  - destruct Hin as [E|[]]. injection E as <-. discriminate Hc.
  - destruct Hin as [E|[E|[]]]; [injection E as <-|]; discriminate.
  - destruct Hin as [E|[E|Hin]]; [injection E as <-; discriminate|discriminate|].
    apply bak_call_no_overwrite in Hin. congruence.
  - subst answer.
    destruct before as [|e1 [|e2 [|e3 before]]]; cbn [app] in Hnew.
    + injection Hnew as <- _. discriminate Hc.
    + injection Hnew as _ E _. discriminate E.
    + injection Hnew as <- <- <- <-. repeat split.
    + injection Hnew as _ _ _ E. now destruct before.
Qed.

End AgentFacts.

Module AgentClaims.
Import UiPrompt Backend ChatController AgentSpec AgentFacts.

Lemma tool_round_no_notice {W} (ctx : ChatContext W) state tc w n :
  ~ In (AgBudgetExceeded n) (fst (tool_round ctx state tc w)).
Proof.
  unfold tool_round. destruct (dispatch ctx state tc w) as [r w'].
  cbn [fst app]. intros [E|[E|[E|[E|[]]]]]; try discriminate E.
  destruct r as [e|[md c]]; discriminate E.
Qed.

(** The notice appears only once the whole budget has been dispatched. *)
Lemma notice_after_budget {W} (ctx : ChatContext W) state rounds : forall b w evs w' n,
  0 <= b ->
  agent_loop ctx state b rounds w = Some (evs, w') ->
  In (AgBudgetExceeded n) evs ->
  length (dispatched evs) = Z.to_nat b.
Proof.
  induction rounds as [|r rest IH]; intros b w evs w' n Hb H Hin; simpl in H.
  - discriminate.
  - destruct (Py.truthy _).
    { injection H as <- _. destruct Hin as [E|[]]. discriminate E. }
    destruct (out_was_cancelled _).
    { injection H as <- _. destruct Hin as [E|[]]. discriminate E. }
    destruct (parse_tool_call ctx _) as [tc|].
    2:{ injection H as <- _. destruct Hin as [E|[]]. discriminate E. }
    destruct (Z.leb_spec b 0) as [Hle|Hgt].
    { injection H as <- _. simpl. lia. }
    pose proof (tool_round_dispatched ctx state tc w) as Hd.
    pose proof (tool_round_no_notice ctx state tc w n) as Hn.
    destruct (tool_round ctx state tc w) as [evs1 w1]. cbn [fst] in Hd, Hn.
    destruct (agent_loop ctx state (b - 1) rest w1) as [[evs2 w2]|] eqn:E; [|discriminate].
    injection H as <- _.
    apply in_app_or in Hin as [Hin|Hin]; [contradiction|].
    rewrite dispatched_app, length_app, Hd.
    assert (Hb' : 0 <= b - 1) by lia.
    rewrite (IH _ _ _ _ n Hb' E Hin). simpl. lia.
Qed.

(** C2.  A turn starts with a tool budget of 8, and every dispatched
    call takes one from it: no run of the agent loop dispatches more
    than 8 calls, and the budget notice appears only after exactly 8
    dispatches.  When nine rounds in a row ask for a tool call, the
    first eight calls are dispatched, in order, and the ninth round ends
    the turn with the budget notice and without a dispatch. *)
Theorem C2_tool_budget_of_eight_calls {W} (ctx : ChatContext W) (state : State) :
  tool_budget_init = 8
  /\ (forall rounds w evs w',
        agent_worker ctx state rounds w = Some (evs, w') ->
        (length (dispatched evs) <= 8)%nat
        /\ (forall n, In (AgBudgetExceeded n) evs -> length (dispatched evs) = 8%nat))
  /\ (forall rs tcs more w,
        Forall2 (requests ctx) rs tcs ->
        length rs = 9%nat ->
        exists evs w',
          agent_worker ctx state (rs ++ more) w
          = Some (evs ++ [AgBudgetExceeded budget_notice], w')
          /\ dispatched (evs ++ [AgBudgetExceeded budget_notice]) = firstn 8 tcs
          /\ length (dispatched evs) = 8%nat).
Proof.
  split; [reflexivity|]. split.
  - intros rounds w evs w' H. unfold agent_worker in H. split.
    + apply agent_loop_bound in H; [|unfold tool_budget_init; lia].
      unfold tool_budget_init in H. lia.
    + intros n Hin.
      assert (Hb : 0 <= tool_budget_init) by (unfold tool_budget_init; lia).
      now rewrite (notice_after_budget ctx state rounds _ w evs w' n Hb H Hin).
  - intros rs tcs more w Hreq Hlen.
    destruct (agent_loop_requests ctx state rs tcs tool_budget_init more w)
      as (evs & w' & Hrun & Hd).
    + unfold tool_budget_init. lia.
    + exact Hreq.
    + rewrite Hlen. reflexivity.
    + exists evs, w'. split; [exact Hrun|].
      change (Z.to_nat tool_budget_init) with 8%nat in Hd.
      rewrite dispatched_app, Hd. cbn [dispatched omap]. rewrite app_nil_r.
      split; [reflexivity|].
      rewrite length_firstn. apply Forall2_length in Hreq. lia.
Qed.

Lemma C2_tool_budget_witness :
  exists evs w',
    agent_worker files_context files_state (nine_requests ++ []) (demo_world [])
    = Some (evs ++ [AgBudgetExceeded budget_notice], w')
    /\ dispatched (evs ++ [AgBudgetExceeded budget_notice])
       = firstn 8 (repeat (FsList ("."py) false 200) 9)
    /\ length (dispatched evs) = 8%nat.
Proof.
  apply (proj2 (proj2 (C2_tool_budget_of_eight_calls files_context files_state))).
  - unfold nine_requests. cbn [repeat].
    repeat (constructor; [repeat split; vm_compute; reflexivity|]).
    constructor.
  - reflexivity.
Defined.

(** C9.  When [/files/write] refuses the first write because the
    target exists, the dispatcher shows the conflict dialog and waits
    for it with a timeout of 180 seconds; without an answer in time, as
    on cancel, nothing is written.  On the answer bak the write is tried
    on [name.bak], [name.bak.1], [name.bak.2], ... without overwriting:
    the first free name among the first 50 receives the content, and
    when all 50 are taken the scan fails and the store is as before; the
    original file keeps its content in every case. *)
Theorem C9_conflict_dialog_and_backup_scan
    (safe_join : Py.str -> http_error + Py.str) (elapsed_ms : nat)
    (ctx : ChatContext store) (state : State)
    (path content key old : Py.str) (ow : bool) (w : World store) :
  fs_write (backend_tools ctx) = client_fs_write safe_join elapsed_ms ->
  tool_fs_enabled state = true ->
  safe_join path = inr key ->
  backend w !! key = Some (File old) ->
  let r := dispatch_fs_write ctx state path content ow w in
  let first := IoWrite (mkWriteCall path content false) in
  let dialog := IoPrompt (conflict_prompt ow path) (first_answer w) in
  prompt_timeout (conflict_prompt ow path) = 180
  /\ bak_attempts = 50%nat
  /\ map bak_suffix [0; 1; 2]%nat = [".bak"py; ".bak.1"py; ".bak.2"py]
  /\ (exists rest, io (snd r) = io w ++ first :: dialog :: rest)
  /\ ((first_answer w = None \/ first_answer w = Some ChooseCancel) ->
      r = (inr (cancelled_output path),
           {| backend := backend w; answers := tl (answers w);
              io := io w ++ [first; dialog] |}))
  /\ (first_answer w = Some ChooseBak ->
      backend (snd r) !! key = Some (File old)
      /\ (forall n kn,
            (n < bak_attempts)%nat ->
            (forall i, (i < n)%nat -> taken safe_join (backend w) path i) ->
            safe_join (path ++ bak_suffix n) = inr kn ->
            backend w !! kn = None ->
            utf8_len content <= 5000000 ->
            exists out,
              r = (inr out,
                   {| backend := <[kn := File content]> (backend w);
                      answers := tl (answers w);
                      io := io w ++ first :: dialog
                                 :: map (bak_call path content) (seq 0 (S n)) |}))
      /\ ((forall i, (i < bak_attempts)%nat -> taken safe_join (backend w) path i) ->
          r = (inl exhausted_error,
               {| backend := backend w; answers := tl (answers w);
                  io := io w ++ first :: dialog
                             :: map (bak_call path content) (seq 0 bak_attempts) |}))).
Proof.
  intros Hctx Hen Hj Hf r first dialog. unfold r.
  rewrite (dispatch_conflict safe_join elapsed_ms ctx state Hctx
             path content key old ow w Hen Hj Hf).
  cbv zeta.
  set (w2 := after_prompt ow path
               (after_write w (backend w) (mkWriteCall path content false))).
  assert (Hio : io w2 = io w ++ [first; dialog]).
  { unfold w2. cbn [io after_prompt after_write]. now rewrite <- app_assoc. }
  assert (Hb : backend w2 = backend w) by reflexivity.
  assert (Ha : answers w2 = tl (answers w)) by reflexivity.
  split; [reflexivity|]. split; [reflexivity|]. split; [vm_compute; reflexivity|].
  split; [|split].
  - destruct (first_answer w) as [[| |]|].
    + exists []. exact Hio.
    + destruct (write_unique_bak_io ctx bak_attempts 0 path content w2)
        as (k & _ & Hk & _).
      rewrite Hk, Hio, <- app_assoc. eexists. reflexivity.
    + rewrite call_fs_write_eq. cbn [snd io after_write].
      rewrite Hio, <- app_assoc. eexists. reflexivity.
    + exists []. exact Hio.
  - intros [E|E]; rewrite E; (f_equal; destruct w2; cbn [io backend answers] in *;
      now subst).
  - intros E. rewrite E. split; [|split].
    + apply (scan_keeps safe_join elapsed_ms ctx Hctx). rewrite Hb. exact Hf.
    + intros n kn Hn Htaken Hkj Hfree Hc.
      destruct (scan_found safe_join elapsed_ms ctx Hctx n bak_attempts 0
                  path content w2 kn Hn) as (out & ->).
      * intros i Hi. rewrite Hb. apply Htaken. lia.
      * exact Hkj.
      * rewrite Hb. exact Hfree.
      * exact Hc.
      * exists out. rewrite Hb, Ha, Hio, <- app_assoc. reflexivity.
    + intros Htaken.
      rewrite (scan_exhausted safe_join elapsed_ms ctx Hctx).
      * rewrite Hb, Ha, Hio, <- app_assoc. reflexivity.
      * intros i Hi. rewrite Hb. apply Htaken. lia.
Qed.

Lemma C9_backup_scan_witness :
  exists out,
    dispatch_fs_write files_context files_state ("todo.txt"py) ("new"py) true
      (demo_world [Some ChooseBak])
    = (inr out,
       {| backend := <["todo.txt.bak.2"py := File ("new"py)]> demo_store;
          answers := [];
          io := [IoWrite (mkWriteCall ("todo.txt"py) ("new"py) false);
                 IoPrompt (conflict_prompt true ("todo.txt"py)) (Some ChooseBak);
                 bak_call ("todo.txt"py) ("new"py) 0;
                 bak_call ("todo.txt"py) ("new"py) 1;
                 bak_call ("todo.txt"py) ("new"py) 2] |}).
Proof.
  pose proof (C9_conflict_dialog_and_backup_scan plain_join 3 files_context files_state
                ("todo.txt"py) ("new"py) ("todo.txt"py) ("old"py) true
                (demo_world [Some ChooseBak])) as H.
  destruct H as (_ & _ & _ & _ & _ & H).
  - reflexivity.
  - reflexivity.
  - reflexivity.
  - vm_compute. reflexivity.
  - destruct (H eq_refl) as (_ & Hfound & _).
    apply (Hfound 2%nat ("todo.txt.bak.2"py)).
    + unfold bak_attempts. lia.
    + intros i Hi. unfold taken, plain_join.
      destruct i as [|[|i]]; [| |lia].
      * exists ("todo.txt.bak"py), ("b0"py). split; vm_compute; reflexivity.
      * exists ("todo.txt.bak.1"py), ("b1"py). split; vm_compute; reflexivity.
    + vm_compute. reflexivity.
    + vm_compute. reflexivity.
    + vm_compute. discriminate.
Defined.

(** A write call without an [overwrite] field asks to overwrite. *)
Lemma absent_overwrite_is_true o args p c ow :
  Json.dict_get_none ("args"py) o = Json.JDict args ->
  Json.dict_get ("overwrite"py) args = None ->
  tool_call_of_value (Json.JDict o) = Some (FsWrite p c ow) ->
  ow = true.
Proof.
  intros Hargs Hno H.
  rewrite (ValidationFacts.tool_call_of_value_validate o args Hargs) in H.
  unfold Grammar.validate in H.
  destruct (str_eq _ _).
  { destruct (nonblank_str _); discriminate H. }
  destruct (str_eq _ _); [discriminate H|].
  destruct (str_eq _ _).
  { destruct (nonblank_str _); discriminate H. }
  destruct (str_eq _ _).
  - destruct (nonblank_str _); [|discriminate H].
    destruct (Grammar.write_content _ _); [|discriminate H].
    injection H as _ _ <-.
    unfold Json.dict_get_default. now rewrite Hno.
  - destruct (str_eq _ _); [|discriminate H].
    destruct (nonblank_str _); discriminate H.
Qed.

(** C10.  The parser turns a write call without an [overwrite] field
    into one that asks to overwrite.  Whatever the call asks for, a
    dispatched [fs_write] adds to the log nothing (file tools switched
    off) or a first write with [overwrite=False]; when the backend
    refuses that write as a conflict, as [/files/write] does for an
    existing file, the dialog follows at once; and a write with
    [overwrite=True] occurs only as the last event, for the requested
    path and content, after the dialog was answered with overwrite. *)
Theorem C10_first_write_never_overwrites :
  UiText.parse_tool_call write_call_text = Some (FsWrite ("todo.txt"py) ("new"py) true)
  /\ (forall o args p c ow,
        Json.dict_get_none ("args"py) o = Json.JDict args ->
        Json.dict_get ("overwrite"py) args = None ->
        tool_call_of_value (Json.JDict o) = Some (FsWrite p c ow) ->
        ow = true)
  /\ (forall W (ctx : ChatContext W) state path content ow w,
        let r := dispatch ctx state (FsWrite path content ow) w in
        let first := IoWrite (mkWriteCall path content false) in
        let dialog := IoPrompt (conflict_prompt ow path) (first_answer w) in
        (exists new,
            io (snd r) = io w ++ new
            /\ write_log path content ow (first_answer w) new
            /\ (tool_fs_enabled state = true -> exists later, new = first :: later)
            /\ (forall before c after,
                  new = before ++ IoWrite c :: after ->
                  wc_overwrite c = true ->
                  first_answer w = Some ChooseOverwrite
                  /\ before = [first; dialog]
                  /\ c = mkWriteCall path content true
                  /\ after = []))
        /\ (forall exc b,
              tool_fs_enabled state = true ->
              fs_write (backend_tools ctx) (backend w) path content false = (inl exc, b) ->
              is_conflict (text exc) = true ->
              exists rest, io (snd r) = io w ++ first :: dialog :: rest))
  /\ (forall safe_join elapsed_ms (ctx : ChatContext store) state
             path content key old ow w,
        fs_write (backend_tools ctx) = client_fs_write safe_join elapsed_ms ->
        tool_fs_enabled state = true ->
        safe_join path = inr key ->
        backend w !! key = Some (File old) ->
        exists rest,
          io (snd (dispatch ctx state (FsWrite path content ow) w))
          = io w ++ IoWrite (mkWriteCall path content false)
                 :: IoPrompt (conflict_prompt ow path) (first_answer w) :: rest).
Proof.
  assert (Hconf : forall W (ctx : ChatContext W) state path content ow w exc b,
             tool_fs_enabled state = true ->
             fs_write (backend_tools ctx) (backend w) path content false = (inl exc, b) ->
             is_conflict (text exc) = true ->
             exists rest,
               io (snd (dispatch_fs_write ctx state path content ow w))
               = io w ++ IoWrite (mkWriteCall path content false)
                      :: IoPrompt (conflict_prompt ow path) (first_answer w) :: rest).
  { intros W ctx state path content ow w exc b Hen Hw Hc.
    rewrite (dispatch_fs_write_eq ctx state path content ow w Hen).
    rewrite call_fs_write_eq, Hw. cbn [fst snd]. rewrite Hc.
    set (w1 := after_write w b (mkWriteCall path content false)).
    assert (Hfa : first_answer w1 = first_answer w) by reflexivity.
    assert (Hio : io (after_prompt ow path w1)
                  = io w ++ [IoWrite (mkWriteCall path content false);
                             IoPrompt (conflict_prompt ow path) (first_answer w)]).
    { unfold w1. cbn [io after_prompt after_write]. rewrite <- app_assoc.
      reflexivity. }
    destruct (first_answer w1) as [[| |]|].
    - exists []. exact Hio.
    - destruct (write_unique_bak_io ctx bak_attempts 0 path content
                  (after_prompt ow path w1)) as (k & _ & Hk & _).
      unfold _write_unique_bak. rewrite Hk, Hio, <- app_assoc. eexists. reflexivity.
    - rewrite call_fs_write_eq. cbn [snd io after_write].
      rewrite Hio, <- app_assoc. eexists. reflexivity.
    - exists []. exact Hio. }
  split; [vm_compute; reflexivity|]. split; [exact absent_overwrite_is_true|]. split.
  - intros W ctx state path content ow w r first dialog. split.
    + assert (Hnew : exists new,
                 io (snd r) = io w ++ new
                 /\ write_log path content ow (first_answer w) new
                 /\ (tool_fs_enabled state = true -> exists later, new = first :: later)).
      { unfold r. cbn [dispatch].
        destruct (tool_fs_enabled state) eqn:Hen.
        - destruct (dispatch_fs_write_log ctx state path content ow w Hen)
            as (later & Hio & Hcases).
          exists (first :: later). split; [exact Hio|]. split; [|now exists later].
          destruct Hcases as [->|(_ & [(Ha & ->)|[(Ha & k & Hk & ->)|(Ha & -> & _)]])].
          + apply LogDirect.
          + rewrite <- Ha. now apply LogOverwrite.
          + rewrite <- Ha. now apply LogBak.
          + now apply LogCancel.
        - rewrite (dispatch_fs_write_disabled ctx state path content ow w Hen).
          exists []. cbn [snd]. rewrite app_nil_r.
          split; [reflexivity|]. split; [apply LogDisabled|discriminate]. }
      destruct Hnew as (new & Hio & Hlog & Hfirst).
      exists new. split; [exact Hio|]. split; [exact Hlog|]. split; [exact Hfirst|].
      intros before c after Hsplit Hc.
      destruct (write_log_overwrite path content ow _ new before c after Hlog Hsplit Hc)
        as (Ha & Hb & Hcc & Haf).
      unfold first, dialog. rewrite Ha. auto.
    + intros exc b Hen Hw Hc. unfold r. cbn [dispatch].
      exact (Hconf W ctx state path content ow w exc b Hen Hw Hc).
  - intros safe_join elapsed_ms ctx state path content key old ow w Hctx Hen Hj Hf.
    cbn [dispatch].
    apply (Hconf store ctx state path content ow w exists_error (backend w) Hen).
    + rewrite Hctx. exact (client_conflict safe_join elapsed_ms _ _ content _ _ Hj Hf).
    + exact exists_error_is_conflict.
Qed.

Lemma C10_overwrite_only_after_answer_witness :
  exists rest,
    io (snd (dispatch files_context files_state
               (FsWrite ("todo.txt"py) ("new"py) true) (demo_world [Some ChooseOverwrite])))
    = [] ++ IoWrite (mkWriteCall ("todo.txt"py) ("new"py) false)
         :: IoPrompt (conflict_prompt true ("todo.txt"py)) (Some ChooseOverwrite) :: rest.
Proof.
  apply (proj2 (proj2 (proj2 C10_first_write_never_overwrites)) plain_join 3%nat
           files_context files_state ("todo.txt"py) ("new"py) ("todo.txt"py) ("old"py)
           true (demo_world [Some ChooseOverwrite])).
  - reflexivity.
  - reflexivity.
  - reflexivity.
  - vm_compute. reflexivity.
Defined.

End AgentClaims.

(* ===================================================================== *)
(** * Further properties of the parser module *)
(* ===================================================================== *)

Module TextExtras.
Import Json UiText Grammar TextSpec PyFacts.
#[local] Arguments N.eqb : simpl never.

Lemma strip_emoji_filter text :
  strip_emoji text = List.filter (fun ch => negb (dropped ch)) text.
Proof.
  unfold strip_emoji, Py.str.
  induction text as [|ch text IH]; [reflexivity|].
  rewrite filter_cons, IH. cbn [List.filter]. unfold dropped.
  destruct (N.eqb ch 8205), (N.eqb ch 65039), (N.eqb ch 8419), (is_emoji ch);
    reflexivity.
Qed.

Lemma strip_emoji_app a b : strip_emoji (a ++ b) = strip_emoji a ++ strip_emoji b.
Proof. rewrite !strip_emoji_filter. apply List.filter_app. Qed.

(** X1.  Stripping emoji commutes with concatenation: stripping a text
    chunk by chunk, as the stream consumer does, gives the same result
    as stripping the whole text at once; and stripping twice changes
    nothing more. *)
Theorem X1_strip_emoji_chunkwise :
  (forall a b, strip_emoji (a ++ b) = strip_emoji a ++ strip_emoji b)
  /\ (forall chunks, strip_emoji (concat chunks) = concat (map strip_emoji chunks))
  /\ (forall text, strip_emoji (strip_emoji text) = strip_emoji text).
Proof.
  split; [exact strip_emoji_app|]. split.
  - induction chunks as [|c chunks IH]; [reflexivity|].
    cbn [concat map]. now rewrite strip_emoji_app, IH.
  - intros text. rewrite !strip_emoji_filter.
    induction text as [|ch text IH]; [reflexivity|].
    cbn [List.filter]. destruct (dropped ch) eqn:E; cbn [negb]; [exact IH|].
    cbn [List.filter]. rewrite E. cbn [negb]. now rewrite IH.
Qed.

Lemma filter_keeps_count (f : N -> bool) text ch :
  f ch = true ->
  count_occ N.eq_dec (List.filter f text) ch = count_occ N.eq_dec text ch.
Proof.
  intros Hf. induction text as [|c text IH]; [reflexivity|].
  cbn [List.filter]. destruct (f c) eqn:Ec.
  - cbn [count_occ]. destruct (N.eq_dec c ch); now rewrite IH.
  - cbn [count_occ]. destruct (N.eq_dec c ch) as [->|_]; [congruence|exact IH].
Qed.

Lemma filter_is_sublist (f : N -> bool) text : sublist (List.filter f text) text.
Proof.
  induction text as [|c text IH]; [constructor|].
  cbn [List.filter]. destruct (f c); now constructor.
Qed.

(** X2.  What [strip_emoji] returns holds none of the dropped code
    points; the other characters of the text are all there, in the
    order and as often as in the text; and a text without dropped code
    points is returned unchanged. *)
Theorem X2_strip_emoji_drops_exactly text :
  (forall ch, In ch (strip_emoji text) <-> In ch text /\ dropped ch = false)
  /\ sublist (strip_emoji text) text
  /\ (forall ch, dropped ch = false ->
        count_occ N.eq_dec (strip_emoji text) ch = count_occ N.eq_dec text ch)
  /\ ((forall ch, In ch text -> dropped ch = false) -> strip_emoji text = text).
Proof.
  rewrite strip_emoji_filter. split; [|split; [|split]].
  - intros ch. rewrite List.filter_In. now rewrite negb_true_iff.
  - apply filter_is_sublist.
  - intros ch Hch. apply filter_keeps_count. now rewrite Hch.
  - intros Hclean. induction text as [|ch text IH]; [reflexivity|].
    cbn [List.filter]. rewrite (Hclean ch) by now left. cbn [negb].
    f_equal. apply IH. intros c Hc. apply Hclean. now right.
Qed.

Lemma X2_strip_emoji_witness :
  count_occ N.eq_dec (strip_emoji ("a"py ++ [128512%N] ++ "ba"py)) 97%N
  = count_occ N.eq_dec ("a"py ++ [128512%N] ++ "ba"py) 97%N
  /\ strip_emoji ("plain text"py) = "plain text"py.
Proof.
  split.
  - apply (proj1 (proj2 (proj2 (X2_strip_emoji_drops_exactly
                                  ("a"py ++ [128512%N] ++ "ba"py))))).
    vm_compute. reflexivity.
  - apply (proj2 (proj2 (proj2 (X2_strip_emoji_drops_exactly ("plain text"py))))).
    intros ch Hin. vm_compute in Hin.
    repeat (destruct Hin as [<-|Hin]; [vm_compute; reflexivity|]).
    destruct Hin.
Defined.

(** *** The extracted object text *)

Lemma find_at_split c s : forall i k,
  Py.find_at [c] s i = k -> k <> -1 -> 0 <= i ->
  exists pre rest, s = pre ++ c :: rest /\ k = i + Z.of_nat (length pre).
Proof.
  induction s as [|x s IH]; intros i k H Hk Hi; cbn [Py.find_at Py.startswith] in H.
  - congruence.
  - destruct (N.eqb_spec c x) as [->|Hne]; cbn [andb] in H.
    + exists [], s. split; [reflexivity|]. cbn [length]. lia.
    + destruct (IH (i + 1) k H Hk ltac:(lia)) as (pre & rest & -> & ->).
      exists (x :: pre), rest. split; [reflexivity|]. cbn [length]. lia.
Qed.

(** The scan returns a position right after a closing brace. *)
Lemma scan_balanced_ends s : forall in_str esc depth n m,
  scan_balanced s in_str esc depth n = Some m ->
  (n < m)%nat /\ exists p, firstn (m - n) s = p ++ [rbrace].
Proof.
  induction s as [|ch s IH]; intros in_str esc depth n m H;
    cbn [scan_balanced] in H; [discriminate|].
  assert (Hstep : forall i e d,
             scan_balanced s i e d (S n) = Some m ->
             (n < m)%nat /\ exists p, firstn (m - n) (ch :: s) = p ++ [rbrace]).
  { intros i e d Hs. apply IH in Hs as (Hlt & p & Hp). split; [lia|].
    exists (ch :: p). replace (m - n)%nat with (S (m - S n)) by lia.
    cbn [firstn]. now rewrite Hp. }
  destruct in_str.
  - destruct esc; [now apply Hstep in H|].
    destruct (N.eqb ch backslash); [now apply Hstep in H|].
    destruct (N.eqb ch quote); now apply Hstep in H.
  - destruct (N.eqb ch quote); [now apply Hstep in H|].
    destruct (N.eqb ch lbrace); [now apply Hstep in H|].
    destruct (N.eqb_spec ch rbrace) as [->|_]; [|now apply Hstep in H].
    destruct (depth - 1 =? 0); [|now apply Hstep in H].
    injection H as <-. split; [lia|]. exists [].
    replace (S n - n)%nat with 1%nat by lia. reflexivity.
Qed.

Lemma first_balanced_shape s j :
  first_balanced s = Some j ->
  Py.startswith [lbrace] j = true /\ Py.endswith [rbrace] j = true /\ occurs j s.
Proof.
  unfold first_balanced. cbv zeta.
  destruct (Z.eqb_spec (Py.find [lbrace] s) (-1)) as [|Hk]; [discriminate|].
  destruct (find_at_split lbrace s 0 _ eq_refl Hk ltac:(lia)) as (pre & rest & Hs & Hfind).
  fold (Py.find [lbrace] s) in Hfind. rewrite Hfind, Z.add_0_l.
  unfold Py.slice_from. rewrite Nat2Z.id. clear Hfind Hk. subst s.
  rewrite skipn_app, Nat.sub_diag, skipn_all, skipn_O. cbn [app].
  destruct (scan_balanced (lbrace :: rest) false false 0 0) as [m|] eqn:E; [|discriminate].
  intros H. injection H as <-.
  apply scan_balanced_ends in E as (Hm & p & Hp). rewrite Nat.sub_0_r in Hp.
  split; [|split].
  - destruct m as [|m]; [lia|]. cbn [firstn Py.startswith].
    now rewrite N.eqb_refl.
  - rewrite Hp. apply FenceFacts.endswith_app.
  - exists pre, (skipn m (lbrace :: rest)). f_equal.
    symmetry. apply firstn_skipn.
Qed.

(** X3.  Whatever [_extract_first_json_object] returns starts with an
    opening brace and ends with a closing brace; and when the text
    holds no triple-backtick fence, it is a part of the text itself. *)
Theorem X3_extracted_text_is_braced text j :
  _extract_first_json_object text = Some j ->
  Py.startswith [lbrace] j = true
  /\ Py.endswith [rbrace] j = true
  /\ (Py.find fence text = -1 -> occurs j text).
Proof.
  unfold _extract_first_json_object.
  destruct (Py.truthy text); [|discriminate]. cbn [negb].
  destruct (fenced_object text) as [inner|] eqn:E.
  - intros H. injection H as <-.
    assert (Hchk : Py.startswith [lbrace] inner && Py.endswith [rbrace] inner = true).
    { unfold fenced_object in E. cbv zeta in E.
      destruct (negb (fence_index text =? -1)); [|discriminate].
      destruct (negb (Py.find_from fence (Py.slice_from text (fence_index text)) 3 =? -1));
        [|discriminate].
      match type of E with
      | (if ?c then _ else _) = _ => destruct c eqn:Ec; [|discriminate]
      end.
      injection E as <-. exact Ec. }
    apply andb_prop in Hchk as [H1 H2]. split; [exact H1|]. split; [exact H2|].
    intros Hno. apply find_absent in Hno.
    rewrite (ParserFacts.fenced_none text Hno) in E. discriminate.
  - intros H. apply first_balanced_shape in H as (H1 & H2 & H3). auto.
Qed.

Lemma X3_extracted_text_witness :
  Py.startswith [lbrace] ("{'a':{'b':1}}"js) = true
  /\ Py.endswith [rbrace] ("{'a':{'b':1}}"js) = true
  /\ (Py.find fence ("see {'a':{'b':1}} } here"js) = -1 ->
      occurs ("{'a':{'b':1}}"js) ("see {'a':{'b':1}} } here"js)).
Proof.
  apply (X3_extracted_text_is_braced ("see {'a':{'b':1}} } here"js) ("{'a':{'b':1}}"js)).
  vm_compute. reflexivity.
Defined.

(** *** The repair pass *)

Lemma escape_loop_idem raw : forall in_str esc,
  escape_loop (escape_loop raw in_str esc) in_str esc = escape_loop raw in_str esc.
Proof.
  induction raw as [|ch raw IH]; intros in_str esc; [reflexivity|].
  cbn [escape_loop]. destruct in_str.
  - destruct esc.
    + cbn [escape_loop]. now rewrite IH.
    + destruct (N.eqb ch backslash) eqn:Eb.
      { cbn [escape_loop]. rewrite Eb. now rewrite IH. }
      destruct (N.eqb ch quote) eqn:Eq.
      { cbn [escape_loop]. rewrite Eb, Eq. now rewrite IH. }
      destruct (N.eqb ch CR || N.eqb ch LF) eqn:En.
      { cbn [escape_loop]. rewrite N.eqb_refl. now rewrite IH. }
      cbn [escape_loop]. rewrite Eb, Eq, En. now rewrite IH.
  - destruct (N.eqb ch quote) eqn:Eq; cbn [escape_loop]; rewrite Eq; now rewrite IH.
Qed.

Lemma escape_loop_plain raw : forall in_str esc,
  (forall ch, In ch raw -> ch <> CR /\ ch <> LF) ->
  escape_loop raw in_str esc = raw.
Proof.
  induction raw as [|ch raw IH]; intros in_str esc Hno; [reflexivity|].
  assert (Hrest : forall i e, escape_loop raw i e = raw).
  { intros i e. apply IH. intros c Hc. apply Hno. now right. }
  destruct (Hno ch (or_introl eq_refl)) as [Hcr Hlf].
  cbn [escape_loop]. destruct in_str.
  - destruct esc; [now rewrite Hrest|].
    destruct (N.eqb ch backslash); [now rewrite Hrest|].
    destruct (N.eqb ch quote); [now rewrite Hrest|].
    destruct (N.eqb_spec ch CR); [contradiction|].
    destruct (N.eqb_spec ch LF); [contradiction|].
    cbn [orb]. now rewrite Hrest.
  - destruct (N.eqb ch quote); now rewrite Hrest.
Qed.

Lemma escape_loop_length raw : forall in_str esc,
  (length raw <= length (escape_loop raw in_str esc))%nat.
Proof.
  induction raw as [|ch raw IH]; intros in_str esc; [reflexivity|].
  cbn [escape_loop].
  repeat match goal with
         | |- context [if ?c then _ else _] => destruct c
         end; cbn [length];
    match goal with
    | |- context [escape_loop raw ?i ?e] => specialize (IH i e); lia
    end.
Qed.

(** X4.  The repair pass is idempotent; it returns a text without
    carriage returns and line feeds unchanged; and it never makes a
    text shorter. *)
Theorem X4_repair_pass_is_idempotent :
  (forall raw,
      _escape_raw_newlines_in_json_strings (_escape_raw_newlines_in_json_strings raw)
      = _escape_raw_newlines_in_json_strings raw)
  /\ (forall raw,
        (forall ch, In ch raw -> ch <> CR /\ ch <> LF) ->
        _escape_raw_newlines_in_json_strings raw = raw)
  /\ (forall raw,
        (length raw <= length (_escape_raw_newlines_in_json_strings raw))%nat).
Proof.
  unfold _escape_raw_newlines_in_json_strings. split; [|split].
  - intros raw. destruct raw as [|ch raw]; [reflexivity|].
    cbn [Py.truthy negb].
    pose proof (escape_loop_length (ch :: raw) false false) as Hl.
    destruct (escape_loop (ch :: raw) false false) as [|c r] eqn:E;
      [cbn [length] in Hl; lia|].
    cbn [Py.truthy negb]. rewrite <- E. apply escape_loop_idem.
  - intros raw Hno. destruct (negb (Py.truthy raw)); [reflexivity|].
    now apply escape_loop_plain.
  - intros raw. destruct (negb (Py.truthy raw)); [lia|]. apply escape_loop_length.
Qed.

Lemma X4_repair_pass_witness :
  _escape_raw_newlines_in_json_strings ("{'k': 'one line'}"js) = "{'k': 'one line'}"js.
Proof.
  apply (proj1 (proj2 X4_repair_pass_is_idempotent)).
  intros ch Hin. vm_compute in Hin.
  repeat (destruct Hin as [<-|Hin]; [split; discriminate|]).
  destruct Hin.
Defined.

(** *** What a parsed call guarantees *)

Lemma nonblank_trimmed x s : nonblank_str x = Some s -> trimmed (Py.strip s).
Proof.
  destruct x; try discriminate. cbn [nonblank_str].
  destruct (Py.truthy (Py.strip s0)) eqn:E; [|discriminate].
  intros H. injection H as <-. split; [apply StreamClaims.strip_idem|].
  intros E0. rewrite E0 in E. discriminate.
Qed.

Lemma path_or_dot_trimmed x : trimmed (Py.strip (path_or_dot x)).
Proof.
  unfold path_or_dot. destruct (nonblank_str x) as [s|] eqn:E.
  - now apply nonblank_trimmed in E.
  - split; [reflexivity|]. vm_compute. discriminate.
Qed.

Lemma clamp_int_bounds lo hi d x :
  lo <= hi -> lo <= clamp_int lo hi d x <= hi.
Proof. intros H. unfold clamp_int. lia. Qed.

Lemma tool_call_of_value_ok obj tc : tool_call_of_value obj = Some tc -> call_ok tc.
Proof.
  unfold tool_call_of_value.
  destruct obj as [| | | | | |o]; try discriminate.
  destruct (dict_get_none ("args"py) o) as [| | | | | |args]; try discriminate.
  destruct (str_eq _ _).
  { destruct (nonblank_str _) as [q|] eqn:Eq; [|discriminate].
    intros H. injection H as <-. split; [now apply nonblank_trimmed in Eq|].
    apply clamp_int_bounds. lia. }
  destruct (str_eq _ _).
  { intros H. injection H as <-. split; [apply path_or_dot_trimmed|].
    apply clamp_int_bounds. lia. }
  destruct (str_eq _ _).
  { destruct (nonblank_str _) as [p|] eqn:Ep; [|discriminate].
    intros H. injection H as <-. split; [now apply nonblank_trimmed in Ep|].
    apply clamp_int_bounds. lia. }
  destruct (str_eq _ _).
  { destruct (nonblank_str _) as [p|] eqn:Ep; [|discriminate].
    match goal with
    | |- match ?c with _ => _ end = _ -> _ => destruct c; try discriminate
    end.
    intros H. injection H as <-. now apply nonblank_trimmed in Ep. }
  destruct (str_eq _ _); [|discriminate].
  destruct (nonblank_str _) as [q|] eqn:Eq; [|discriminate].
  intros H. injection H as <-.
  split; [now apply nonblank_trimmed in Eq|].
  split; [apply path_or_dot_trimmed|]. apply clamp_int_bounds. lia.
Qed.

(** X5.  Every call the parser returns, for any text, has its numeric
    argument within the bounds of its tool and has paths and queries
    that are stripped and not empty; and the parser reads a text as it
    reads the text without its surrounding whitespace. *)
Theorem X5_parsed_call_is_well_formed text :
  parse_tool_call (Py.strip text) = parse_tool_call text
  /\ (forall tc, parse_tool_call text = Some tc -> call_ok tc).
Proof.
  split.
  - unfold parse_tool_call. now rewrite StreamClaims.strip_idem.
  - intros tc. unfold parse_tool_call.
    destruct (_extract_first_json_object (Py.strip text)) as [raw|]; [|discriminate].
    destruct (negb (Py.truthy raw)); [discriminate|].
    destruct (loads_with_repair raw) as [obj|]; [|discriminate].
    apply tool_call_of_value_ok.
Qed.

Lemma X5_parsed_call_witness :
  call_ok (FsList ("."py) true 1000).
Proof.
  apply (proj2 (X5_parsed_call_is_well_formed
                  ("{'tool':'fs_list','args':{'path':'  ','recursive':1,'limit':'5000'}}"js))).
  vm_compute. reflexivity.
Defined.

End TextExtras.

(* ===================================================================== *)
(** * Further properties of the Markdown helpers *)
(* ===================================================================== *)

Module MarkdownExtras.
Import UiText UiMarkdown Grammar EchoSpec MarkdownFences PyFacts.
#[local] Arguments N.eqb : simpl never.

(** *** Lines with their ends *)

Lemma splitlines_keep_concat_n n : forall s cur,
  (length s <= n)%nat -> concat (splitlines_keep s cur) = rev cur ++ s.
Proof.
  induction n as [|n IH]; intros s cur Hn.
  - destruct s; [|cbn [length] in Hn; lia]. cbn [splitlines_keep].
    destruct cur; [reflexivity|]. cbn [concat]. now rewrite !app_nil_r.
  - destruct s as [|c s].
    { cbn [splitlines_keep]. destruct cur; [reflexivity|].
      cbn [concat]. now rewrite !app_nil_r. }
    cbn [length] in Hn. cbn [splitlines_keep].
    destruct (N.eqb c 13).
    + destruct s as [|d s].
      * cbn [concat splitlines_keep rev]. now rewrite app_nil_r.
      * destruct (N.eqb d 10).
        -- cbn [concat]. rewrite IH by (cbn [length] in Hn; lia).
           cbn [rev app]. now rewrite <- !app_assoc.
        -- cbn [concat]. rewrite IH by lia. cbn [rev app]. now rewrite <- !app_assoc.
    + destruct (Py.is_linebreak c).
      * cbn [concat]. rewrite IH by lia. cbn [rev app]. now rewrite <- !app_assoc.
      * rewrite IH by lia. cbn [rev]. now rewrite <- app_assoc.
Qed.

(** Joining the lines with their ends gives the text back. *)
Lemma splitlines_keep_concat s : concat (splitlines_keep s []) = s.
Proof. apply (splitlines_keep_concat_n (length s)). lia. Qed.

Lemma occurs_trans a b c : occurs a b -> occurs b c -> occurs a c.
Proof.
  intros (x & y & ->) (u & v & ->). exists (u ++ x), (y ++ v).
  now rewrite <- !app_assoc.
Qed.

Lemma occurs_in_concat (ln : Py.str) lines : In ln lines -> occurs ln (concat lines).
Proof.
  intros Hin. apply in_split in Hin as (l1 & l2 & ->).
  exists (concat l1), (concat l2). now rewrite concat_app.
Qed.

Lemma occurs_strip s : occurs (Py.strip s) s.
Proof.
  unfold Py.strip. destruct (lstrip_suffix s) as [a Ha].
  destruct (rstrip_prefix (Py.lstrip s)) as [b Hb].
  exists a, b. now rewrite <- Hb.
Qed.

(** A marker at the start of a line is a marker in the text. *)
Lemma marker_line_in_text ln lines :
  In ln lines -> marker_line ln = true ->
  existsb (fun m => Py.contains m (concat lines)) markers = true.
Proof.
  intros Hin Hm. unfold marker_line in Hm.
  apply existsb_exists in Hm as (m & Hmk & Hst).
  apply existsb_exists. exists m. split; [exact Hmk|].
  unfold Py.contains, Py.find. apply negb_true_iff, Z.eqb_neq.
  apply find_at_occurs; [lia|].
  apply startswith_inv in Hst as (r & Hr).
  apply (occurs_trans _ (Py.strip ln)); [exists [], r; exact Hr|].
  apply (occurs_trans _ ln); [apply occurs_strip|now apply occurs_in_concat].
Qed.

(** What the loop keeps: lines of its input, in order, none of which
    starts with a marker. *)
Lemma echo_loop_keeps lines : forall skipping,
  exists kept,
    sublist kept lines
    /\ echo_loop lines skipping = concat kept
    /\ Forall (fun ln => marker_line ln = false) kept.
Proof.
  induction lines as [|ln lines IH]; intros skipping.
  - exists []. repeat split; constructor.
  - cbn [echo_loop]. destruct skipping.
    + destruct (IH (Py.truthy (Py.strip ln))) as (kept & Hs & He & Hf).
      exists kept. split; [now apply sublist_cons|]. now split.
    + fold (marker_line ln). destruct (marker_line ln) eqn:Em.
      * destruct (IH true) as (kept & Hs & He & Hf).
        exists kept. split; [now apply sublist_cons|]. now split.
      * destruct (IH false) as (kept & Hs & He & Hf).
        exists (ln :: kept). split; [now apply sublist_skip|].
        split; [cbn [concat]; now rewrite He|]. now constructor.
Qed.

Lemma echo_loop_all lines :
  Forall (fun ln => marker_line ln = false) lines -> echo_loop lines false = concat lines.
Proof.
  induction 1 as [|ln lines Hm _ IH]; [reflexivity|].
  cbn [echo_loop]. fold (marker_line ln). rewrite Hm. cbn [concat]. now rewrite IH.
Qed.

Lemma echo_loop_app pre rest :
  Forall (fun ln => marker_line ln = false) pre ->
  echo_loop (pre ++ rest) false = concat pre ++ echo_loop rest false.
Proof.
  induction 1 as [|ln lines Hm _ IH]; [reflexivity|].
  cbn [app echo_loop]. fold (marker_line ln). rewrite Hm.
  cbn [concat]. now rewrite IH, app_assoc.
Qed.

Lemma echo_loop_block block rest :
  Forall (fun ln => blank_line ln = false) block ->
  echo_loop (block ++ rest) true = echo_loop rest true.
Proof.
  induction 1 as [|ln lines Hb _ IH]; [reflexivity|].
  cbn [app echo_loop]. unfold blank_line in Hb. apply negb_false_iff in Hb.
  now rewrite Hb.
Qed.

(** X6.  [strip_prompt_echo] only removes whole lines: its result is
    made of lines of the text, in their order and with their line
    ends, and none of the lines it keeps starts with a marker of the
    prompt scaffolding. *)
Theorem X6_echo_filter_keeps_clean_lines text :
  exists kept,
    sublist kept (splitlines_keep text [])
    /\ strip_prompt_echo text = concat kept
    /\ Forall (fun ln => marker_line ln = false) kept.
Proof.
  unfold strip_prompt_echo.
  destruct text as [|c text]; [exists []; repeat split; constructor|].
  cbn [Py.truthy negb].
  destruct (existsb (fun m => Py.contains m (c :: text)) markers) eqn:Ec; cbn [negb].
  - apply echo_loop_keeps.
  - exists (splitlines_keep (c :: text) []).
    split; [reflexivity|]. split; [now rewrite splitlines_keep_concat|].
    apply List.Forall_forall. intros ln Hin.
    destruct (marker_line ln) eqn:Em; [|reflexivity].
    pose proof (marker_line_in_text ln _ Hin Em) as H.
    rewrite splitlines_keep_concat in H. congruence.
Qed.

(** X7.  A text none of whose lines starts with a marker is returned
    unchanged, also when markers occur inside its lines. *)
Theorem X7_echo_filter_fixes_clean_text text :
  Forall (fun ln => marker_line ln = false) (splitlines_keep text []) ->
  strip_prompt_echo text = text.
Proof.
  intros Hclean. unfold strip_prompt_echo.
  destruct text as [|c text]; [reflexivity|]. cbn [Py.truthy negb].
  destruct (negb (existsb _ markers)); [reflexivity|].
  rewrite echo_loop_all by assumption. apply splitlines_keep_concat.
Qed.

Lemma X7_echo_filter_witness :
  strip_prompt_echo ("The SYSTEM: prefix is internal."py)
  = "The SYSTEM: prefix is internal."py.
Proof.
  apply X7_echo_filter_fixes_clean_text.
  vm_compute. repeat constructor.
Defined.

(** X8.  A line that starts with a marker is removed together with
    every line after it up to and including the next blank line; when
    no blank line follows, everything after the marker line is
    removed. *)
Theorem X8_echo_block_is_dropped text pre m block rest :
  splitlines_keep text [] = pre ++ m :: block ++ rest ->
  Forall (fun ln => marker_line ln = false) pre ->
  marker_line m = true ->
  Forall (fun ln => blank_line ln = false) block ->
  match rest with [] => True | b :: _ => blank_line b = true end ->
  strip_prompt_echo text = concat pre ++ echo_loop (tl rest) false.
Proof.
  intros Hlines Hpre Hm Hblock Hrest. unfold strip_prompt_echo.
  destruct text as [|c text].
  { destruct pre; discriminate Hlines. }
  cbn [Py.truthy negb].
  assert (Hc : existsb (fun mk => Py.contains mk (c :: text)) markers = true).
  { rewrite <- (splitlines_keep_concat (c :: text)).
    apply (marker_line_in_text m); [|exact Hm].
    rewrite Hlines. apply in_or_app. right. now left. }
  rewrite Hc. cbn [negb]. rewrite Hlines, echo_loop_app by assumption.
  f_equal. cbn [echo_loop]. fold (marker_line m). rewrite Hm.
  rewrite echo_loop_block by assumption.
  destruct rest as [|b rest']; [reflexivity|].
  cbn [echo_loop tl]. unfold blank_line in Hrest. apply negb_true_iff in Hrest.
  now rewrite Hrest.
Qed.

Lemma X8_echo_block_witness :
  strip_prompt_echo echoed_answer = "Hello"py ++ [10%N] ++ "Bye"py.
Proof.
  rewrite (X8_echo_block_is_dropped echoed_answer
             ["Hello"py ++ [10%N]] ("SYSTEM: You are Assistant."py ++ [10%N])
             ["TOOL[fs_read]: secret"py ++ [10%N]] [[10%N]; "Bye"py]).
  - reflexivity.
  - vm_compute. reflexivity.
  - vm_compute. repeat constructor.
  - vm_compute. reflexivity.
  - vm_compute. repeat constructor.
  - vm_compute. reflexivity.
Defined.

(** *** Splitting at code fences *)

Lemma flush_md_ok md_buf segs : Forall md_ok segs -> Forall md_ok (flush_md md_buf segs).
Proof.
  intros H. unfold flush_md. destruct md_buf; [exact H|].
  destruct (Py.truthy (Py.strip _)) eqn:E; [|exact H].
  apply Forall_app. split; [exact H|]. constructor; [exact E|constructor].
Qed.

Lemma flush_md_count md_buf segs : code_count (flush_md md_buf segs) = code_count segs.
Proof.
  unfold flush_md, code_count. destruct md_buf; [reflexivity|].
  destruct (Py.truthy (Py.strip _)); [|reflexivity].
  rewrite List.filter_app. cbn [List.filter is_code]. now rewrite app_nil_r.
Qed.

Lemma flush_md_grows md_buf segs : exists more, flush_md md_buf segs = segs ++ more.
Proof.
  unfold flush_md. destruct md_buf; [exists []; now rewrite app_nil_r|].
  destruct (Py.truthy (Py.strip _)); [eexists; reflexivity|].
  exists []. now rewrite app_nil_r.
Qed.

Lemma split_loop_ok lines : forall md_buf code_buf in_code lang segs,
  Forall md_ok segs -> Forall md_ok (split_loop lines md_buf code_buf in_code lang segs).
Proof.
  induction lines as [|ln lines IH]; intros md_buf code_buf in_code lang segs H;
    cbn [split_loop].
  - now apply flush_md_ok.
  - destruct (Py.startswith fence (Py.strip ln)).
    + destruct in_code; cbn [negb]; apply IH.
      * unfold flush_code. apply Forall_app. split; [exact H|].
        constructor; [exact I|constructor].
      * now apply flush_md_ok.
    + destruct in_code; now apply IH.
Qed.

Lemma split_loop_grows lines : forall md_buf code_buf in_code lang segs,
  exists more, split_loop lines md_buf code_buf in_code lang segs = segs ++ more.
Proof.
  induction lines as [|ln lines IH]; intros md_buf code_buf in_code lang segs;
    cbn [split_loop].
  - apply flush_md_grows.
  - destruct (Py.startswith fence (Py.strip ln)).
    + destruct in_code; cbn [negb].
      * destruct (IH md_buf [] false [] (flush_code code_buf lang segs)) as [more ->].
        unfold flush_code. rewrite <- app_assoc. eexists. reflexivity.
      * destruct (flush_md_grows md_buf segs) as [m1 E1].
        destruct (IH [] code_buf true (Py.strip (Py.slice_from (Py.strip ln) 3))
                    (flush_md md_buf segs)) as [more ->].
        rewrite E1, <- app_assoc. eexists. reflexivity.
    + destruct in_code; apply IH.
Qed.

(** Lines without a fence are buffered as they are. *)
Lemma split_loop_plain pre : forall rest md_buf code_buf in_code lang segs,
  Forall (fun ln => is_fence_line ln = false) pre ->
  split_loop (pre ++ rest) md_buf code_buf in_code lang segs
  = if in_code then split_loop rest md_buf (code_buf ++ pre) in_code lang segs
    else split_loop rest (md_buf ++ pre) code_buf in_code lang segs.
Proof.
  induction pre as [|ln pre IH]; intros rest md_buf code_buf in_code lang segs H.
  - cbn [app]. rewrite !app_nil_r. now destruct in_code.
  - inversion H as [|? ? Hln Hpre]; subst. unfold is_fence_line in Hln.
    cbn [app split_loop]. rewrite Hln.
    destruct in_code; rewrite IH by assumption; now rewrite <- app_assoc.
Qed.

Lemma split_loop_count lines : forall md_buf code_buf in_code lang segs,
  code_count (split_loop lines md_buf code_buf in_code lang segs)
  = (code_count segs
     + (fence_lines lines + (if in_code then 1 else 0)) / 2)%nat.
Proof.
  induction lines as [|ln lines IH]; intros md_buf code_buf in_code lang segs;
    cbn [split_loop].
  - rewrite flush_md_count. unfold fence_lines. cbn [List.filter length].
    destruct in_code; cbn; lia.
  - unfold fence_lines. cbn [List.filter]. unfold is_fence_line at 1.
    destruct (Py.startswith fence (Py.strip ln)).
    + cbn [length]. fold (fence_lines lines). destruct in_code; cbn [negb]; rewrite IH.
      * unfold flush_code, code_count. rewrite List.filter_app, length_app.
        cbn [List.filter is_code length].
        replace (S (fence_lines lines) + 1)%nat with (fence_lines lines + 0 + 1 * 2)%nat by lia.
        rewrite Nat.div_add by lia. lia.
      * rewrite flush_md_count. f_equal. f_equal. lia.
    + fold (fence_lines lines). destruct in_code; apply IH.
Qed.

(** X9.  No Markdown segment is blank, and a text without a fence line
    gives a single Markdown segment holding its lines joined by line
    feeds, or no segment at all when it is blank. *)
Theorem X9_fence_free_text_is_one_segment md_text :
  Forall md_ok (split_markdown_fences md_text)
  /\ (Forall (fun ln => is_fence_line ln = false) (Py.splitlines md_text) ->
      split_markdown_fences md_text
      = if Py.truthy (Py.strip (Py.join [LF] (Py.splitlines md_text)))
        then [Md (Py.join [LF] (Py.splitlines md_text))] else []).
Proof.
  unfold split_markdown_fences. split.
  - apply split_loop_ok. constructor.
  - intros H.
    pose proof (split_loop_plain (Py.splitlines md_text) [] [] [] false [] [] H) as E.
    rewrite app_nil_r in E. rewrite E. cbn [app split_loop]. unfold flush_md.
    destruct (Py.splitlines md_text) as [|ln lines]; [reflexivity|].
    cbn [app]. destruct (Py.truthy _); reflexivity.
Qed.

Lemma X9_fence_free_text_witness :
  split_markdown_fences ("# Title"py ++ [LF] ++ "Body"py)
  = [Md ("# Title"py ++ [LF] ++ "Body"py)].
Proof.
  rewrite (proj2 (X9_fence_free_text_is_one_segment ("# Title"py ++ [LF] ++ "Body"py))).
  - reflexivity.
  - vm_compute. repeat constructor.
Defined.

(** X10.  The text yields one code segment for every closed pair of
    fence lines: half the number of fence lines, rounded down, so that
    a fence left open gives no code segment. *)
Theorem X10_one_code_segment_per_closed_fence md_text :
  code_count (split_markdown_fences md_text)
  = (fence_lines (Py.splitlines md_text) / 2)%nat.
Proof.
  unfold split_markdown_fences. rewrite split_loop_count.
  unfold code_count. cbn [List.filter length]. now rewrite Nat.add_0_r.
Qed.

(** X11.  The first fenced block is given back exactly: a code segment
    with the language tag of the opening fence line and the lines
    between the two fence lines, joined by line feeds. *)
Theorem X11_code_block_is_returned_exactly md_text pre opener body closer post :
  Py.splitlines md_text = pre ++ opener :: body ++ closer :: post ->
  Forall (fun ln => is_fence_line ln = false) pre ->
  is_fence_line opener = true ->
  Forall (fun ln => is_fence_line ln = false) body ->
  is_fence_line closer = true ->
  exists before after,
    split_markdown_fences md_text
    = before
      ++ Code (Py.strip (Py.slice_from (Py.strip opener) 3)) (Py.join [LF] body)
      :: after
    /\ Forall (fun sg => is_code sg = false) before.
Proof.
  intros Hlines Hpre Hopen Hbody Hclose. unfold split_markdown_fences.
  rewrite Hlines, split_loop_plain by assumption. cbn [app split_loop].
  unfold is_fence_line in Hopen, Hclose. rewrite Hopen. cbn [negb].
  rewrite split_loop_plain by assumption. cbn [app split_loop].
  rewrite Hclose. cbn [negb].
  match goal with
  | |- context [split_loop post ?a ?b ?c ?d ?e] =>
      destruct (split_loop_grows post a b c d e) as [after ->]
  end.
  unfold flush_code. rewrite <- app_assoc. cbn [app].
  exists (flush_md pre []), after. split; [reflexivity|].
  unfold flush_md. destruct pre; [constructor|].
  destruct (Py.truthy _); repeat constructor.
Qed.

Lemma X11_code_block_witness :
  exists before after,
    split_markdown_fences
      ("Run:"py ++ [LF] ++ "```sh"py ++ [LF] ++ "ls -l"py ++ [LF] ++ "```"py ++ [LF] ++ "Done"py)
    = before ++ Code ("sh"py) ("ls -l"py) :: after
    /\ Forall (fun sg => is_code sg = false) before.
Proof.
  apply (X11_code_block_is_returned_exactly _ ["Run:"py] ("```sh"py) ["ls -l"py]
           ("```"py) ["Done"py]).
  - vm_compute. reflexivity.
  - vm_compute. repeat constructor.
  - vm_compute. reflexivity.
  - vm_compute. repeat constructor.
  - vm_compute. reflexivity.
Defined.

End MarkdownExtras.

(* ===================================================================== *)
(** * Further properties of the prompt and of the stream consumer *)
(* ===================================================================== *)

Module PromptExtras.
Import UiText UiPrompt Backend ChatController StreamSpec RunSpec StreamFacts PyFacts.

Lemma render_tool_call m : is_tool_call m = true -> render_message m = None.
Proof.
  unfold is_tool_call, render_message. destruct (role m); try discriminate. reflexivity.
Qed.

Lemma omap_render_filter ms :
  omap render_message (List.filter (fun m => negb (is_tool_call m)) ms)
  = omap render_message ms.
Proof.
  induction ms as [|m ms IH]; [reflexivity|].
  cbn [List.filter]. destruct (is_tool_call m) eqn:E; cbn [negb].
  - rewrite IH. cbn [omap list_omap]. now rewrite (render_tool_call m E).
  - cbn [omap list_omap]. destruct (render_message m); [f_equal|]; exact IH.
Qed.

(** X12.  Messages in the role of a tool call never reach the prompt:
    leaving them out of the transcript gives the same prompt, so a
    message that the stream consumer has marked as an intercepted tool
    call adds nothing to later prompts; and every prompt ends with the
    turn marker. *)
Theorem X12_tool_call_messages_never_reach_the_prompt preamble :
  (forall ms,
      UiPrompt.format_prompt preamble ms
      = UiPrompt.format_prompt preamble (List.filter (fun m => negb (is_tool_call m)) ms))
  /\ (forall ms m tool_json status,
        UiPrompt.format_prompt preamble (ms ++ [mark_tool_call_early m tool_json status])
        = UiPrompt.format_prompt preamble ms)
  /\ (forall ms, Py.endswith assistant_marker (UiPrompt.format_prompt preamble ms) = true).
Proof.
  split; [|split].
  - intros ms. unfold UiPrompt.format_prompt. now rewrite omap_render_filter.
  - intros ms m j status. unfold UiPrompt.format_prompt.
    rewrite omap_app. cbn [omap list_omap mark_tool_call_early render_message role].
    now rewrite app_nil_r.
  - intros ms. unfold UiPrompt.format_prompt. apply FenceFacts.endswith_app.
Qed.

(** X13.  [estimate_tokens] is the number of whole groups of
    characters-per-token in the text, a ratio of zero or less being
    read as 4; and the token count in the outcome of a stream run is
    that estimate of the text read, raised to 1 when the text is not
    empty, and never more than the number of characters. *)
Theorem X13_token_estimates_agree :
  (forall text cpt,
      let k := if cpt <=? 0 then 4 else cpt in
      k * estimate_tokens text cpt <= Py.len text < k * (estimate_tokens text cpt + 1))
  /\ (forall W (ctx : ChatContext W) state clk script m out l' st',
        stream_completion_into ctx state clk script m = Some (out, l', st') ->
        0 < chars_per_token ctx ->
        out_tokens out
        = (if out_chars out =? 0 then 0
           else Z.max 1 (estimate_tokens (received l') (chars_per_token ctx)))
        /\ out_tokens out <= out_chars out).
Proof.
  split.
  - intros text cpt k. unfold estimate_tokens. fold k.
    assert (Hk : 0 < k) by (unfold k; destruct (Z.leb_spec cpt 0); lia).
    destruct text as [|c text]; cbn [Py.truthy negb].
    + unfold Py.len. cbn [length]. lia.
    + assert (Hl : 0 <= Py.len (c :: text)) by (unfold Py.len; lia).
      rewrite Z.quot_div_nonneg by lia.
      pose proof (Z.div_pos (Py.len (c :: text)) k Hl Hk) as Hd.
      rewrite Z.max_r by lia.
      pose proof (Z.mul_div_le (Py.len (c :: text)) k Hk).
      pose proof (Z.mul_succ_div_gt (Py.len (c :: text)) k Hk). lia.
  - intros W ctx state clk script m out l' st' Hrun Hcpt.
    unfold stream_completion_into in Hrun.
    pose proof (StreamClaims.attempts_running_or_finished_inv
                  ctx state (wall_start clk) m script) as H.
    destruct (attempts ctx state (wall_start clk) script (init_locals m)) as [l|l];
      [|discriminate].
    injection Hrun as <- <- <-.
    destruct (flush_pending_spec ctx l) as (_ & _ & _ & _ & _ & _ & _ & _ & _ & Fr & _).
    destruct H as (Hc & _). rewrite Fr.
    cbn [out_tokens out_chars]. unfold token_count, estimate_tokens.
    replace (chars_per_token ctx =? 0) with false by (symmetry; apply Z.eqb_neq; lia).
    replace (chars_per_token ctx <=? 0) with false by (symmetry; apply Z.leb_gt; lia).
    assert (Hl : 0 <= chars l) by (rewrite Hc; unfold Py.len; lia).
    destruct (Z.eqb_spec (chars l) 0) as [E|E]; [lia|].
    assert (Hne : Py.truthy (received l) = true).
    { destruct (received l); [unfold Py.len in Hc; cbn [length] in Hc; lia|reflexivity]. }
    rewrite Hne. cbn [negb]. rewrite <- Hc.
    rewrite Z.quot_div_nonneg by lia.
    pose proof (Z.div_pos (chars l) (chars_per_token ctx) Hl Hcpt).
    pose proof (Z.div_le_upper_bound (chars l) (chars_per_token ctx) (chars l) Hcpt).
    split; [lia|]. assert (chars l / chars_per_token ctx <= chars l) by (apply H0; nia).
    lia.
Qed.

Lemma X13_token_estimates_witness :
  exists out,
    out_tokens out
    = (if out_chars out =? 0 then 0 else Z.max 1 (estimate_tokens ("Hi"py) 4))
    /\ out_tokens out <= out_chars out.
Proof.
  destruct (stream_completion_into demo_context demo_state (mkClock 10 1000 15)
              late_token_script fresh_model_msg) as [[[out l'] st']|] eqn:E;
    [|discriminate E].
  exists out.
  pose proof (proj2 X13_token_estimates_agree unit demo_context demo_state
                (mkClock 10 1000 15) late_token_script fresh_model_msg out l' st' E
                eq_refl) as H.
  vm_compute in E. injection E as <- <- <-. exact H.
Defined.

End PromptExtras.

Module StreamExtras.
Import UiText UiPrompt Backend ChatController StreamSpec RunSpec StreamFacts PyFacts.

Section Run.
Context {W : Type}.
Variable ctx : ChatContext W.
Variable state : State.

(** *** Steps that neither post, sleep, notify nor count a retry *)

Lemma quiet_refl l : quiet_step l l.
Proof.
  split; [reflexivity|]. split; [reflexivity|].
  exists []. now rewrite app_nil_r.
Qed.

Lemma quiet_trans l1 l2 l3 : quiet_step l1 l2 -> quiet_step l2 l3 -> quiet_step l1 l3.
Proof.
  intros (A1 & N1 & m1 & L1 & Q1) (A2 & N2 & m2 & L2 & Q2).
  split; [congruence|]. split; [congruence|].
  exists (m1 ++ m2). rewrite L2, L1, <- app_assoc. split; [reflexivity|].
  rewrite forallb_app, Q1, Q2. reflexivity.
Qed.

Lemma quiet_emit l e : quiet e = true -> quiet_step l (emit l e).
Proof.
  intros He. split; [reflexivity|]. split; [reflexivity|].
  exists [e]. split; [reflexivity|]. cbn [forallb]. now rewrite He.
Qed.

Lemma quiet_flush l : quiet_step l (flush_pending ctx l).
Proof.
  unfold flush_pending.
  destruct (Py.truthy (pending_display l)).
  - set (l1 := emit _ _).
    assert (H1 : quiet_step l l1).
    { split; [reflexivity|]. split; [reflexivity|].
      eexists. split; [reflexivity|]. reflexivity. }
    destruct (Py.truthy (pending_raw l1)); [|exact H1].
    apply (quiet_trans _ l1); [exact H1|].
    split; [reflexivity|]. split; [reflexivity|]. exists []. now rewrite app_nil_r.
  - destruct (Py.truthy (pending_raw l)); [|apply quiet_refl].
    split; [reflexivity|]. split; [reflexivity|]. exists []. now rewrite app_nil_r.
Qed.

Lemma quiet_debounce l now : quiet_step l (debounce ctx l now).
Proof.
  unfold debounce. destruct (Qle_bool _ _); [|apply quiet_refl].
  match goal with
  | |- quiet_step l (flush_pending ctx ?x) =>
      apply (quiet_trans l x); [|apply quiet_flush]
  end.
  split; [reflexivity|]. split; [reflexivity|]. exists []. now rewrite app_nil_r.
Qed.

Lemma quiet_intercept l l' : intercept ctx l = Some l' -> quiet_step l l'.
Proof.
  unfold intercept. destruct (saw_tool_call l); [discriminate|].
  destruct (parse_tool_call ctx _); [|discriminate].
  destruct (match extract_first_json_object ctx with Some _ => _ | None => _ end);
    [|discriminate].
  destruct (Py.truthy _); [|discriminate].
  intros H. injection H as <-.
  split; [reflexivity|]. split; [reflexivity|].
  eexists. split; [cbn [log emit set_msg]; rewrite <- app_assoc; reflexivity|].
  reflexivity.
Qed.

Lemma quiet_append l ev c : quiet_step l (append_chunk ctx state l ev c).
Proof.
  split; [reflexivity|]. split; [reflexivity|]. exists []. now rewrite app_nil_r.
Qed.

Lemma quiet_set_cancelled l : quiet_step l (set_cancelled l).
Proof.
  split; [reflexivity|]. split; [reflexivity|]. exists []. now rewrite app_nil_r.
Qed.

Lemma quiet_read_lines lines : forall l,
  quiet_step l (snd (read_lines ctx state lines l)).
Proof.
  induction lines as [|ev rest IH]; intros l; cbn [read_lines].
  - apply quiet_refl.
  - destruct (cancel_seen ev); [apply quiet_set_cancelled|].
    destruct (payload ev) as [| | |c]; try apply IH; [apply quiet_refl|].
    destruct (negb (Py.truthy c)); [apply IH|].
    destruct (intercept ctx (append_chunk ctx state l ev c)) as [l2|] eqn:Ei.
    + cbn [snd]. apply (quiet_trans _ (append_chunk ctx state l ev c));
        [apply quiet_append|now apply quiet_intercept].
    + eapply quiet_trans; [|apply IH].
      apply (quiet_trans _ (append_chunk ctx state l ev c));
        [apply quiet_append|apply quiet_debounce].
Qed.

Lemma count_ev_app p a b : count_ev p (a ++ b) = count_ev p a + count_ev p b.
Proof. unfold count_ev. rewrite List.filter_app, length_app. lia. Qed.

Lemma count_quiet p more :
  (forall e, quiet e = true -> p e = false) ->
  forallb quiet more = true -> count_ev p more = 0.
Proof.
  intros Hp. induction more as [|e more IH]; intros H; [reflexivity|].
  cbn [forallb] in H. apply andb_prop in H as [He Hm].
  unfold count_ev in *. cbn [List.filter]. rewrite (Hp e He). now apply IH.
Qed.

Lemma quiet_counts p l l' :
  (forall e, quiet e = true -> p e = false) ->
  quiet_step l l' -> count_ev p (log l') = count_ev p (log l).
Proof.
  intros Hp (_ & _ & more & -> & Hq).
  rewrite count_ev_app, (count_quiet p more Hp Hq). lia.
Qed.

Lemma post_not_quiet e : quiet e = true -> is_post e = false.
Proof. now destruct e. Qed.

Lemma sleep_not_quiet e : quiet e = true -> is_sleep e = false.
Proof. now destruct e. Qed.

Lemma notice_not_quiet e : quiet e = true -> is_loading_notice e = false.
Proof. now destruct e. Qed.

(** The reconnect notice is not the loading notice. *)
Lemma reconnect_not_loading a :
  is_loading_notice (EvSnack (reconnect_notice a)) = false.
Proof.
  cbn [is_loading_notice]. apply bool_decide_eq_false. intros H.
  apply (f_equal (fun s : Py.str => hd 0%N s)) in H. vm_compute in H. discriminate H.
Qed.

Lemma quiet_keeps l l' :
  quiet_step l l' ->
  posts l' = posts l /\ sleeps l' = sleeps l /\ attempt l' = attempt l
  /\ (notified_once l -> notified_once l').
Proof.
  intros H. unfold posts, sleeps, notified_once, notices.
  rewrite (quiet_counts is_post l l' post_not_quiet H).
  rewrite (quiet_counts is_sleep l l' sleep_not_quiet H).
  rewrite (quiet_counts is_loading_notice l l' notice_not_quiet H).
  destruct H as (Ha & Hn & _). rewrite Hn. tauto.
Qed.

Lemma posted_counts l :
  posts (posted ctx state l) = posts l + 1
  /\ sleeps (posted ctx state l) = sleeps l
  /\ attempt (posted ctx state l) = attempt l
  /\ (notified_once l -> notified_once (posted ctx state l)).
Proof.
  unfold posted, posts, sleeps, notified_once, notices.
  destruct (0 <? attempt l); cbn [log emit attempt loading_notified];
    rewrite ?count_ev_app;
    change (count_ev is_post [EvPost _ _]) with 1;
    change (count_ev is_sleep [EvPost _ _]) with 0;
    change (count_ev is_loading_notice [EvPost _ _]) with 0;
    change (count_ev is_post [EvSnack _]) with 0;
    change (count_ev is_sleep [EvSnack _]) with 0.
  - assert (Hn : count_ev is_loading_notice [EvSnack (reconnect_notice (attempt l))] = 0).
    { unfold count_ev. cbn [List.filter]. now rewrite reconnect_not_loading. }
    rewrite Hn. repeat split; lia.
  - repeat split; lia.
Qed.

(** What the [try] block adds: one request, and one sleep exactly when
    it goes round the loop again. *)
Lemma try_body_counts wall it l :
  notified_once l ->
  match try_body ctx state wall it l with
  | TryBreak l' | TryRaise _ _ l' =>
      posts l' = posts l + 1 /\ sleeps l' = sleeps l /\ attempt l' = attempt l
      /\ notified_once l'
  | TryContinue l' =>
      posts l' = posts l + 1 /\ sleeps l' = sleeps l + 1 /\ attempt l' = attempt l
      /\ notified_once l'
  end.
Proof.
  intros Hn. unfold try_body.
  destruct (posted_counts l) as (Pp & Ps & Pa & Pn). specialize (Pn Hn).
  generalize dependent (posted ctx state l). intros p Pp Ps Pa Pn. cbv zeta.
  destruct (answer it) as [e|cancel_after now|status detail|lines fin].
  - tauto.
  - set (l2 := if loading_notified p then p
               else emit (set_loading_notified p)
                      (EvSnack ("Model is loading... waiting."py))).
    assert (H2 : posts l2 = posts p /\ sleeps l2 = sleeps p /\ attempt l2 = attempt p
                 /\ notified_once l2).
    { unfold l2. destruct (loading_notified p) eqn:En; [tauto|].
      unfold posts, sleeps, notified_once, notices in *.
      cbn [log emit set_loading_notified attempt loading_notified].
      rewrite !count_ev_app. rewrite En in Pn.
      change (count_ev is_post [EvSnack _]) with 0.
      change (count_ev is_sleep [EvSnack _]) with 0.
      change (count_ev is_loading_notice [EvSnack ("Model is loading... waiting."py)])
        with 1.
      repeat split; lia. }
    destruct H2 as (Q1 & Q2 & Q3 & Q4).
    destruct (quiet_keeps l2 (emit l2 EvClose) (quiet_emit l2 EvClose eq_refl))
      as (C1 & C2 & C3 & C4). specialize (C4 Q4).
    destruct cancel_after.
    + destruct (quiet_keeps _ _ (quiet_set_cancelled (emit l2 EvClose)))
        as (D1 & D2 & D3 & D4).
      repeat split; try lia; try (now apply D4).
    + destruct (negb (Qle_bool now (wall + loading_wait_s)%Q)).
      * repeat split; try lia; try exact C4.
      * unfold posts, sleeps, notified_once, notices in *.
        cbn [log emit attempt loading_notified] in *.
        rewrite !count_ev_app in *.
        change (count_ev is_post [EvSleep]) with 0.
        change (count_ev is_sleep [EvSleep]) with 1.
        change (count_ev is_loading_notice [EvSleep]) with 0.
        change (count_ev is_post [EvClose]) with 0 in *.
        change (count_ev is_sleep [EvClose]) with 0 in *.
        change (count_ev is_loading_notice [EvClose]) with 0 in *.
        repeat split; try lia.
  - tauto.
  - pose proof (quiet_read_lines lines p) as Hq.
    destruct (read_lines ctx state lines p) as [ex l2]. cbn [snd] in Hq.
    destruct (quiet_keeps p l2 Hq) as (R1 & R2 & R3 & R4). specialize (R4 Pn).
    destruct (quiet_keeps l2 _ (quiet_flush l2)) as (F1 & F2 & F3 & F4).
    specialize (F4 R4).
    destruct ex as [| | |e]; [destruct fin as [|e]| | |]; repeat split; try lia;
      assumption.
Qed.

Lemma handle_exception_counts it opened exc l :
  let r := handle_exception ctx it opened exc l in
  posts (snd r) = posts l /\ sleeps (snd r) = sleeps l
  /\ (notified_once l -> notified_once (snd r))
  /\ match fst r with
     | Continue => attempt (snd r) = attempt l + 1
     | Break => attempt (snd r) = attempt l
     end.
Proof.
  unfold handle_exception. cbv zeta.
  destruct (quiet_keeps l _ (quiet_flush l)) as (F1 & F2 & F3 & F4).
  destruct (handler_cancel it).
  - cbn [fst snd]. destruct (quiet_keeps _ _ (quiet_set_cancelled (flush_pending ctx l)))
      as (C1 & C2 & C3 & C4).
    repeat split; try lia; try (intros H; now apply C4, F4).
  - cbn [attempt set_attempt_err].
    destruct (transient exc && (attempt (flush_pending ctx l) <? max_retries)).
    + cbn [fst snd]. destruct opened.
      * unfold posts, sleeps, notified_once, notices in *.
        cbn [log emit set_attempt_err attempt loading_notified].
        rewrite !count_ev_app.
        change (count_ev is_post [EvClose]) with 0.
        change (count_ev is_sleep [EvClose]) with 0.
        change (count_ev is_loading_notice [EvClose]) with 0.
        repeat split; try lia; try (rewrite Z.add_0_r; exact F4).
      * unfold posts, sleeps, notified_once, notices in *.
        cbn [log set_attempt_err attempt loading_notified].
        repeat split; try lia; try exact F4.
    + cbn [fst snd]. unfold posts, sleeps, notified_once, notices in *.
      cbn [log set_attempt_err attempt loading_notified].
      repeat split; try lia; try exact F4.
Qed.

Lemma finally_counts opened r :
  posts (snd (finally opened r)) = posts (snd r)
  /\ sleeps (snd (finally opened r)) = sleeps (snd r)
  /\ attempt (snd (finally opened r)) = attempt (snd r)
  /\ (notified_once (snd r) -> notified_once (snd (finally opened r)))
  /\ fst (finally opened r) = fst r.
Proof.
  unfold finally. destruct opened; cbn [fst snd]; [|tauto].
  destruct (quiet_keeps _ _ (quiet_emit (snd r) EvClose eq_refl)) as (C1 & C2 & C3 & C4).
  tauto.
Qed.

(** One iteration of the retry loop keeps the balance when it goes
    round again, and adds at most one request when it leaves. *)
Lemma attempt_body_counts wall it l :
  balanced l ->
  let r := attempt_body ctx state wall it l in
  notified_once (snd r)
  /\ match fst r with
     | Continue => posts (snd r) = attempt (snd r) + sleeps (snd r)
     | Break => posts (snd r) <= attempt (snd r) + sleeps (snd r) + 1
     end.
Proof.
  intros [Hb Hn]. unfold attempt_body.
  destruct (top_cancel it).
  - cbn [fst snd]. destruct (quiet_keeps _ _ (quiet_set_cancelled l)) as (C1 & C2 & C3 & C4).
    split; [now apply C4|]. lia.
  - pose proof (try_body_counts wall it l Hn) as Ht.
    destruct (try_body ctx state wall it l) as [l'|l'|exc opened l'].
    + destruct Ht as (T1 & T2 & T3 & T4).
      destruct (finally_counts true (Break, l')) as (F1 & F2 & F3 & F4 & F5).
      rewrite F5. cbn [fst snd] in *. split; [now apply F4|]. lia.
    + destruct Ht as (T1 & T2 & T3 & T4).
      destruct (finally_counts true (Continue, l')) as (F1 & F2 & F3 & F4 & F5).
      rewrite F5. cbn [fst snd] in *. split; [now apply F4|]. lia.
    + destruct Ht as (T1 & T2 & T3 & T4).
      destruct (handle_exception_counts it opened exc l') as (H1 & H2 & H3 & H4).
      destruct (finally_counts opened (handle_exception ctx it opened exc l'))
        as (F1 & F2 & F3 & F4 & F5).
      rewrite F5. split; [now apply F4, H3|].
      destruct (fst (handle_exception ctx it opened exc l')); lia.
Qed.

Lemma attempts_counts wall script : forall l,
  balanced l ->
  match attempts ctx state wall script l with
  | Finished l' =>
      posts l' <= attempt l' + sleeps l' + 1 /\ notified_once l'
  | Running l' => balanced l'
  end.
Proof.
  induction script as [|it rest IH]; intros l Hb; cbn [attempts].
  - destruct (negb (attempt l <=? max_retries)); [|exact Hb].
    destruct Hb as [Hb Hn]. split; [lia|exact Hn].
  - destruct (negb (attempt l <=? max_retries)).
    { destruct Hb as [Hb Hn]. split; [lia|exact Hn]. }
    pose proof (attempt_body_counts wall it l Hb) as H. cbv zeta in H.
    destruct (attempt_body ctx state wall it l) as [[|] l']; cbn [fst snd] in H.
    + apply IH. destruct H as [Hn Hp]. now split.
    + destruct H as [Hn Hp]. now split.
Qed.

End Run.

(** X14.  A run sends at most three requests apart from those that the
    loading wait repeats: the number of requests never exceeds the
    number of sleeps of the loading wait by more than three; and the
    loading notice is shown at most once in a run. *)
Theorem X14_requests_and_notices_are_bounded {W} (ctx : ChatContext W)
    state clk script m out l' st' :
  stream_completion_into ctx state clk script m = Some (out, l', st') ->
  count_ev is_post (log l') <= 3 + count_ev is_sleep (log l')
  /\ count_ev is_loading_notice (log l') <= 1.
Proof.
  intros Hrun. unfold stream_completion_into in Hrun.
  assert (Hb : balanced (init_locals m)).
  { split; [reflexivity|]. reflexivity. }
  pose proof (attempts_counts ctx state (wall_start clk) script (init_locals m) Hb) as H.
  pose proof (StreamClaims.attempts_running_or_finished_inv
                ctx state (wall_start clk) m script) as Hi.
  destruct (attempts ctx state (wall_start clk) script (init_locals m)) as [l|l];
    [|discriminate].
  injection Hrun as _ <- _.
  destruct (quiet_keeps l _ (quiet_flush ctx l)) as (F1 & F2 & F3 & F4).
  destruct H as [Hp Hn]. specialize (F4 Hn).
  destruct Hi as (_ & Ha & _). unfold max_retries in Ha.
  unfold posts, sleeps, notified_once, notices in *.
  split; [lia|]. rewrite F4. destruct (loading_notified (flush_pending ctx l)); lia.
Qed.

Lemma X14_requests_witness :
  exists l',
    count_ev is_post (log l') <= 3 + count_ev is_sleep (log l')
    /\ count_ev is_loading_notice (log l') <= 1.
Proof.
  destruct (stream_completion_into demo_context demo_state (mkClock 10 1000 15)
              loading_script fresh_model_msg) as [[[out l'] st']|] eqn:E;
    [|discriminate E].
  exists l'.
  exact (X14_requests_and_notices_are_bounded demo_context demo_state
           (mkClock 10 1000 15) loading_script fresh_model_msg out l' st' E).
Defined.

Section Evolve.
Context {W : Type}.
Variable ctx : ChatContext W.
Variable state : State.

(** *** How the counters and the text read evolve *)

Lemma evolves_refl l : evolves ctx state l l.
Proof. now apply EvolveSame. Qed.

Lemma evolves_fields l l1 l2 :
  evolves ctx state l l1 ->
  attempt l2 = attempt l1 -> last_err l2 = last_err l1 ->
  received l2 = received l1 -> shown l2 = shown l1 ->
  evolves ctx state l l2.
Proof.
  intros H Ha He Hr Hs. destruct H as [l1 A E R S|l0 c l1 H0 Hc A E R S|l0 exc l1 H0 E A R S].
  - apply EvolveSame; congruence.
  - apply (EvolveChunk ctx state l l0 c); congruence.
  - apply (EvolveCaught ctx state l l0 exc);
      first [congruence | destruct A; [left|right]; congruence].
Qed.

Lemma evolves_trans l1 l2 l3 :
  evolves ctx state l1 l2 -> evolves ctx state l2 l3 -> evolves ctx state l1 l3.
Proof.
  intros H12 H23. induction H23 as [l3 A E R S|l0 c l3 H0 IH Hc A E R S|l0 exc l3 H0 IH E A R S].
  - now apply (evolves_fields l1 l2 l3).
  - now apply (EvolveChunk ctx state l1 l0 c).
  - now apply (EvolveCaught ctx state l1 l0 exc).
Qed.

Lemma evolves_flush l : evolves ctx state l (flush_pending ctx l).
Proof.
  destruct (flush_pending_spec ctx l)
    as (_ & _ & _ & _ & _ & Fle & Fa & _ & _ & Fr & Fsh & _).
  now apply EvolveSame.
Qed.

Lemma evolves_debounce l now : evolves ctx state l (debounce ctx l now).
Proof.
  unfold debounce. destruct (Qle_bool _ _); [|apply evolves_refl].
  match goal with
  | |- evolves ctx state l (flush_pending ctx ?x) =>
      apply (evolves_trans l x); [now apply EvolveSame|apply evolves_flush]
  end.
Qed.

Lemma evolves_intercept l l' : intercept ctx l = Some l' -> evolves ctx state l l'.
Proof.
  unfold intercept. destruct (saw_tool_call l); [discriminate|].
  destruct (parse_tool_call ctx _); [|discriminate].
  destruct (match extract_first_json_object ctx with Some _ => _ | None => _ end);
    [|discriminate].
  destruct (Py.truthy _); [|discriminate].
  intros H. injection H as <-. now apply EvolveSame.
Qed.

Lemma evolves_append l ev c :
  Py.truthy c = true -> evolves ctx state l (append_chunk ctx state l ev c).
Proof.
  intros Hc. apply (EvolveChunk ctx state l l c); try reflexivity; [|exact Hc].
  apply evolves_refl.
Qed.

Lemma evolves_read_lines lines : forall l,
  evolves ctx state l (snd (read_lines ctx state lines l)).
Proof.
  induction lines as [|ev rest IH]; intros l; cbn [read_lines].
  - apply evolves_refl.
  - destruct (cancel_seen ev); [now apply EvolveSame|].
    destruct (payload ev) as [| | |c]; try apply IH; [apply evolves_refl|].
    destruct (Py.truthy c) eqn:Ec; cbn [negb]; [|apply IH].
    destruct (intercept ctx (append_chunk ctx state l ev c)) as [l2|] eqn:Ei.
    + cbn [snd]. apply (evolves_trans _ (append_chunk ctx state l ev c));
        [now apply evolves_append|now apply evolves_intercept].
    + eapply evolves_trans; [|apply IH].
      apply (evolves_trans _ (append_chunk ctx state l ev c));
        [now apply evolves_append|apply evolves_debounce].
Qed.

Lemma evolves_posted l : evolves ctx state l (posted ctx state l).
Proof. unfold posted. destruct (0 <? attempt l); now apply EvolveSame. Qed.

Lemma evolves_try_body wall it l :
  match try_body ctx state wall it l with
  | TryBreak l' | TryContinue l' | TryRaise _ _ l' => evolves ctx state l l'
  end.
Proof.
  unfold try_body. pose proof (evolves_posted l) as Hp.
  generalize dependent (posted ctx state l). intros p Hp. cbv zeta.
  destruct (answer it) as [e|cancel_after now|status detail|lines fin].
  - exact Hp.
  - assert (H2 : evolves ctx state l
                   (if loading_notified p then p
                    else emit (set_loading_notified p)
                           (EvSnack ("Model is loading... waiting."py)))).
    { destruct (loading_notified p); [exact Hp|].
      apply (evolves_fields l p); [exact Hp|reflexivity..]. }
    destruct cancel_after; [|destruct (negb _)];
      (eapply evolves_fields; [exact H2|reflexivity..]).
  - exact Hp.
  - pose proof (evolves_read_lines lines p) as Hr.
    destruct (read_lines ctx state lines p) as [ex l2]. cbn [snd] in Hr.
    pose proof (evolves_trans _ _ _ Hp Hr) as H2.
    pose proof (evolves_trans _ _ _ H2 (evolves_flush l2)) as H3.
    destruct ex as [| | |e]; [destruct fin as [|e]| | |]; assumption.
Qed.

Lemma evolves_handle_exception it opened exc l :
  evolves ctx state l (snd (handle_exception ctx it opened exc l)).
Proof.
  unfold handle_exception. cbv zeta. pose proof (evolves_flush l) as Hf.
  destruct (handler_cancel it).
  - cbn [snd]. apply (evolves_fields l (flush_pending ctx l)); [exact Hf|reflexivity..].
  - destruct (transient exc && _); cbn [snd].
    + apply (EvolveCaught ctx state l (flush_pending ctx l) exc); [exact Hf|..];
        destruct opened; try reflexivity; now right.
    + apply (EvolveCaught ctx state l (flush_pending ctx l) exc);
        [exact Hf|reflexivity|now left|reflexivity..].
Qed.

Lemma evolves_finally l opened r :
  evolves ctx state l (snd r) -> evolves ctx state l (snd (finally opened r)).
Proof.
  intros H. unfold finally. destruct opened; cbn [snd]; [|exact H].
  apply (evolves_fields l (snd r)); [exact H|reflexivity..].
Qed.

Lemma evolves_attempt_body wall it l :
  evolves ctx state l (snd (attempt_body ctx state wall it l)).
Proof.
  unfold attempt_body. destruct (top_cancel it); [now apply EvolveSame|].
  pose proof (evolves_try_body wall it l) as Ht.
  destruct (try_body ctx state wall it l) as [l'|l'|exc opened l'].
  - now apply (evolves_finally l true (Break, l')).
  - now apply (evolves_finally l true (Continue, l')).
  - apply evolves_finally. eapply evolves_trans; [exact Ht|].
    apply evolves_handle_exception.
Qed.

Lemma evolves_attempts wall script : forall l,
  match attempts ctx state wall script l with
  | Finished l' | Running l' => evolves ctx state l l'
  end.
Proof.
  induction script as [|it rest IH]; intros l; cbn [attempts].
  - destruct (negb _); apply evolves_refl.
  - destruct (negb _); [apply evolves_refl|].
    pose proof (evolves_attempt_body wall it l) as Hb.
    destruct (attempt_body ctx state wall it l) as [[|] l']; cbn [snd] in Hb;
      [|exact Hb].
    specialize (IH l').
    destruct (attempts ctx state wall rest l'); eapply evolves_trans; eassumption.
Qed.

(** The whole run, from the initial locals to the ones returned. *)
Lemma evolves_run clk script m out l' st' :
  stream_completion_into ctx state clk script m = Some (out, l', st') ->
  evolves ctx state (init_locals m) l'.
Proof.
  unfold stream_completion_into.
  pose proof (evolves_attempts (wall_start clk) script (init_locals m)) as H.
  destruct (attempts ctx state (wall_start clk) script (init_locals m)) as [l|l];
    [|discriminate].
  intros E. injection E as _ <- _.
  eapply evolves_trans; [exact H|apply evolves_flush].
Qed.

(** After a caught exception the last error is set and stays set. *)
Lemma evolves_error l l' :
  evolves ctx state l l' ->
  (0 < attempt l -> last_err l <> None) ->
  attempt l <= attempt l' /\ (attempt l < attempt l' \/ 0 < attempt l -> last_err l' <> None).
Proof.
  induction 1 as [l' A E R S|l0 c l' H0 IH Hc A E R S|l0 exc l' H0 IH E A R S];
    intros Hl.
  - rewrite A, E. split; [lia|]. intros [?|?]; [lia|auto].
  - rewrite A, E. apply IH. exact Hl.
  - destruct (IH Hl) as [Hle _]. split; [destruct A; lia|].
    intros _. rewrite E. discriminate.
Qed.

(** The display form of the text read, when stripping distributes. *)
Lemma evolves_shown l l' :
  (forall a b, strip_emoji ctx (a ++ b) = strip_emoji ctx a ++ strip_emoji ctx b) ->
  evolves ctx state l l' ->
  received l = [] -> shown l = [] ->
  shown l' = display_chunk ctx state (received l').
Proof.
  intros Hhom H Hr Hs.
  assert (Hnil : strip_emoji ctx [] = []).
  { pose proof (Hhom [] []) as E. cbn [app] in E.
    apply (f_equal (@length N)) in E. rewrite length_app in E.
    destruct (strip_emoji ctx []); [reflexivity|cbn [length] in E; lia]. }
  assert (Happ : forall a b,
             display_chunk ctx state (a ++ b)
             = display_chunk ctx state a ++ display_chunk ctx state b).
  { intros a b. unfold display_chunk. destruct (strip_emoji_enabled state); auto. }
  induction H as [l' A E R S|l0 c l' H0 IH Hc A E R S|l0 exc l' H0 IH E A R S].
  - rewrite S, R, Hs, Hr. unfold display_chunk.
    destruct (strip_emoji_enabled state); auto.
  - rewrite S, R, Happ. now rewrite IH.
  - rewrite S, R. exact IH.
Qed.

End Evolve.

(** X15.  Lines that are empty, that lack the data prefix or whose
    content is empty change nothing: a stream made of such lines only
    leaves the message as it was and gives an outcome without
    characters, tokens or a first-token time. *)
Theorem X15_idle_lines_change_nothing {W} (ctx : ChatContext W) state lines :
  forallb idle_line lines = true ->
  (forall l, read_lines ctx state lines l = (Exhausted, l))
  /\ (forall clk handler_flag m,
        exists out l' st',
          stream_completion_into ctx state clk
            [mkIteration false (Streaming lines EndOfStream) handler_flag] m
          = Some (out, l', st')
          /\ msg l' = m /\ out_chars out = 0 /\ out_tokens out = 0
          /\ out_ttft out = None /\ out_error out = None
          /\ out_was_cancelled out = false).
Proof.
  intros Hidle.
  assert (Hread : forall l, read_lines ctx state lines l = (Exhausted, l)).
  { induction lines as [|ev rest IH]; intros l; [reflexivity|].
    cbn [forallb] in Hidle. apply andb_prop in Hidle as [Hev Hrest].
    unfold idle_line in Hev. apply andb_prop in Hev as [Hc Hp].
    apply negb_true_iff in Hc. cbn [read_lines]. rewrite Hc.
    destruct (payload ev) as [| | |c]; try discriminate Hp; try now apply IH.
    rewrite Hp. now apply IH. }
  split; [exact Hread|].
  intros clk hf m. eexists _, _, _.
  unfold stream_completion_into. cbn [attempts init_locals attempt].
  change (negb (0 <=? max_retries)) with false. cbv iota.
  unfold attempt_body. cbn [top_cancel]. unfold try_body. cbn [answer].
  rewrite Hread. cbv iota beta.
  split; [reflexivity|]. repeat split.
Qed.

Lemma X15_idle_lines_witness :
  read_lines demo_context demo_state heartbeat_lines (init_locals fresh_model_msg)
  = (Exhausted, init_locals fresh_model_msg).
Proof.
  apply (proj1 (X15_idle_lines_change_nothing demo_context demo_state heartbeat_lines
                  eq_refl)).
Defined.

(** X16.  An exception that is not a transport exception, or that is
    raised when both retries have been used, ends the run at once
    unless the run is being cancelled: the outcome carries its text as
    the error and is not marked cancelled, no retry is counted, and the
    message holds everything read so far. *)
Theorem X16_unretried_failure_ends_the_run {W} (ctx : ChatContext W) state
    clk m pre it post l exc opened l0 :
  attempts ctx state (wall_start clk) pre (init_locals m) = Running l ->
  top_cancel it = false ->
  try_body ctx state (wall_start clk) it l = TryRaise exc opened l0 ->
  handler_cancel it = false ->
  transient exc = false \/ attempt l = max_retries ->
  exists out l' st',
    stream_completion_into ctx state clk (pre ++ it :: post) m = Some (out, l', st')
    /\ out_error out = Some (text exc)
    /\ out_was_cancelled out = false
    /\ attempt l' = attempt l
    /\ content (msg l') = content m ++ received l'.
Proof.
  intros Hrun Htop Htry Hh Hwhy.
  destruct (StreamClaims.running_inv ctx state _ m pre l Hrun) as [I L].
  pose proof (try_body_inv ctx state m (wall_start clk) it l I L) as Ht.
  rewrite Htry in Ht. destruct Ht as (I0 & L0 & A0 & E0).
  pose proof (handle_exception_inv ctx m it opened exc l0 I0 L0) as Hx.
  unfold stream_completion_into.
  rewrite (attempts_app ctx state _ pre (it :: post) _ l Hrun).
  cbn [attempts].
  destruct I as (_ & Ha & _).
  replace (negb (attempt l <=? max_retries)) with false
    by (symmetry; apply negb_false_iff, Z.leb_le; lia).
  unfold attempt_body. rewrite Htop, Htry.
  destruct (flush_pending_spec ctx l0)
    as (_ & _ & _ & _ & Fwc & _ & Fa & _ & _ & _ & _ & _ & Ftd & _).
  assert (Hr : handle_exception ctx it opened exc l0
               = (Break, set_attempt_err (flush_pending ctx l0)
                           (attempt (flush_pending ctx l0)) (Some exc))).
  { unfold handle_exception. rewrite Hh. cbv zeta. cbn [attempt set_attempt_err].
    replace (transient exc && (attempt (flush_pending ctx l0) <? max_retries))
      with false; [reflexivity|].
    symmetry. destruct Hwhy as [->|Hmax]; [reflexivity|].
    apply andb_false_intro2, Z.ltb_ge. lia. }
  rewrite Hr in *. unfold handled_ok in Hx. cbn [fst snd] in Hx.
  destruct Hx as (Ix & _).
  set (lx := set_attempt_err (flush_pending ctx l0)
               (attempt (flush_pending ctx l0)) (Some exc)) in *.
  assert (Hfin : exists lf,
             finally opened (Break, lx) = (Break, lf)
             /\ Inv m lf /\ was_cancelled lf = false /\ last_err lf = Some exc
             /\ attempt lf = attempt l /\ tool_call_detected lf = false).
  { destruct L0 as [Lw Lt]. unfold finally. cbn [fst snd].
    destruct opened; eexists; (split; [reflexivity|]);
      (split; [exact Ix|]); cbn [was_cancelled last_err attempt tool_call_detected
                                 emit lx set_attempt_err];
      rewrite Fwc, Fa, Ftd; repeat split; congruence. }
  destruct Hfin as (lf & -> & If & Hw & He & Haf & Htf).
  eexists _, _, _. split; [reflexivity|].
  cbn [out_error out_was_cancelled]. rewrite He, Hw.
  split; [reflexivity|]. split; [reflexivity|].
  destruct (flush_pending_spec ctx lf)
    as (Fc & _ & _ & _ & _ & _ & Fa' & _ & _ & Fr & _).
  split; [congruence|].
  destruct If as (_ & _ & _ & _ & Hcont & _).
  destruct (Hcont Htf) as [C1 _]. now rewrite Fc, Fr.
Qed.

Lemma X16_unretried_failure_witness :
  exists out l' st',
    stream_completion_into demo_context demo_state (mkClock 10 1000 15)
      ([] ++ mkIteration false (HttpError 500 ("boom"py)) false :: []) fresh_model_msg
    = Some (out, l', st')
    /\ out_error out = Some ("Completion error 500: boom"py)
    /\ out_was_cancelled out = false
    /\ attempt l' = attempt (init_locals fresh_model_msg)
    /\ content (msg l') = content fresh_model_msg ++ received l'.
Proof.
  apply (X16_unretried_failure_ends_the_run demo_context demo_state
           (mkClock 10 1000 15) fresh_model_msg []
           (mkIteration false (HttpError 500 ("boom"py)) false) []
           (init_locals fresh_model_msg)
           (RuntimeError ("Completion error 500: boom"py)) true
           (posted demo_context demo_state (init_locals fresh_model_msg))).
  - reflexivity.
  - reflexivity.
  - vm_compute. reflexivity.
  - reflexivity.
  - left. reflexivity.
Defined.

(** X17.  With the context that [app.py] builds, a run that ends
    without an intercepted tool call leaves in the message the raw text
    read, and as display text the same text with the emoji stripped
    when that setting is on: stripping chunk by chunk loses nothing and
    joins nothing across chunk boundaries. *)
Theorem X17_display_text_is_the_stripped_text {W} preamble (tools : BackendTools W)
    state clk script m out l' st' :
  stream_completion_into (app_context preamble tools) state clk script m
  = Some (out, l', st') ->
  tool_call_detected l' = false ->
  content (msg l') = content m ++ received l'
  /\ or_empty (display_raw (msg l'))
     = or_empty (display_raw m)
       ++ (if strip_emoji_enabled state then UiText.strip_emoji (received l')
           else received l').
Proof.
  intros Hrun Htd.
  pose proof (evolves_run _ state clk script m out l' st' Hrun) as Hev.
  pose proof (evolves_shown (app_context preamble tools) state _ l'
                TextExtras.strip_emoji_app Hev eq_refl eq_refl) as Hsh.
  unfold stream_completion_into in Hrun.
  pose proof (StreamClaims.attempts_running_or_finished_inv
                (app_context preamble tools) state (wall_start clk) m script) as H.
  destruct (attempts (app_context preamble tools) state (wall_start clk) script
              (init_locals m)) as [l|l]; [|discriminate].
  injection Hrun as _ <- _.
  destruct (flush_pending_spec (app_context preamble tools) l)
    as (Fc & Fd & _ & _ & _ & _ & _ & _ & _ & Fr & Fsh & _ & Ftd & _).
  rewrite Ftd in Htd.
  destruct H as (_ & _ & _ & _ & Hcont & _).
  destruct (Hcont Htd) as [C1 C2].
  rewrite Fc, Fd, Fr, C1, C2. split; [reflexivity|].
  rewrite Fsh, Fr in Hsh. rewrite Hsh. reflexivity.
Qed.

Lemma X17_display_text_witness :
  exists l',
    content (msg l') = content fresh_model_msg ++ received l'
    /\ or_empty (display_raw (msg l'))
       = or_empty (display_raw fresh_model_msg)
         ++ (if strip_emoji_enabled plain_display_state
             then UiText.strip_emoji (received l') else received l').
Proof.
  destruct (stream_completion_into (app_context [] no_tools) plain_display_state
              (mkClock 10 1000 15)
              [mkIteration false
                 (Streaming [chunk [128512%N] 11; chunk ("Hi"py) 12] EndOfStream) false]
              fresh_model_msg) as [[[out l'] st']|] eqn:E; [|discriminate E].
  exists l'.
  apply (X17_display_text_is_the_stripped_text [] no_tools plain_display_state
           (mkClock 10 1000 15) _ fresh_model_msg out l' st' E).
  vm_compute in E. injection E as _ <- _. reflexivity.
Defined.

(** X18.  The error of a caught exception is never cleared: a run that
    counted a retry and was not cancelled reports the text of the last
    exception caught as the error of its outcome, also when a later
    request delivered the rest of the answer. *)
Theorem X18_retried_run_reports_its_last_failure {W} (ctx : ChatContext W)
    state clk script m out l' st' :
  stream_completion_into ctx state clk script m = Some (out, l', st') ->
  0 < attempt l' ->
  out_was_cancelled out = false ->
  exists exc, last_err l' = Some exc /\ out_error out = Some (text exc).
Proof.
  intros Hrun Ha Hc.
  pose proof (evolves_run ctx state clk script m out l' st' Hrun) as Hev.
  destruct (evolves_error ctx state _ l' Hev) as [_ He].
  { cbn [init_locals attempt]. lia. }
  cbn [init_locals attempt] in He. specialize (He (or_introl Ha)).
  unfold stream_completion_into in Hrun.
  destruct (attempts ctx state (wall_start clk) script (init_locals m)) as [l|l];
    [|discriminate].
  injection Hrun as <- <- _.
  destruct (flush_pending_spec ctx l) as (_ & _ & _ & _ & _ & Fle & _).
  cbn [out_was_cancelled out_error] in *. rewrite Fle in *.
  destruct (last_err l) as [exc|]; [|congruence].
  exists exc. rewrite Hc. split; reflexivity.
Qed.

Lemma X18_retried_run_witness :
  exists out l',
    received l' = "Hello, world"py
    /\ exists exc, last_err l' = Some exc /\ out_error out = Some (text exc).
Proof.
  destruct (stream_completion_into demo_context demo_state (mkClock 10 1000 15)
              reconnect_script fresh_model_msg) as [[[out l'] st']|] eqn:E;
    [|discriminate E].
  exists out, l'. split.
  - vm_compute in E. injection E as _ <- _. reflexivity.
  - apply (X18_retried_run_reports_its_last_failure demo_context demo_state
             (mkClock 10 1000 15) reconnect_script fresh_model_msg out l' st' E);
      vm_compute in E; injection E as <- <- _; reflexivity.
Defined.

(** X19.  Whenever a request was answered at all, the iteration ends by
    closing the response, however the iteration is left. *)
Theorem X19_response_is_always_closed {W} (ctx : ChatContext W) state wall it l :
  top_cancel it = false ->
  (forall e, answer it <> ConnectError e) ->
  exists before, log (snd (attempt_body ctx state wall it l)) = before ++ [EvClose].
Proof.
  intros Htop Hans. unfold attempt_body. rewrite Htop.
  assert (Hopen : match try_body ctx state wall it l with
                  | TryRaise _ opened _ => opened = true
                  | _ => True
                  end).
  { unfold try_body. cbv zeta.
    destruct (answer it) as [e|cancel_after now|status detail|lines fin].
    - now destruct (Hans e).
    - destruct cancel_after; [exact I|]. destruct (negb _); [reflexivity|exact I].
    - reflexivity.
    - destruct (read_lines ctx state lines _) as [[| | |e] l2];
        [destruct fin| | |]; try exact I; reflexivity. }
  destruct (try_body ctx state wall it l) as [l'|l'|exc opened l'].
  - eexists. reflexivity.
  - eexists. reflexivity.
  - subst opened. eexists. reflexivity.
Qed.

Lemma X19_response_closed_witness :
  exists before,
    log (snd (attempt_body demo_context demo_state 1000
                (mkIteration false (HttpError 500 ("boom"py)) false)
                (init_locals fresh_model_msg)))
    = before ++ [EvClose].
Proof.
  apply (X19_response_is_always_closed demo_context demo_state 1000
           (mkIteration false (HttpError 500 ("boom"py)) false)).
  - reflexivity.
  - intros e H. discriminate H.
Defined.

End StreamExtras.

(* ===================================================================== *)
(** * Further properties of the file backend and of the agent loop *)
(* ===================================================================== *)

Module BackendExtras.
Import UiText UiPrompt Backend BackendFacts.

Section Write.

Variable safe_join : Py.str -> http_error + Py.str.

(** Every entry of the store is still there after a write request, or
    it was the overwritten target and a fresh backup holds what it held. *)
Lemma files_write_frame (fs : store) p c ow q v :
  fs !! q = Some v ->
  snd (files_write safe_join fs p c ow) !! q = Some v
  \/ (ow = true /\ safe_join p = inr q
      /\ exists old b, v = File old /\ fs !! b = None /\ q <> b
                       /\ snd (files_write safe_join fs p c ow) !! b = Some (File old)).
Proof.
  intros Hq. unfold files_write.
  destruct (safe_join p) as [e|key] eqn:Ej; [now left|].
  destruct (fs !! key) as [[old|]|] eqn:Ek.
  - destruct ow; cbn [negb]; [|now left].
    destruct (backup_search fs key (size fs) 1 (key ++ ".bak"py)) as [b|] eqn:Eb;
      [|now left].
    pose proof (backup_search_some _ _ _ _ _ _ Eb) as Hfree.
    assert (Hqb : q <> b) by (intros ->; unfold store in *; congruence).
    destruct (5000000 <? utf8_len c).
    + left. cbn [snd]. apply lookup_insert_Some. right. now split.
    + destruct (decide (q = key)) as [->|Hne].
      * right. split; [reflexivity|]. split; [reflexivity|].
        exists old, b. unfold store in *.
        assert (v = File old) by congruence. subst v.
        repeat split; try assumption.
        cbn [snd]. apply lookup_insert_Some. right. split; [congruence|].
        apply lookup_insert_Some. left. now split.
      * left. cbn [snd]. apply lookup_insert_Some. right. split; [congruence|].
        apply lookup_insert_Some. right. now split.
  - now left.
  - destruct (5000000 <? utf8_len c); [now left|].
    left. cbn [snd]. apply lookup_insert_Some. right. split; [|exact Hq].
    intros ->. unfold store in *. congruence.
Qed.

(** X20.  A write request never loses data.  Every entry of the store
    is still there afterwards, except a target that was overwritten,
    and then a backup under a name that was free holds the old content.
    A request that is answered wrote the content to the target, which
    was free unless overwriting was asked for; a request that fails
    leaves the target as it was. *)
Theorem X20_write_request_never_loses_data (fs : store) p c ow r fs' :
  files_write safe_join fs p c ow = (r, fs') ->
  (forall q v, fs !! q = Some v ->
     fs' !! q = Some v
     \/ (ow = true /\ safe_join p = inr q
         /\ exists old b, v = File old /\ fs !! b = None /\ q <> b
                          /\ fs' !! b = Some (File old)))
  /\ (forall resp, r = inr resp ->
        safe_join p = inr (resp_path resp)
        /\ fs' !! resp_path resp = Some (File c)
        /\ (ow = false -> fs !! resp_path resp = None)
        /\ (forall b, backup_path resp = Some b ->
              fs !! b = None
              /\ exists old, fs !! resp_path resp = Some (File old)
                             /\ fs' !! b = Some (File old)))
  /\ (forall e key, r = inl e -> safe_join p = inr key -> fs' !! key = fs !! key).
Proof.
  intros H. split; [|split].
  - intros q v Hq. pose proof (files_write_frame fs p c ow q v Hq) as F.
    rewrite H in F. exact F.
  - intros resp ->. unfold files_write in H.
    destruct (safe_join p) as [e|key] eqn:Ej; [discriminate H|].
    destruct (fs !! key) as [[old|]|] eqn:Ek.
    + destruct ow; cbn [negb] in H; [|discriminate H].
      destruct (backup_search fs key (size fs) 1 (key ++ ".bak"py)) as [b|] eqn:Eb;
        [|discriminate H].
      pose proof (backup_search_some _ _ _ _ _ _ Eb) as Hfree.
      destruct (5000000 <? utf8_len c); [discriminate H|].
      injection H as <- <-. cbn [resp_path backup_path].
      split; [reflexivity|]. split; [apply lookup_insert_Some; now left|].
      split; [discriminate|].
      intros b' [= <-]. split; [exact Hfree|]. exists old. split; [exact Ek|].
      apply lookup_insert_Some. right. split.
      * intros ->. unfold store in *. congruence.
      * apply lookup_insert_Some. now left.
    + discriminate H.
    + destruct (5000000 <? utf8_len c); [discriminate H|].
      injection H as <- <-. cbn [resp_path backup_path].
      split; [reflexivity|]. split; [apply lookup_insert_Some; now left|].
      split; [intros _; exact Ek|]. intros b' [=].
  - intros e key -> Hj. unfold files_write in H. rewrite Hj in H.
    destruct (fs !! key) as [[old|]|] eqn:Ek.
    + destruct ow; cbn [negb] in H; [|now injection H as _ <-].
      destruct (backup_search fs key (size fs) 1 (key ++ ".bak"py)) as [b|] eqn:Eb;
        [|now injection H as _ <-].
      pose proof (backup_search_some _ _ _ _ _ _ Eb) as Hfree.
      destruct (5000000 <? utf8_len c); [|discriminate H].
      injection H as _ <-. apply lookup_insert_Some. right.
      split; [|exact Ek]. intros ->. unfold store in *. congruence.
    + now injection H as _ <-.
    + destruct (5000000 <? utf8_len c); [|discriminate H].
      now injection H as _ <-.
Qed.

End Write.

Lemma X20_write_request_witness :
  let r := fst (files_write AgentSpec.plain_join AgentSpec.demo_store
                  ("todo.txt"py) ("new"py) true) in
  let fs' := snd (files_write AgentSpec.plain_join AgentSpec.demo_store
                    ("todo.txt"py) ("new"py) true) in
  (forall q v, AgentSpec.demo_store !! q = Some v ->
     fs' !! q = Some v
     \/ (true = true /\ AgentSpec.plain_join ("todo.txt"py) = inr q
         /\ exists old b, v = File old /\ AgentSpec.demo_store !! b = None /\ q <> b
                          /\ fs' !! b = Some (File old)))
  /\ (forall resp, r = inr resp ->
        AgentSpec.plain_join ("todo.txt"py) = inr (resp_path resp)
        /\ fs' !! resp_path resp = Some (File ("new"py))
        /\ (true = false -> AgentSpec.demo_store !! resp_path resp = None)
        /\ (forall b, backup_path resp = Some b ->
              AgentSpec.demo_store !! b = None
              /\ exists old, AgentSpec.demo_store !! resp_path resp = Some (File old)
                             /\ fs' !! b = Some (File old)))
  /\ (forall e key, r = inl e -> AgentSpec.plain_join ("todo.txt"py) = inr key ->
        fs' !! key = AgentSpec.demo_store !! key).
Proof.
  apply (X20_write_request_never_loses_data AgentSpec.plain_join AgentSpec.demo_store
           ("todo.txt"py) ("new"py) true).
  apply surjective_pairing.
Defined.

End BackendExtras.

Module AgentExtras.
Import UiText UiPrompt Backend ChatController AgentSpec TurnSpec AgentFacts PyFacts.

Section Loop.

Context {W : Type}.
Variable ctx : ChatContext W.
Variable state : State.

Lemma tool_name_of tc : py_or (tc_tool tc) ("tool"py) = tc_tool tc.
Proof. destruct tc; reflexivity. Qed.

Lemma tool_round_shape tc w :
  exists res,
    fst (tool_round ctx state tc w)
    = [AgDispatch tc; AgMarkToolCall (tool_status_text (tc_tool tc)); res;
       AgNewAssistantMessage]
    /\ is_answer_for (tc_tool tc) res = true.
Proof.
  unfold tool_round. rewrite tool_name_of.
  destruct (dispatch ctx state tc w) as [[exc|[md tool_ctx]] w'];
    eexists; (split; [reflexivity|]); cbn [is_answer_for];
    now apply bool_decide_eq_true.
Qed.

Lemma dispatch_off tc w :
  tools_off state ->
  exists exc, dispatch ctx state tc w = (inl exc, w).
Proof.
  intros [Hw Hf]. destruct tc; cbn [dispatch]; try rewrite Hw; try rewrite Hf;
    cbn [negb]; try (eexists; reflexivity).
  rewrite (dispatch_fs_write_disabled ctx state _ _ _ _ Hf). eexists; reflexivity.
Qed.

Lemma tool_round_off tc w :
  tools_off state ->
  snd (tool_round ctx state tc w) = w
  /\ Forall (fun e => is_tool_message e = false) (fst (tool_round ctx state tc w)).
Proof.
  intros Hoff. unfold tool_round.
  destruct (dispatch_off tc w Hoff) as (exc & ->). cbn [fst snd app].
  split; [reflexivity|]. repeat constructor.
Qed.

Lemma agent_loop_off rounds : forall b w evs w',
  tools_off state ->
  agent_loop ctx state b rounds w = Some (evs, w') ->
  w' = w /\ Forall (fun e => is_tool_message e = false) evs.
Proof.
  induction rounds as [|r rest IH]; intros b w evs w' Hoff H; cbn [agent_loop] in H.
  - discriminate.
  - destruct (Py.truthy _); [injection H as <- <-; split; [reflexivity|repeat constructor]|].
    destruct (out_was_cancelled _);
      [injection H as <- <-; split; [reflexivity|repeat constructor]|].
    destruct (parse_tool_call ctx _) as [tc|];
      [|injection H as <- <-; split; [reflexivity|repeat constructor]].
    destruct (b <=? 0); [injection H as <- <-; split; [reflexivity|repeat constructor]|].
    destruct (tool_round_off tc w Hoff) as [Hw Hev].
    destruct (tool_round ctx state tc w) as [evs1 w1]. cbn [fst snd] in *. subst w1.
    destruct (agent_loop ctx state (b - 1) rest w) as [[evs2 w2]|] eqn:E;
      [|discriminate].
    injection H as <- <-. destruct (IH _ _ _ _ Hoff E) as [-> Hev2].
    split; [reflexivity|]. apply Forall_app. now split.
Qed.

End Loop.

Lemma tool_rounds_turn body e :
  tool_rounds body -> terminal e = true -> turn (body ++ [e]).
Proof.
  induction 1 as [|tc res rest Hres _ IH]; intros He.
  - now apply TurnEnd.
  - cbn [app]. apply TurnRound; [exact Hres|]. now apply IH.
Qed.

Lemma tool_rounds_open body :
  tool_rounds body -> Forall (fun x => terminal x = false) body.
Proof.
  induction 1 as [|tc res rest Hres _ IH]; [constructor|].
  repeat (constructor; [try reflexivity|]); [|exact IH].
  destruct res; try discriminate Hres; reflexivity.
Qed.

Lemma agent_loop_exc_shape {W} (ctx : ChatContext W) state runs : forall b w evs e w',
  agent_loop_exc ctx state b runs w = Some (evs, e, w') ->
  match e with
  | LoopLeft =>
      exists body last, evs = body ++ [last] /\ tool_rounds body /\ terminal last = true
  | Failed notice =>
      tool_rounds evs
      /\ exists pre exc post,
           runs = map RunReturned pre ++ RunRaised exc :: post
           /\ notice = fail_notice exc
  end.
Proof.
  induction runs as [|[r|exc] rest IH]; intros b w evs e w' H; cbn [agent_loop_exc] in H.
  - discriminate.
  - destruct (Py.truthy _);
      [injection H as <- <- _; exists [], (AgStreamError (or_empty (out_error (stats r))));
       repeat split; constructor|].
    destruct (out_was_cancelled _);
      [injection H as <- <- _; exists [], AgCancelled; repeat split; constructor|].
    destruct (parse_tool_call ctx _) as [tc|];
      [|injection H as <- <- _; exists [], AgFinalize; repeat split; constructor].
    destruct (b <=? 0);
      [injection H as <- <- _; exists [], (AgBudgetExceeded budget_notice);
       repeat split; constructor|].
    destruct (tool_round_shape ctx state tc w) as (res & Hs & Hres).
    destruct (tool_round ctx state tc w) as [evs1 w1]. cbn [fst] in Hs. subst evs1.
    destruct (agent_loop_exc ctx state (b - 1) rest w1) as [[[evs2 e2] w2]|] eqn:E;
      [|discriminate].
    injection H as <- <- _. specialize (IH _ _ _ _ _ E).
    assert (Hround : forall tail, tool_rounds tail ->
               tool_rounds ([AgDispatch tc; AgMarkToolCall (tool_status_text (tc_tool tc));
                             res; AgNewAssistantMessage] ++ tail)).
    { intros tail Ht. cbn [app]. now apply RoundsCons. }
    destruct e2 as [|notice].
    + destruct IH as (body & last & -> & Hb & Hl).
      exists ([AgDispatch tc; AgMarkToolCall (tool_status_text (tc_tool tc));
               res; AgNewAssistantMessage] ++ body), last.
      split; [now rewrite <- app_assoc|]. split; [now apply Hround|exact Hl].
    + destruct IH as (Hb & pre & exc & post & -> & ->).
      split; [now apply Hround|].
      exists (r :: pre), exc, post. split; reflexivity.
  - injection H as <- <- _. split; [constructor|].
    exists [], exc, rest. split; reflexivity.
Qed.

Lemma agent_loop_exc_returned {W} (ctx : ChatContext W) state rounds : forall b w,
  agent_loop_exc ctx state b (map RunReturned rounds) w
  = match agent_loop ctx state b rounds w with
    | Some (evs, w') => Some (evs, LoopLeft, w')
    | None => None
    end.
Proof.
  induction rounds as [|r rest IH]; intros b w; cbn [map agent_loop_exc agent_loop].
  - reflexivity.
  - destruct (Py.truthy _); [reflexivity|].
    destruct (out_was_cancelled _); [reflexivity|].
    destruct (parse_tool_call ctx _) as [tc|]; [|reflexivity].
    destruct (b <=? 0); [reflexivity|].
    destruct (tool_round ctx state tc w) as [evs1 w1].
    rewrite IH. destruct (agent_loop ctx state (b - 1) rest w1) as [[evs2 w2]|];
      reflexivity.
Qed.

(** X21.  The events of a turn of the agent are complete tool rounds,
    each made of the dispatched call, its status mark, exactly one
    answer for that tool (a tool message or a tool error) and a fresh
    assistant message.  A turn whose loop is left by a [break] ends with
    exactly one closing event after them: a stream error, a
    cancellation, the budget notice or the final rendering.  A turn in
    which a stream run raises ends in the handler instead, with the
    text of the exception in the notice and no closing event.  On
    stream runs that all return, this is the loop of [agent_worker]. *)
Theorem X21_turn_is_rounds_then_one_end {W} (ctx : ChatContext W) state runs w evs e w' :
  agent_worker_exc ctx state runs w = Some (evs, e, w') ->
  (e = LoopLeft ->
   turn evs
   /\ exists body last, evs = body ++ [last] /\ tool_rounds body /\ terminal last = true
                        /\ Forall (fun x => terminal x = false) body)
  /\ (forall notice, e = Failed notice ->
        tool_rounds evs
        /\ Forall (fun x => terminal x = false) evs
        /\ exists pre exc post,
             runs = map RunReturned pre ++ RunRaised exc :: post
             /\ notice = "Error: "py ++ text exc)
  /\ (forall rounds, runs = map RunReturned rounds ->
        e = LoopLeft /\ agent_worker ctx state rounds w = Some (evs, w')).
Proof.
  intros H. pose proof (agent_loop_exc_shape ctx state runs _ w evs e w' H) as Hs.
  split; [|split].
  - intros ->. destruct Hs as (body & last & -> & Hb & Hl).
    split; [now apply tool_rounds_turn|].
    exists body, last. repeat split; try assumption. now apply tool_rounds_open.
  - intros notice ->. destruct Hs as (Hb & Hex).
    split; [exact Hb|]. split; [now apply tool_rounds_open|exact Hex].
  - intros rounds ->. unfold agent_worker_exc in H.
    rewrite agent_loop_exc_returned in H. unfold agent_worker.
    destruct (agent_loop ctx state tool_budget_init rounds w) as [[evs0 w0]|];
      [|discriminate H].
    injection H as <- <- <-. split; reflexivity.
Qed.

Lemma X21_turn_witness :
  let evs := [AgDispatch (FsList ("."py) false 200);
              AgMarkToolCall ("Listing files..."py);
              AgToolError ("fs_list"py)
                ("## Tool error"py ++ [10%N] ++ "File listing failed"py);
              AgNewAssistantMessage] in
  tool_rounds evs
  /\ Forall (fun x => terminal x = false) evs
  /\ exists pre exc post,
       [RunReturned (tool_round_of list_call); RunRaised field_error]
       = map RunReturned pre ++ RunRaised exc :: post
       /\ "Error: could not convert string to float: 'many'"py = "Error: "py ++ text exc.
Proof.
  apply (proj1 (proj2 (X21_turn_is_rounds_then_one_end files_context files_state
                         [RunReturned (tool_round_of list_call); RunRaised field_error]
                         (demo_world []) _
                         (Failed ("Error: could not convert string to float: 'many'"py))
                         (demo_world []) eq_refl))
           ("Error: could not convert string to float: 'many'"py) eq_refl).
Defined.

(** X22.  With both tool switches off a turn touches nothing: whatever
    the model asks for, no backend operation runs and no dialog is
    shown, and no call is answered by a tool message. *)
Theorem X22_switched_off_tools_do_nothing {W} (ctx : ChatContext W) state rounds w evs w' :
  tools_off state ->
  agent_worker ctx state rounds w = Some (evs, w') ->
  w' = w /\ Forall (fun e => is_tool_message e = false) evs.
Proof. intros Hoff H. exact (agent_loop_off ctx state rounds _ w evs w' Hoff H). Qed.

Lemma X22_switched_off_witness :
  exists evs,
    agent_worker files_context tools_off_state
      [tool_round_of write_call_text; final_round] (demo_world [Some ChooseOverwrite])
    = Some (evs, demo_world [Some ChooseOverwrite])
    /\ Forall (fun e => is_tool_message e = false) evs.
Proof.
  destruct (agent_worker files_context tools_off_state
              [tool_round_of write_call_text; final_round]
              (demo_world [Some ChooseOverwrite])) as [[evs w']|] eqn:E;
    [|vm_compute in E; discriminate E].
  destruct (X22_switched_off_tools_do_nothing files_context tools_off_state
              [tool_round_of write_call_text; final_round]
              (demo_world [Some ChooseOverwrite]) evs w') as [-> Hev].
  - split; reflexivity.
  - exact E.
  - exists evs. split; [reflexivity|exact Hev].
Defined.

(** X23.  The number of bytes the dispatcher asks [fs_read] for lies
    between 1000 and 10,000,000 whatever the call and the settings say,
    and a request between 1000 and 10,000 bytes is passed on as it is. *)
Theorem X23_read_request_is_clamped {W} (ctx : ChatContext W) state path max_bytes w :
  tool_fs_enabled state = true ->
  exists n,
    dispatch ctx state (FsRead path max_bytes) w
    = lift w (fs_read (backend_tools ctx) (backend w) path n)
    /\ 1000 <= n <= 10000000
    /\ (1000 <= max_bytes <= 10000 -> n = max_bytes).
Proof.
  intros Hen. cbn [dispatch]. rewrite Hen. cbn [negb].
  eexists. split; [reflexivity|]. split; lia.
Qed.

Lemma X23_read_request_witness :
  exists n,
    dispatch files_context files_state (FsRead ("todo.txt"py) 5) (demo_world [])
    = lift (demo_world [])
        (fs_read (backend_tools files_context) (backend (demo_world []))
           ("todo.txt"py) n)
    /\ 1000 <= n <= 10000000
    /\ (1000 <= 5 <= 10000 -> n = 5).
Proof.
  apply (X23_read_request_is_clamped files_context files_state ("todo.txt"py) 5
           (demo_world [])).
  reflexivity.
Defined.

Section FilesBackend.

Variable safe_join : Py.str -> http_error + Py.str.
Variable elapsed_ms : nat.
Variable ctx : ChatContext store.
Variable state : State.
Hypothesis Hctx : fs_write (backend_tools ctx) = client_fs_write safe_join elapsed_ms.

Lemma client_refusal_changes_nothing fs p c exc :
  fst (client_fs_write safe_join elapsed_ms fs p c false) = inl exc ->
  snd (client_fs_write safe_join elapsed_ms fs p c false) = fs.
Proof.
  unfold client_fs_write, files_write.
  destruct (safe_join p) as [e|key]; [reflexivity|].
  destruct (fs !! key) as [[old|]|]; try reflexivity.
  destruct (5000000 <? utf8_len c); [reflexivity|]. discriminate.
Qed.

Lemma client_snd fs p c ow :
  snd (client_fs_write safe_join elapsed_ms fs p c ow)
  = snd (files_write safe_join fs p c ow).
Proof.
  unfold client_fs_write.
  destruct (files_write safe_join fs p c ow) as [[e|r] fs']; reflexivity.
Qed.

End FilesBackend.

(** X24.  Over the file backend a dispatched write never loses data,
    whatever the model asks for and whatever the user answers.  Every
    entry of the store is still there afterwards; the only exception is
    the target after the user chose Overwrite, and then a backup under
    a name that was free holds the old content. *)
Theorem X24_dispatched_write_never_loses_data
    (safe_join : Py.str -> http_error + Py.str) (elapsed_ms : nat)
    (ctx : ChatContext store) (state : State) path content ow (w : World store) q v :
  fs_write (backend_tools ctx) = client_fs_write safe_join elapsed_ms ->
  backend w !! q = Some v ->
  let w' := snd (dispatch_fs_write ctx state path content ow w) in
  backend w' !! q = Some v
  \/ (first_answer w = Some ChooseOverwrite /\ safe_join path = inr q
      /\ exists old b, v = File old /\ backend w !! b = None /\ q <> b
                       /\ backend w' !! b = Some (File old)).
Proof.
  intros Hctx Hq w'. subst w'.
  destruct (tool_fs_enabled state) eqn:Hen.
  2:{ rewrite (dispatch_fs_write_disabled ctx state _ _ _ _ Hen). now left. }
  rewrite (dispatch_fs_write_eq ctx state _ _ _ _ Hen).
  rewrite call_fs_write_eq, Hctx.
  pose proof (client_keeps safe_join elapsed_ms (backend w) path content q v Hq) as Hk.
  pose proof (client_refusal_changes_nothing safe_join elapsed_ms (backend w) path content)
    as Hsame.
  destruct (client_fs_write safe_join elapsed_ms (backend w) path content false)
    as [[exc|out] b1]; cbn [fst snd] in *; [|now left].
  specialize (Hsame exc eq_refl). subst b1.
  destruct (is_conflict (text exc)); [|now left].
  change (first_answer (after_write w (backend w) (mkWriteCall path content false)))
    with (first_answer w).
  destruct (first_answer w) as [[| |]|] eqn:Ea; try (now left).
  - left. unfold _write_unique_bak.
    apply (scan_keeps safe_join elapsed_ms ctx Hctx). exact Hq.
  - rewrite call_fs_write_eq, Hctx. cbn [snd backend after_write after_prompt].
    rewrite client_snd.
    destruct (BackendExtras.files_write_frame safe_join (backend w) path content true
                q v Hq) as [F|(_ & Hj & old & b & Hv & Hb & Hqb & Hold)].
    + now left.
    + right. split; [reflexivity|]. split; [exact Hj|]. now exists old, b.
Qed.

Lemma X24_dispatched_write_witness :
  let w' := snd (dispatch_fs_write files_context files_state ("todo.txt"py) ("new"py)
                   false (demo_world [Some ChooseOverwrite])) in
  backend w' !! ("todo.txt"py) = Some (File ("old"py))
  \/ (first_answer (demo_world [Some ChooseOverwrite]) = Some ChooseOverwrite
      /\ plain_join ("todo.txt"py) = inr ("todo.txt"py)
      /\ exists old b,
           File ("old"py) = File old
           /\ backend (demo_world [Some ChooseOverwrite]) !! b = None
           /\ "todo.txt"py <> b
           /\ backend w' !! b = Some (File old)).
Proof.
  apply (X24_dispatched_write_never_loses_data plain_join 3 files_context files_state
           ("todo.txt"py) ("new"py) false (demo_world [Some ChooseOverwrite])
           ("todo.txt"py) (File ("old"py))).
  - reflexivity.
  - vm_compute. reflexivity.
Defined.

End AgentExtras.
